(** * Caceria_PRO_U: GPS acquisition and KML geometry

    A shallow embedding of [Caceria_PRO_U_250427.py]: the NMEA read loop of
    [read_gps_coordinates], the geometry of [generate_kml] and
    [generate_circle_kml], [get_next_filename], [calculate_angle], the
    callback chain of [load_gps] / [load_both_gps_and_generate], and the
    dashboard of [main]: [update_compass_display], [generate_kml_file],
    [generate_circle_file], the recent files and the folder selection.

    Python [float] is IEEE-754 binary64, embedded as Rocq's primitive
    [float]; Python [int] is [Z]; [str] is [string]; exceptions are an error
    monad; the file system is a finite map from paths to files and
    directories. *)

From Stdlib Require Import ZArith Lia List Bool Ascii String Floats.
From stdpp Require Import gmap strings pretty.

Set Default Proof Using "Type".
Local Open Scope Z_scope.

(** ** Python runtime: exceptions *)

Module Py.

(** The exception classes the program can meet, each with its message. *)
Inductive exn : Type :=
| ValueError (msg : string)
| OverflowError (msg : string)
| ZeroDivisionError (msg : string)
| OSError (msg : string)
| SerialException (msg : string).

Inductive result (A : Type) : Type :=
| Ok (a : A)
| Raise (e : exn).
Arguments Ok {A} a.
Arguments Raise {A} e.

Definition bind {A B : Type} (r : result A) (k : A -> result B) : result B :=
  match r with
  | Ok a => k a
  | Raise e => Raise e
  end.

Declare Scope py_scope.
Delimit Scope py_scope with py.
Notation "'let*' x ':=' r 'in' k" := (bind r (fun x => k))
  (at level 10, x name, r at level 100, k at level 200) : py_scope.

(** [except ValueError] catches exactly the [ValueError] class. *)
Definition is_ValueError (e : exn) : bool :=
  match e with ValueError _ => true | _ => false end.

(** ** Characters and strings *)

Definition code (c : ascii) : Z := Z.of_nat (nat_of_ascii c).

(** [str.isspace] on the characters an ASCII decode can produce. *)
Definition is_space (c : ascii) : bool :=
  let n := code c in
  ((9 <=? n) && (n <=? 13)) || ((28 <=? n) && (n <=? 32)).

(** [Py_ISSPACE], the white space [float(str)] and [int(str)] drop: tab,
    line feed, vertical tab, form feed, carriage return and space. The
    separators 28 to 31, which [str.strip] drops, are not among them. *)
Definition is_c_space (c : ascii) : bool :=
  let n := code c in
  ((9 <=? n) && (n <=? 13)) || (n =? 32).

Definition is_digit (c : ascii) : bool :=
  let n := code c in (48 <=? n) && (n <=? 57).

Definition digit_value (c : ascii) : Z := code c - 48.

(** ASCII lower-casing, for the case-insensitive [inf] and [nan]. *)
Definition lower (c : ascii) : ascii :=
  let n := code c in
  if (65 <=? n) && (n <=? 90) then ascii_of_nat (Z.to_nat (n + 32)) else c.

Fixpoint lstrip_chars (s : list ascii) : list ascii :=
  match s with
  | c :: s' => if is_space c then lstrip_chars s' else s
  | [] => []
  end.

Definition strip_chars (s : list ascii) : list ascii :=
  rev (lstrip_chars (rev (lstrip_chars s))).

(** The same for the white space of [Py_ISSPACE]. *)
Fixpoint lstrip_c_space (s : list ascii) : list ascii :=
  match s with
  | c :: s' => if is_c_space c then lstrip_c_space s' else s
  | [] => []
  end.

Definition strip_c_space (s : list ascii) : list ascii :=
  rev (lstrip_c_space (rev (lstrip_c_space s))).

(** [str.strip()] *)
Definition strip (s : string) : string :=
  string_of_list_ascii (strip_chars (list_ascii_of_string s)).

(** [str.startswith] *)
Definition startswith (s p : string) : bool := String.prefix p s.

(** [str.split(sep)] for a one-character separator: always at least one
    field, empty fields kept. *)
Fixpoint split_chars (sep : ascii) (cur : list ascii) (s : list ascii) : list string :=
  match s with
  | [] => [string_of_list_ascii (rev cur)]
  | c :: s' =>
      if Ascii.eqb c sep
      then string_of_list_ascii (rev cur) :: split_chars sep [] s'
      else split_chars sep (c :: cur) s'
  end.

Definition split (sep : ascii) (s : string) : list string :=
  split_chars sep [] (list_ascii_of_string s).

(** [bool(s)] for a string: non-empty. *)
Definition str_truthy (s : string) : bool :=
  match s with EmptyString => false | _ => true end.

(** ** Floats *)

Local Open Scope float_scope.

(** [math.pi] *)
Definition pi : float := 0x1.921fb54442d18p+1.

Definition is_finite (x : float) : bool :=
  negb (PrimFloat.is_nan x) && negb (PrimFloat.is_infinity x).

(** Identity of two floats as Python prints them: same value and sign, or
    both NaN. *)
Definition same_float (x y : float) : bool := PrimFloat.Leibniz.eqb x y.

(** [bool(x)] for a float: [x != 0.0]. *)
Definition float_truthy (x : float) : bool := negb (x =? 0).

(** The correctly rounded binary64 value of [(-1)^s * n / d] for positive
    [n] and [d]: the rounding [float(str)] and [float(int)] perform. *)
Definition round_ratio (s : bool) (n d : positive) : float :=
  SF2Prim (SFdiv prec emax (S754_finite s n 0) (S754_finite false d 0)).

(** [float(n)] for an [int]: nearest-even, [OverflowError] past the range. *)
Definition float_of_int (n : Z) : result float :=
  let r := SF2Prim (binary_normalize prec emax n 0 false) in
  if PrimFloat.is_infinity r
  then Raise (OverflowError "int too large to convert to float")
  else Ok r.

(** [int(x)] for a float: truncation toward zero. *)
Definition int_of_float (x : float) : result Z :=
  match Prim2SF x with
  | S754_nan => Raise (ValueError "cannot convert float NaN to integer")
  | S754_infinity _ => Raise (OverflowError "cannot convert float infinity to integer")
  | S754_zero _ => Ok 0%Z
  | S754_finite s m e => Ok (cond_Zopp s (Z.shiftl (Zpos m) e))
  end.

(** [math.floor(x)]: the largest integer not above [x]. *)
Definition floor_of_float (x : float) : result Z :=
  match Prim2SF x with
  | S754_nan => Raise (ValueError "cannot convert float NaN to integer")
  | S754_infinity _ => Raise (OverflowError "cannot convert float infinity to integer")
  | S754_zero _ => Ok 0%Z
  | S754_finite s m e => Ok (Z.shiftl (cond_Zopp s (Zpos m)) e)
  end.

(** [x / y] on floats. *)
Definition truediv (x y : float) : result float :=
  if y =? 0 then Raise (ZeroDivisionError "float division by zero")
  else Ok (x / y).

(** [x ** 2]. CPython calls C [pow(x, 2.0)] and raises when a finite base
    overflows. The square is taken here as the correctly rounded product
    [x * x]: a C library whose [pow] is not correctly rounded may differ
    from it in the last place. Both agree on zeros, infinities and NaN. *)
Definition pow2 (x : float) : result float :=
  let r := x * x in
  if PrimFloat.is_infinity r && negb (PrimFloat.is_infinity x)
  then Raise (OverflowError "(34, 'Numerical result out of range')")
  else Ok r.

(** C [fmod]: the exact remainder of the truncated quotient, with the sign
    of [x]. *)
Definition fmod (x y : float) : float :=
  match Prim2SF x, Prim2SF y with
  | S754_nan, _ | _, S754_nan => nan
  | S754_infinity _, _ => nan
  | _, S754_zero _ => nan
  | S754_zero _, _ => x
  | S754_finite _ _ _, S754_infinity _ => x
  | S754_finite sx mx ex, S754_finite _ my ey =>
      let e := Z.min ex ey in
      let r := Z.modulo (Z.shiftl (Zpos mx) (ex - e)) (Z.shiftl (Zpos my) (ey - e)) in
      SF2Prim (binary_normalize prec emax (cond_Zopp sx r) e sx)
  end.

(** [x % y] on floats ([float_rem] of CPython). *)
Definition mod_ (x y : float) : result float :=
  if y =? 0 then Raise (ZeroDivisionError "float modulo")
  else
    let m := fmod x y in
    if negb (m =? 0) then
      if xorb (y <? 0) (m <? 0) then Ok (m + y) else Ok m
    else Ok (if PrimFloat.get_sign y then neg_zero else zero).

(** ** [float(str)]

    The grammar of CPython's [PyFloat_FromString] on ASCII text: the white
    space of [Py_ISSPACE] around the number is dropped, underscores may
    separate digits, then an optional sign and
    either [inf], [infinity], [nan] in any case or a decimal number with an
    optional exponent; the value is the correctly rounded one. *)

Local Close Scope float_scope.

Definition parse_error : exn := ValueError "could not convert string to float".

(** Underscores are allowed only between two digits. *)
Fixpoint drop_underscores (prev : ascii) (s : list ascii) : option (list ascii) :=
  match s with
  | [] => if Ascii.eqb prev "_" then None else Some []
  | c :: s' =>
      if Ascii.eqb c "_" then
        if is_digit prev then drop_underscores c s' else None
      else if Ascii.eqb prev "_" && negb (is_digit c) then None
      else option_map (cons c) (drop_underscores c s')
  end.

Definition parse_sign (s : list ascii) : bool * list ascii :=
  match s with
  | c :: r => if Ascii.eqb c "-" then (true, r)
              else if Ascii.eqb c "+" then (false, r) else (false, s)
  | [] => (false, s)
  end.

(** Reads a run of digits: the number read after [acc], how many digits,
    and what follows. *)
Fixpoint take_digits (s : list ascii) (acc count : Z) : Z * Z * list ascii :=
  match s with
  | c :: r => if is_digit c then take_digits r (10 * acc + digit_value c) (count + 1)
              else (acc, count, s)
  | [] => (acc, count, s)
  end.

(** A decimal number as digits [d] and power of ten [k]: [d * 10^k]. *)
Definition parse_decimal (s : list ascii) : option (Z * Z) :=
  let '(ip, ni, r1) := take_digits s 0 0 in
  let '(fp, nf, r2) :=
    match r1 with
    | c :: r => if Ascii.eqb c "." then take_digits r ip 0 else (ip, 0, r1)
    | [] => (ip, 0, r1)
    end in
  if ni + nf =? 0 then None
  else
    match r2 with
    | [] => Some (fp, - nf)
    | c :: r3 =>
        if Ascii.eqb (lower c) "e" then
          let '(es, r4) := parse_sign r3 in
          let '(ev, ne, r5) := take_digits r4 0 0 in
          match r5 with
          | [] => if ne =? 0 then None else Some (fp, cond_Zopp es ev - nf)
          | _ :: _ => None
          end
        else None
    end.

Definition is_keyword (s : list ascii) (k : string) : bool :=
  String.eqb (string_of_list_ascii (map lower s)) k.

Definition decimal_value (neg : bool) (d k : Z) : float :=
  match d with
  | Zpos p =>
      if 0 <=? k then round_ratio neg (p * Z.to_pos (10 ^ k)) 1
      else round_ratio neg p (Z.to_pos (10 ^ (- k)))
  | _ => if neg then neg_zero else zero
  end.

Local Open Scope float_scope.

Definition float_of_string (s : string) : result float :=
  match drop_underscores "000"%char (strip_c_space (list_ascii_of_string s)) with
  | None => Raise parse_error
  | Some cs =>
      let '(neg, body) := parse_sign cs in
      if is_keyword body "inf" || is_keyword body "infinity"
      then Ok (if neg then neg_infinity else infinity)
      else if is_keyword body "nan" then Ok nan
      else
        match parse_decimal body with
        | Some (d, k) => Ok (decimal_value neg d k)
        | None => Raise parse_error
        end
  end.

(** ** The [math] module

    [sin], [cos] and [atan2] come from the C library; CPython wraps them
    with its own domain checks. *)

Class Libm : Type := {
  c_sin : float -> float;
  c_cos : float -> float;
  c_atan2 : float -> float -> float
}.

(** [math_1] of [mathmodule.c], for functions that cannot overflow. *)
Definition math_1 (f : float -> float) (x : float) : result float :=
  let r := f x in
  if PrimFloat.is_nan r && negb (PrimFloat.is_nan x)
  then Raise (ValueError "math domain error")
  else if PrimFloat.is_infinity r && is_finite x
  then Raise (ValueError "math domain error")
  else Ok r.

Definition math_sqrt (x : float) : result float := math_1 PrimFloat.sqrt x.

Definition copysign (x y : float) : float :=
  if PrimFloat.get_sign y then - (abs x) else abs x.

Section Math.
Context {L : Libm}.

Definition math_sin (x : float) : result float := math_1 c_sin x.
Definition math_cos (x : float) : result float := math_1 c_cos x.

(** [m_atan2] of [mathmodule.c]: the special values are decided before
    the C library is called. *)
Definition m_atan2 (y x : float) : float :=
  if PrimFloat.is_nan x || PrimFloat.is_nan y then nan
  else if PrimFloat.is_infinity y then
    if PrimFloat.is_infinity x then
      if copysign 1 x =? 1 then copysign (0.25 * pi) y
      else copysign (0.75 * pi) y
    else copysign (0.5 * pi) y
  else if PrimFloat.is_infinity x || (y =? 0) then
    if copysign 1 x =? 1 then copysign 0 y else copysign pi y
  else c_atan2 y x.

(** [math.atan2]: [math_2] around [m_atan2]. *)
Definition math_atan2 (y x : float) : result float :=
  let r := m_atan2 y x in
  if PrimFloat.is_nan r && negb (PrimFloat.is_nan y) && negb (PrimFloat.is_nan x)
  then Raise (ValueError "math domain error")
  else if PrimFloat.is_infinity r && is_finite y && is_finite x
  then Raise (OverflowError "math range error")
  else Ok r.
End Math.

(** [math.degrees] and [math.radians] *)
Definition math_degrees (x : float) : float := x * (180 / pi).
Definition math_radians (x : float) : float := x * (pi / 180).

End Py.

(** ** A reference C library

    The C standard does not fix [sin], [cos] and [atan2] bit for bit. The
    reference instance evaluates them in fixed-point integer arithmetic with
    some 150 guard bits and rounds once to binary64, so its values are the
    correctly rounded ones (which is what glibc returns on the arguments
    evaluated below). General theorems are stated for every [Libm]. *)

Module RefLibm.

(** The integer [a] with [p] fractional bits stands for [a / 2^p]. *)
Definition fx_mul (p a b : Z) : Z := Z.shiftr (a * b) p.

(** [arctan(1/n)] by Gregory's series; [pw] is [2^p / n^(2k+1)]. *)
Fixpoint atan_inv_loop (fuel : nat) (n2 pw k : Z) (neg : bool) (acc : Z) : Z :=
  match fuel with
  | O => acc
  | S fuel' =>
      if pw =? 0 then acc
      else
        let t := pw / (2 * k + 1) in
        atan_inv_loop fuel' n2 (pw / n2) (k + 1) (negb neg)
          (if neg then acc - t else acc + t)
  end.

Definition atan_inv (p n : Z) : Z :=
  atan_inv_loop (Z.to_nat p) (n * n) (2 ^ p / n) 0 false 0.

(** Machin: [pi = 16 arctan(1/5) - 4 arctan(1/239)], with 32 spare bits. *)
Definition machin_pi (p : Z) : Z :=
  let q := p + 32 in
  Z.shiftr (16 * atan_inv q 5 - 4 * atan_inv q 239) 32.

(** [pi * 2^288], the value of [machin_pi 288] (see [pi_288_machin]). *)
Definition pi_288 : Z :=
  1562387025964485694457739818426781157218896339048433338926897017367117390658661113143782.

Definition pi_fx (p : Z) : Z :=
  if p <=? 288 then Z.shiftr pi_288 (288 - p) else machin_pi p.

(** Alternating Taylor series: from the term of degree [k] to the one of
    degree [k + 2], multiplying by [- r^2 / ((k+1)(k+2))]. *)
Fixpoint taylor (fuel : nat) (p r2 term k acc : Z) : Z :=
  match fuel with
  | O => acc
  | S fuel' =>
      if term =? 0 then acc
      else
        let term' := - (fx_mul p term r2) / ((k + 1) * (k + 2)) in
        taylor fuel' p r2 term' (k + 2) (acc + term')
  end.

Definition sin_fx (p r : Z) : Z := taylor (Z.to_nat p) p (fx_mul p r r) r 1 r.
Definition cos_fx (p r : Z) : Z := taylor (Z.to_nat p) p (fx_mul p r r) (2 ^ p) 0 (2 ^ p).

(** The working precision for a float of exponent [e]. *)
Definition precision (e : Z) : Z := 200 + Z.abs (e + 53).

(** Rounds the fixed-point value [v] to binary64. *)
Definition of_fx (p v : Z) : float :=
  SF2Prim (binary_normalize prec emax v (- p) false).

(** Reduces [x = (-1)^s m 2^e] modulo [pi/2] and picks the function for the
    quadrant; [shift] is 0 for sine and 1 for cosine. *)
Definition sincos (shift : Z) (s : bool) (m : positive) (e : Z) : float :=
  let p := precision e in
  let x := cond_Zopp s (Z.shiftl (Zpos m) (e + p)) in
  let pi_p := pi_fx p in
  let k := (4 * x + pi_p) / (2 * pi_p) in
  let r := x - Z.shiftr (k * pi_p) 1 in
  match (k + shift) mod 4 with
  | 0 => of_fx p (sin_fx p r)
  | 1 => of_fx p (cos_fx p r)
  | 2 => of_fx p (- sin_fx p r)
  | _ => of_fx p (- cos_fx p r)
  end.

Definition sin (x : float) : float :=
  match Prim2SF x with
  | S754_finite s m e => sincos 0 s m e
  | S754_zero _ => x
  | _ => nan
  end.

Definition cos (x : float) : float :=
  match Prim2SF x with
  | S754_finite s m e => sincos 1 s m e
  | S754_zero _ => 1%float
  | _ => nan
  end.

(** [arctan t] for [0 <= t <= 1] in fixed point: three halvings
    [arctan t = 2 arctan (t / (1 + sqrt (1 + t^2)))], then Gregory's series. *)
Definition atan_half (p t : Z) : Z :=
  let one := 2 ^ p in
  Z.shiftl t p / (one + Z.sqrt (Z.shiftl (one + fx_mul p t t) p)).

Fixpoint gregory (fuel : nat) (p t2 pw k : Z) (neg : bool) (acc : Z) : Z :=
  match fuel with
  | O => acc
  | S fuel' =>
      if pw =? 0 then acc
      else
        let t := pw / (2 * k + 1) in
        gregory fuel' p t2 (fx_mul p pw t2) (k + 1) (negb neg)
          (if neg then acc - t else acc + t)
  end.

Definition atan_fx (p t : Z) : Z :=
  let u := atan_half p (atan_half p (atan_half p t)) in
  8 * gregory (Z.to_nat p) p (fx_mul p u u) u 0 false 0.

(** [atan2 y x] for finite arguments [(-1)^sy my 2^ey] and
    [(-1)^sx mx 2^ex]. *)
Definition atan2_finite (sy : bool) (my ey : Z) (sx : bool) (mx ex : Z) : float :=
  let e := Z.min ex ey in
  let p := 200 + Z.abs (ey - ex) in
  let ay := Z.shiftl my (ey - e) in
  let ax := Z.shiftl mx (ex - e) in
  let pi_p := pi_fx p in
  let a := if ay <=? ax
           then atan_fx p (Z.shiftl ay p / ax)
           else Z.shiftr pi_p 1 - atan_fx p (Z.shiftl ax p / ay) in
  let a := if sx then pi_p - a else a in
  of_fx p (cond_Zopp sy a).

Definition atan2 (y x : float) : float :=
  match Prim2SF y, Prim2SF x with
  | S754_finite sy my ey, S754_finite sx mx ex =>
      atan2_finite sy (Zpos my) ey sx (Zpos mx) ex
  | S754_finite sy my ey, S754_zero sx => atan2_finite sy (Zpos my) ey sx 0 ey
  | _, _ => nan
  end.

End RefLibm.

Definition ref_libm : Py.Libm :=
  {| Py.c_sin := RefLibm.sin; Py.c_cos := RefLibm.cos; Py.c_atan2 := RefLibm.atan2 |}.

Import Py.
Local Open Scope py_scope.
Local Open Scope float_scope.

(** Runs [f] over a list in order, stopping at the first exception. *)
Fixpoint map_result {A B : Type} (f : A -> result B) (l : list A) : result (list B) :=
  match l with
  | [] => Ok []
  | a :: l' =>
      let* b := f a in
      let* bs := map_result f l' in
      Ok (b :: bs)
  end.

(** ** The file system and the KML documents written to it *)

(** The placemark of a document: the line style and the coordinate tuples
    [lon,lat,0] in order. *)
Record document : Type := {
  doc_color : string;
  doc_width : Z;
  doc_coordinates : list (float * float)
}.

(** What is at a path: a file holding a document, a directory, or a file
    that was created or truncated by an [open] whose write did not go
    through, and holds no complete document. *)
Inductive node : Type :=
| File (d : document)
| Directory
| Partial.

(** How a write that does not go through fails: after the file was created
    or truncated (a full disk, a device error), or at [open] itself
    (permissions, a missing directory). *)
Class Disk : Type := {
  fails_after_open : string -> bool
}.

(** A disk whose failing writes fail at [open], and a full disk, whose
    failing writes fail after the file was created or truncated. *)
Definition closed_disk : Disk := {| fails_after_open := fun _ => false |}.
Definition full_disk : Disk := {| fails_after_open := fun _ => true |}.

(** Every path that exists, with what is there. *)
Abbreviation filesystem := (gmap string node).

(** [os.path.exists] *)
Definition path_exists (fs : filesystem) (path : string) : bool :=
  bool_decide (is_Some (fs !! path)).

Section Emit.
(** Whether the operating system lets the file at a path be opened for
    writing and the document be written to it in full. *)
Variable can_open : string -> bool.
Context {D : Disk}.

(** [with open(filename, 'wb') as file: file.write(...)]: [open] creates or
    truncates the file, then the document is written. An [open] that fails
    leaves the disk as it was; a write that fails after it leaves the file
    it created or truncated. *)
Definition write_file (filename : string) (d : document) (fs : filesystem)
  : result unit * filesystem :=
  match fs !! filename with
  | Some Directory => (Raise (OSError "Is a directory"), fs)
  | _ =>
      if can_open filename then (Ok tt, <[filename := File d]> fs)
      else if fails_after_open filename
      then (Raise (OSError "No space left on device"), <[filename := Partial]> fs)
      else (Raise (OSError "cannot open file"), fs)
  end.

Context {L : Libm}.

(** *** [generate_kml] *)

Definition same_points : exn := ValueError "The two points cannot be the same.".

(** Lines 27-45: the forward-projected end point. *)
Definition extend_line (longitude1 latitude1 longitude2 latitude2 length : float)
  : result (float * float) :=
  let earth_radius := 6378137 in
  let direction_longitude := longitude2 - longitude1 in
  let direction_latitude := latitude2 - latitude1 in
  let* sq_lon := pow2 direction_longitude in
  let* sq_lat := pow2 direction_latitude in
  let* magnitude := math_sqrt (sq_lon + sq_lat) in
  if magnitude =? 0 then Raise same_points
  else
    let* direction_longitude := truediv direction_longitude magnitude in
    let* direction_latitude := truediv direction_latitude magnitude in
    let* c := math_cos (pi * latitude2 / 180) in
    let* q := truediv length (earth_radius * c) in
    let delta_longitude := q * (180 / pi) in
    let delta_latitude := (length / earth_radius) * (180 / pi) in
    let end_longitude := longitude2 + direction_longitude * delta_longitude in
    let end_latitude := latitude2 + direction_latitude * delta_latitude in
    Ok (end_longitude, end_latitude).

Definition generate_kml (longitude1 latitude1 longitude2 latitude2 length : float)
    (filename line_color : string) (line_width : Z) (fs : filesystem)
  : result unit * filesystem :=
  match extend_line longitude1 latitude1 longitude2 latitude2 length with
  | Raise e => (Raise e, fs)
  | Ok (end_longitude, end_latitude) =>
      let kml_doc :=
        {| doc_color := line_color; doc_width := line_width;
           doc_coordinates := [(longitude1, latitude1); (longitude2, latitude2);
                               (end_longitude, end_latitude)] |} in
      write_file filename kml_doc fs
  end.

(** *** [generate_circle_kml] *)

Definition num_points : nat := 100.

(** Line 82: [angle = 2 * math.pi * i / num_points]. *)
Definition circle_angle (i : nat) : result float :=
  let* fi := float_of_int (Z.of_nat i) in
  let* fn := float_of_int (Z.of_nat num_points) in
  truediv (2 * pi * fi) fn.

(** The body of the loop at lines 81-87 for one [i]: [(point_lon, point_lat)]. *)
Definition circle_point (center_longitude center_latitude radius_km : float) (i : nat)
  : result (float * float) :=
  let earth_radius := 6371 in
  let* angle := circle_angle i in
  let delta_lat := (radius_km / earth_radius) * (180 / pi) in
  let* c := math_cos (pi * center_latitude / 180) in
  let* q := truediv radius_km (earth_radius * c) in
  let delta_lon := q * (180 / pi) in
  let* s := math_sin angle in
  let point_lat := center_latitude + delta_lat * s in
  let* c' := math_cos angle in
  let point_lon := center_longitude + delta_lon * c' in
  Ok (point_lon, point_lat).

Definition circle_points (center_longitude center_latitude radius_km : float)
  : result (list (float * float)) :=
  map_result (circle_point center_longitude center_latitude radius_km)
    (seq 0 (num_points + 1)).

Definition generate_circle_kml (center_longitude center_latitude radius_km : float)
    (filename line_color : string) (line_width : Z) (fs : filesystem)
  : result unit * filesystem :=
  match circle_points center_longitude center_latitude radius_km with
  | Raise e => (Raise e, fs)
  | Ok pts =>
      let kml_doc :=
        {| doc_color := line_color; doc_width := line_width;
           doc_coordinates := pts |} in
      write_file filename kml_doc fs
  end.

(** *** [calculate_angle] *)

Definition calculate_angle (longitude1 latitude1 longitude2 latitude2 : float)
  : result float :=
  let delta_lon := longitude2 - longitude1 in
  let delta_lat := latitude2 - latitude1 in
  let* a := math_atan2 delta_lon delta_lat in
  let angle := math_degrees a in
  mod_ (angle + 360) 360.
End Emit.

(** Two coordinate tuples print the same text. *)
Definition same_vertex (p q : float * float) : bool :=
  same_float (fst p) (fst q) && same_float (snd p) (snd q).

(** ** The NMEA read loop of [read_gps_coordinates] *)

(** [bytes.decode('ascii', errors='replace')]: every byte above 127 becomes
    the replacement character U+FFFD, the only non-ASCII character a decoded
    line can hold; it is represented by the byte 255. *)
Definition replacement : ascii := ascii_of_nat 255.

Definition decode_ascii (bytes : string) : string :=
  string_of_list_ascii
    (map (fun c => if (code c <? 128)%Z then c else replacement)
         (list_ascii_of_string bytes)).

(** What one pass through the loop body does with a line. *)
Inductive line_result : Type :=
| Fix (longitude latitude : float)   (* [callback(longitude, latitude); break] *)
| Skip                               (* next iteration *)
| Escape (e : exn).                  (* an exception leaves the loop *)

(** [parts[i]] once the length test has passed. *)
Definition part (parts : list string) (i : nat) : string := nth i parts EmptyString.

(** Lines 131-142 (and 153-164): the [try] body up to the callback, for the
    latitude at [parts[i]] and the longitude at [parts[i + 2]]. *)
Definition decode_fix (parts : list string) (i : nat) : result (float * float) :=
  let* lat := float_of_string (part parts i) in
  let* lon := float_of_string (part parts (i + 2)) in
  let* lat_deg := int_of_float (lat / 100) in
  let* lon_deg := int_of_float (lon / 100) in
  let* lat_hundreds := float_of_int (lat_deg * 100) in
  let lat_min := lat - lat_hundreds in
  let* lon_hundreds := float_of_int (lon_deg * 100) in
  let lon_min := lon - lon_hundreds in
  let* lat_whole := float_of_int lat_deg in
  let latitude := lat_whole + lat_min / 60 in
  let* lon_whole := float_of_int lon_deg in
  let longitude := lon_whole + lon_min / 60 in
  let latitude := if String.eqb (part parts (i + 1)) "S" then - latitude else latitude in
  let longitude := if String.eqb (part parts (i + 3)) "W" then - longitude else longitude in
  Ok (longitude, latitude).

(** [try: ... except ValueError: print(...)] around [decode_fix]. The
    callback is called inside the [try]; the callbacks of this program
    handle their own errors and raise nothing here. *)
Definition try_fix (parts : list string) (i : nat) : line_result :=
  match decode_fix parts i with
  | Ok (longitude, latitude) => Fix longitude latitude
  | Raise e => if is_ValueError e then Skip else Escape e
  end.

(** Lines 127-172: the body of the loop for a decoded, stripped line. *)
Definition process_line (line : string) : line_result :=
  if startswith line "$GNGGA" || startswith line "$GPGGA" then
    let parts := split "," line in
    if (5 <? length parts)%nat && str_truthy (part parts 2) && str_truthy (part parts 4)
    then try_fix parts 2
    else Skip
  else if startswith line "$GNRMC" || startswith line "$GPRMC" then
    let parts := split "," line in
    if (6 <? length parts)%nat && str_truthy (part parts 3) && str_truthy (part parts 5)
    then try_fix parts 3
    else Skip
  else Skip.

(** What a call of [ser.readline()] gives: the bytes read before the line
    end or before the 5 s read timeout ran out (none on a silent device), or
    an exception of the transport. *)
Inductive read_event : Type :=
| Bytes (b : string)
| ReadError (e : exn).

(** A timed-out read: [readline] returns the empty bytes. *)
Definition timed_out : read_event := Bytes "".

(** The serial device: the exception, if any, of [serial.Serial(...)] or
    [reset_input_buffer()], and what the [k]-th [readline] gives. *)
Record device : Type := {
  open_error : option exn;
  reads : nat -> read_event
}.

(** Where an acquisition stands: still in the loop, or finished with the
    one call of the callback it makes. *)
Inductive outcome : Type :=
| Listening
| FixAcquired (longitude latitude : float)   (* [callback(longitude, latitude)] *)
| Failed (e : exn).                          (* [callback(None, None)] *)

(** [while True] at line 123, for at most [fuel] reads from the [k]-th on. *)
Fixpoint read_loop (fuel : nat) (reads : nat -> read_event) (k : nat) : outcome :=
  match fuel with
  | O => Listening
  | S fuel' =>
      match reads k with
      | ReadError e => Failed e
      | Bytes b =>
          match process_line (strip (decode_ascii b)) with
          | Fix longitude latitude => FixAcquired longitude latitude
          | Skip => read_loop fuel' reads (S k)
          | Escape e => Failed e
          end
      end
  end.

(** [read_from_port], observed after at most [fuel] reads. *)
Definition read_from_port (fuel : nat) (dev : device) : outcome :=
  match open_error dev with
  | Some e => Failed e
  | None => read_loop fuel (reads dev) 0
  end.

(** The arguments of the callback an outcome stands for. *)
Definition callback_args (o : outcome) : option (option float * option float) :=
  match o with
  | Listening => None
  | FixAcquired longitude latitude => Some (Some longitude, Some latitude)
  | Failed _ => Some (None, None)
  end.

(** The formula of the specification for a [ddmm.mmmm] value, with
    [math.floor] where the code has [int]. *)
Definition floor_decode (value : float) : result float :=
  let* degrees := floor_of_float (value / 100) in
  let* hundreds := float_of_int (degrees * 100) in
  let minutes := value - hundreds in
  let* whole := float_of_int degrees in
  Ok (whole + minutes / 60).

(** The same with [int], as [decode_fix] computes each coordinate. *)
Definition int_decode (value : float) : result float :=
  let* degrees := int_of_float (value / 100) in
  let* hundreds := float_of_int (degrees * 100) in
  let minutes := value - hundreds in
  let* whole := float_of_int degrees in
  Ok (whole + minutes / 60).

(** ** [get_next_filename] *)

(** [os.path.join] of [posixpath] for two components. *)
Definition path_join (directory name : string) : string :=
  if startswith name "/" then name
  else if String.eqb directory "" || String.eqb (substring (String.length directory - 1) 1 directory) "/"
  then directory +:+ name
  else directory +:+ "/" +:+ name.

(** [os.path.join(directory, f"{base_name} {counter}.{extension}")] *)
Definition candidate (directory base_name extension : string) (counter : N) : string :=
  path_join directory (base_name +:+ " " +:+ pretty counter +:+ "." +:+ extension).

(** [while True] at line 202, for at most [fuel] candidates. *)
Fixpoint next_filename_loop (fuel : nat) (fs : filesystem)
    (directory base_name extension : string) (counter : N) : option string :=
  match fuel with
  | O => None
  | S fuel' =>
      let filename := candidate directory base_name extension counter in
      if negb (path_exists fs filename) then Some filename
      else next_filename_loop fuel' fs directory base_name extension (counter + 1)
  end.

(** On a finite file system the loop ends within [size fs + 1]
    candidates. *)
Definition get_next_filename (fs : filesystem) (directory base_name extension : string)
  : option string :=
  next_filename_loop (S (size fs)) fs directory base_name extension 1.

(** ** The callback chain of [load_gps] and [load_both_gps_and_generate] *)

(** The [value] of a text field: text typed by the user, or [str(x)] of a
    float stored by a callback. A text is made of ASCII characters, with 255
    for U+FFFD as in a decoded line; the digits and spaces of other scripts,
    which a user can type and [float] also reads, are not represented. *)
Inductive field : Type :=
| Text (s : string)
| Repr (x : float).

(** [lon and lat] on the arguments of a callback ([None] or a float). *)
Definition truthy (v : option float) : bool :=
  match v with
  | None => false
  | Some x => float_truthy x
  end.

Section Callbacks.
(** The controls and files the callbacks below do not touch by
    themselves. *)
Variable Rest : Type.

Record app : Type := {
  longitude1 : field;
  latitude1 : field;
  longitude2 : field;
  latitude2 : field;
  gps_status1 : string;
  gps_status2 : string;
  error_display_1 : string;
  error_display_2 : string;
  (* the dictionary [gps_data] of [load_both_gps_and_generate] *)
  gps_data_point1 : option (float * float);
  gps_data_point2 : option (float * float);
  rest : Rest
}.

(** [update_compass_display(page)] and [generate_kml_file()]: both read
    the controls only, never the arguments of the GPS callback. *)
Variable update_compass_display : app -> result app.
Variable generate_kml_file : app -> result app.

Definition show_error (message : string) (s : app) : app :=
  {| longitude1 := longitude1 s; latitude1 := latitude1 s;
     longitude2 := longitude2 s; latitude2 := latitude2 s;
     gps_status1 := gps_status1 s; gps_status2 := gps_status2 s;
     error_display_1 := message; error_display_2 := error_display_1 s;
     gps_data_point1 := gps_data_point1 s; gps_data_point2 := gps_data_point2 s;
     rest := rest s |}.

Definition store_point1 (lon lat : float) (s : app) : app :=
  {| longitude1 := Repr lon; latitude1 := Repr lat;
     longitude2 := longitude2 s; latitude2 := latitude2 s;
     gps_status1 := "GPS Status Point 1: Connected"; gps_status2 := gps_status2 s;
     error_display_1 := error_display_1 s; error_display_2 := error_display_2 s;
     gps_data_point1 := gps_data_point1 s; gps_data_point2 := gps_data_point2 s;
     rest := rest s |}.

Definition store_point2 (lon lat : float) (s : app) : app :=
  {| longitude1 := longitude1 s; latitude1 := latitude1 s;
     longitude2 := Repr lon; latitude2 := Repr lat;
     gps_status1 := gps_status1 s; gps_status2 := "GPS Status Point 2: Connected";
     error_display_1 := error_display_1 s; error_display_2 := error_display_2 s;
     gps_data_point1 := gps_data_point1 s; gps_data_point2 := gps_data_point2 s;
     rest := rest s |}.

(** [status_label.value = ...] with [status_label] chosen by [point]. *)
Definition set_status (point : Z) (text : string) (s : app) : app :=
  {| longitude1 := longitude1 s; latitude1 := latitude1 s;
     longitude2 := longitude2 s; latitude2 := latitude2 s;
     gps_status1 := if (point =? 1)%Z then text else gps_status1 s;
     gps_status2 := if (point =? 1)%Z then gps_status2 s else text;
     error_display_1 := error_display_1 s; error_display_2 := error_display_2 s;
     gps_data_point1 := gps_data_point1 s; gps_data_point2 := gps_data_point2 s;
     rest := rest s |}.

Definition set_gps_data (key : Z) (v : float * float) (s : app) : app :=
  {| longitude1 := longitude1 s; latitude1 := latitude1 s;
     longitude2 := longitude2 s; latitude2 := latitude2 s;
     gps_status1 := gps_status1 s; gps_status2 := gps_status2 s;
     error_display_1 := error_display_1 s; error_display_2 := error_display_2 s;
     gps_data_point1 := if (key =? 1)%Z then Some v else gps_data_point1 s;
     gps_data_point2 := if (key =? 1)%Z then gps_data_point2 s else Some v;
     rest := rest s |}.

(** [on_both_loaded] *)
Definition on_both_loaded (s : app) : result app :=
  match gps_data_point1 s, gps_data_point2 s with
  | Some _, Some _ =>
      let* s := update_compass_display s in
      generate_kml_file s
  | _, _ => Ok s
  end.

(** The callbacks handed to [load_gps]: the [lambda] of the two
    [Load GPS Point] buttons, and [point1_callback] and [point2_callback]
    of the automatic workflow. *)
Inductive callback : Type :=
| compass_lambda
| point_callback (key : Z).

Definition call (cb : callback) (lon lat : option float) (s : app) : result app :=
  match cb with
  | compass_lambda => update_compass_display s
  | point_callback key =>
      match lon, lat with
      | Some x, Some y =>
          if float_truthy x && float_truthy y
          then on_both_loaded (set_gps_data key (x, y) s)
          else Ok s
      | _, _ => Ok s
      end
  end.

(** [gps_callback] of [load_gps(point, callback)]. *)
Definition gps_callback (point : Z) (cb : callback) (lon lat : option float) (s : app)
  : result app :=
  let s :=
    match lon, lat with
    | Some x, Some y =>
        if float_truthy x && float_truthy y then
          if (point =? 1)%Z then store_point1 x y s else store_point2 x y s
        else
          show_error ("Failed to load GPS data for Point " +:+ pretty point +:+ ".")
            (set_status point ("GPS Status Point " +:+ pretty point +:+ ": Error") s)
    | _, _ =>
        show_error ("Failed to load GPS data for Point " +:+ pretty point +:+ ".")
          (set_status point ("GPS Status Point " +:+ pretty point +:+ ": Error") s)
    end in
  call cb lon lat s.

(** What the thread of [read_from_port] does to the application once the
    acquisition has an outcome. *)
Definition deliver (point : Z) (cb : callback) (o : outcome) (s : app) : result app :=
  match callback_args o with
  | Some (lon, lat) => gps_callback point cb lon lat s
  | None => Ok s
  end.
End Callbacks.

Arguments longitude1 {Rest} _.
Arguments latitude1 {Rest} _.
Arguments longitude2 {Rest} _.
Arguments latitude2 {Rest} _.
Arguments gps_status1 {Rest} _.
Arguments gps_status2 {Rest} _.
Arguments error_display_1 {Rest} _.
Arguments error_display_2 {Rest} _.
Arguments gps_data_point1 {Rest} _.
Arguments gps_data_point2 {Rest} _.
Arguments rest {Rest} _.
Arguments gps_callback {Rest} _ _ point cb lon lat s.
Arguments deliver {Rest} _ _ point cb o s.
Arguments call {Rest} _ _ cb lon lat s.
Arguments on_both_loaded {Rest} _ _ s.

(** ** The dashboard of [main]: controls, recent files and the disk *)

(** [str(e)] of an exception. The texts of operating-system errors are the
    system's own; [OSError] carries a short form of them. *)
Definition exn_message (e : exn) : string :=
  match e with
  | ValueError m | OverflowError m | ZeroDivisionError m
  | OSError m | SerialException m => m
  end.

(** [int(s)] for a string, base 10: the white space of [Py_ISSPACE] around
    the number dropped, an optional sign, digits with single underscores
    between them, at most 4300 digits; [invalid] is the [ValueError] of any
    other text. *)
Definition int_of_string (invalid : exn) (s : string) : result Z :=
  match drop_underscores "000"%char (strip_c_space (list_ascii_of_string s)) with
  | None => Raise invalid
  | Some cs =>
      let '(neg, body) := parse_sign cs in
      let '(v, n, r) := take_digits body 0%Z 0%Z in
      match r with
      | [] =>
          if (n =? 0)%Z then Raise invalid
          else if (4300 <? n)%Z then
            Raise (ValueError
                     ("Exceeds the limit (4300 digits) for integer string conversion: "
                      +:+ "value has " +:+ pretty n
                      +:+ " digits; use sys.set_int_max_str_digits() to increase the limit"))
          else Ok (cond_Zopp neg v)
      | _ :: _ => Raise invalid
      end
  end.

Definition double_quote : ascii := ascii_of_nat 34.
Definition backslash : ascii := ascii_of_nat 92.

Definition hex_digit (n : Z) : ascii :=
  nth (Z.to_nat n) (list_ascii_of_string "0123456789abcdef") "0"%char.

(** [repr] of one character of a string quoted with [quote]. *)
Definition repr_char (quote c : ascii) : list ascii :=
  let n := code c in
  if Ascii.eqb c quote || Ascii.eqb c backslash then [backslash; c]
  else if (n =? 9)%Z then [backslash; "t"%char]
  else if (n =? 10)%Z then [backslash; "n"%char]
  else if (n =? 13)%Z then [backslash; "r"%char]
  else if (n <? 32)%Z || (n =? 127)%Z
  then [backslash; "x"%char; hex_digit (n / 16)%Z; hex_digit (n mod 16)%Z]
  else [c].

(** [repr(s)] for a string: single quotes unless the text holds a single
    quote and no double quote. *)
Definition py_repr (s : string) : string :=
  let cs := list_ascii_of_string s in
  let quote :=
    if existsb (Ascii.eqb "'"%char) cs && negb (existsb (Ascii.eqb double_quote) cs)
    then double_quote else "'"%char in
  string_of_list_ascii (quote :: flat_map (repr_char quote) cs ++ [quote]).

(** The [ValueError] of [int(s)] for a text that is not a number. *)
Definition int_error (s : string) : exn :=
  ValueError ("invalid literal for int() with base 10: " +:+ py_repr s).

(** [int(s)] *)
Definition int (s : string) : result Z := int_of_string (int_error s) s.

(** [list.remove(x)]: drops the first occurrence, [None] when there is
    none ([ValueError]). *)
Fixpoint list_remove (x : string) (l : list string) : option (list string) :=
  match l with
  | [] => None
  | y :: l' => if String.eqb x y then Some l' else option_map (cons y) (list_remove x l')
  end.

(** [bool(v)] for the value of a dropdown: [None] and the empty text are
    false. *)
Definition value_truthy (v : option string) : bool :=
  match v with
  | Some s => str_truthy s
  | None => false
  end.

(** [bool(field.value)] and [float(field.value)] for a text field;
    [float(str(x))] gives [x] back. *)
Definition field_truthy (f : field) : bool :=
  match f with
  | Text s => str_truthy s
  | Repr _ => true
  end.

Definition field_float (f : field) : result float :=
  match f with
  | Text s => float_of_string s
  | Repr x => Ok x
  end.

(** The text of [compass_angle_display]. *)
Inductive compass_text : Type :=
| NotAvailable              (* "N/A" *)
| ErrorText                 (* "Error" *)
| Degrees (angle : float).  (* f"{angle:.2f}" followed by the degree sign *)

(** [compass_angle_display] and [compass_point]. *)
Record compass : Type := {
  compass_angle_display : compass_text;
  compass_point_left : option float;
  compass_point_top : option float;
  compass_point_visible : bool
}.

(** The controls the user sets. *)
Record settings : Type := {
  line_length : field;
  radius_dropdown : option string;
  line_color_dropdown : string;
  line_width_slider : float;
  port_combo1 : option string;
  port_combo2 : option string;
  baudrate_combo1 : option string;
  baudrate_combo2 : option string
}.

(** What [main] holds besides the fields of [app]: [snackbar] is the last
    notification shown (message, success) if any, [opened] the addresses
    handed to [webbrowser.open], oldest first, [files] the disk. *)
Record controls : Type := {
  inputs : settings;
  selected_folder : string;
  compass_graphic : compass;
  recent_files : list string;
  snackbar : option (string * bool);
  opened : list string;
  files : filesystem
}.

Abbreviation dashboard := (app controls).

Definition with_rest (f : controls -> controls) (s : dashboard) : dashboard :=
  {| longitude1 := longitude1 s; latitude1 := latitude1 s;
     longitude2 := longitude2 s; latitude2 := latitude2 s;
     gps_status1 := gps_status1 s; gps_status2 := gps_status2 s;
     error_display_1 := error_display_1 s; error_display_2 := error_display_2 s;
     gps_data_point1 := gps_data_point1 s; gps_data_point2 := gps_data_point2 s;
     rest := f (rest s) |}.

Definition set_selected_folder (v : string) (c : controls) : controls :=
  {| inputs := inputs c; selected_folder := v; compass_graphic := compass_graphic c;
     recent_files := recent_files c; snackbar := snackbar c; opened := opened c;
     files := files c |}.

Definition set_compass (v : compass) (c : controls) : controls :=
  {| inputs := inputs c; selected_folder := selected_folder c; compass_graphic := v;
     recent_files := recent_files c; snackbar := snackbar c; opened := opened c;
     files := files c |}.

Definition set_recent_files (v : list string) (c : controls) : controls :=
  {| inputs := inputs c; selected_folder := selected_folder c;
     compass_graphic := compass_graphic c;
     recent_files := v; snackbar := snackbar c; opened := opened c;
     files := files c |}.

Definition set_snackbar (v : option (string * bool)) (c : controls) : controls :=
  {| inputs := inputs c; selected_folder := selected_folder c;
     compass_graphic := compass_graphic c;
     recent_files := recent_files c; snackbar := v; opened := opened c;
     files := files c |}.

Definition set_opened (v : list string) (c : controls) : controls :=
  {| inputs := inputs c; selected_folder := selected_folder c;
     compass_graphic := compass_graphic c;
     recent_files := recent_files c; snackbar := snackbar c; opened := v;
     files := files c |}.

Definition set_files (v : filesystem) (c : controls) : controls :=
  {| inputs := inputs c; selected_folder := selected_folder c;
     compass_graphic := compass_graphic c;
     recent_files := recent_files c; snackbar := snackbar c; opened := opened c;
     files := v |}.

(** [show_snackbar(message, success)] *)
Definition show_snackbar (message : string) (success : bool) (s : dashboard) : dashboard :=
  with_rest (set_snackbar (Some (message, success))) s.

(** [add_to_recent_files(file)] *)
Definition add_to_recent_files (file : string) (s : dashboard) : dashboard :=
  if bool_decide (file ∈ recent_files (rest s)) then s
  else with_rest (set_recent_files (recent_files (rest s) ++ [file])) s.

(** [webbrowser.open(url)] *)
Definition webbrowser_open (url : string) (s : dashboard) : dashboard :=
  with_rest (set_opened (opened (rest s) ++ [url])) s.

(** [select_folder_result(e)], for [e.path]. *)
Definition select_folder_result (path : option string) (s : dashboard) : dashboard :=
  match path with
  | Some p =>
      if str_truthy p then with_rest (set_selected_folder p) s
      else with_rest (set_selected_folder "No folder selected") s
  | None => with_rest (set_selected_folder "No folder selected") s
  end.

(** Reset of the dictionary [gps_data] at line 360. *)
Definition clear_gps_data (s : dashboard) : dashboard :=
  {| longitude1 := longitude1 s; latitude1 := latitude1 s;
     longitude2 := longitude2 s; latitude2 := latitude2 s;
     gps_status1 := gps_status1 s; gps_status2 := gps_status2 s;
     error_display_1 := error_display_1 s; error_display_2 := error_display_2 s;
     gps_data_point1 := None; gps_data_point2 := None;
     rest := rest s |}.

Section Dashboard.
(** Whether the operating system lets a file be written at a path, and lets
    a file be removed. *)
Variable can_open : string -> bool.
Variable can_remove : string -> bool.
Context {D : Disk}.
Context {L : Libm}.

(** [os.remove(path)] *)
Definition os_remove (path : string) (fs : filesystem) : result unit * filesystem :=
  match fs !! path with
  | Some (File _) | Some Partial =>
      if can_remove path then (Ok tt, delete path fs)
      else (Raise (OSError "Permission denied"), fs)
  | Some Directory => (Raise (OSError "Is a directory"), fs)
  | None => (Raise (OSError "No such file or directory"), fs)
  end.

(** [delete_file(file)] *)
Definition delete_file (file : string) (s : dashboard) : dashboard :=
  match os_remove file (files (rest s)) with
  | (Raise e, _) => show_error _ ("Error deleting file: " +:+ exn_message e) s
  | (Ok _, fs) =>
      let s := with_rest (set_files fs) s in
      match list_remove file (recent_files (rest s)) with
      | None => show_error _ "Error deleting file: list.remove(x): x not in list" s
      | Some l =>
          show_snackbar ("File deleted: " +:+ file) true (with_rest (set_recent_files l) s)
      end
  end.

(** The two [except] clauses of [generate_kml_file] and
    [generate_circle_file]: [invalid] is the text for a [ValueError],
    [prefix] what precedes the message of any other exception. *)
Definition report (invalid prefix : string) (e : exn) (s : dashboard) : dashboard :=
  if is_ValueError e then show_error _ invalid s
  else show_error _ (prefix +:+ exn_message e) s.

(** Lines 432-441 and 471-480: what follows a successful emission. *)
Definition announce (text filename : string) (s : dashboard) : dashboard :=
  webbrowser_open ("file://" +:+ filename)
    (show_snackbar (text +:+ filename) true (add_to_recent_files filename s)).

(** [generate_kml_file()]. [get_next_filename] always returns on a finite
    disk, so its [None] is never met. *)
Definition generate_kml_file (s : dashboard) : dashboard :=
  let c := rest s in
  if negb (field_truthy (longitude1 s)) || negb (field_truthy (latitude1 s))
     || negb (field_truthy (longitude2 s)) || negb (field_truthy (latitude2 s))
     || negb (field_truthy (line_length (inputs c)))
  then show_error _ "Please fill in all fields to generate the KML file." s
  else if String.eqb (selected_folder c) "No folder selected"
  then show_error _ "Please select a folder to save the KML file." s
  else
    let on_error :=
      report "Please enter valid numeric values for coordinates and length."
             "Error generating KML file: " in
    let request :=
      let* lon1 := field_float (longitude1 s) in
      let* lat1 := field_float (latitude1 s) in
      let* lon2 := field_float (longitude2 s) in
      let* lat2 := field_float (latitude2 s) in
      let* length := field_float (line_length (inputs c)) in
      let* line_width := int_of_float (line_width_slider (inputs c)) in
      Ok (lon1, lat1, lon2, lat2, length, line_width) in
    match request with
    | Raise e => on_error e s
    | Ok (lon1, lat1, lon2, lat2, length, line_width) =>
        match get_next_filename (files c) (selected_folder c) "direccional" "kml" with
        | None => s
        | Some filename =>
            match generate_kml can_open lon1 lat1 lon2 lat2 length filename
                    (line_color_dropdown (inputs c)) line_width (files c) with
            | (Raise e, fs) => on_error e (with_rest (set_files fs) s)
            | (Ok _, fs) =>
                announce "KML file generated: " filename (with_rest (set_files fs) s)
            end
        end
    end.

(** [generate_circle_file()] *)
Definition generate_circle_file (s : dashboard) : dashboard :=
  let c := rest s in
  if negb (field_truthy (longitude1 s)) || negb (field_truthy (latitude1 s))
     || negb (value_truthy (radius_dropdown (inputs c)))
  then show_error _ "Please fill in all fields to generate the circle KML file." s
  else if String.eqb (selected_folder c) "No folder selected"
  then show_error _ "Please select a folder to save the KML file." s
  else
    let on_error :=
      report "Please enter valid numeric values for coordinates and radius."
             "Error generating circle KML file: " in
    let request :=
      let* center_lon := field_float (longitude1 s) in
      let* center_lat := field_float (latitude1 s) in
      let* radius_km := float_of_string (default "" (radius_dropdown (inputs c))) in
      let* line_width := int_of_float (line_width_slider (inputs c)) in
      Ok (center_lon, center_lat, radius_km, line_width) in
    match request with
    | Raise e => on_error e s
    | Ok (center_lon, center_lat, radius_km, line_width) =>
        match get_next_filename (files c) (selected_folder c) "circle" "kml" with
        | None => s
        | Some filename =>
            match generate_circle_kml can_open center_lon center_lat radius_km filename
                    (line_color_dropdown (inputs c)) line_width (files c) with
            | (Raise e, fs) => on_error e (with_rest (set_files fs) s)
            | (Ok _, fs) =>
                announce "Circle KML file generated: " filename
                  (with_rest (set_files fs) s)
            end
        end
    end.

(** [update_compass_display(page)]. A [ValueError] is caught after at most
    the angle text was set, and replaces it; any other exception comes
    from [calculate_angle], before anything was set. *)
Definition update_compass_display (s : dashboard) : result dashboard :=
  let g := compass_graphic (rest s) in
  if field_truthy (longitude1 s) && field_truthy (latitude1 s)
     && field_truthy (longitude2 s) && field_truthy (latitude2 s)
  then
    let attempt :=
      let* lon1 := field_float (longitude1 s) in
      let* lat1 := field_float (latitude1 s) in
      let* lon2 := field_float (longitude2 s) in
      let* lat2 := field_float (latitude2 s) in
      let* angle := calculate_angle lon1 lat1 lon2 lat2 in
      let* sn := math_sin (math_radians angle) in
      let point_x := 150 + 110 * sn in
      let* cs := math_cos (math_radians angle) in
      let point_y := 150 - 110 * cs in
      Ok {| compass_angle_display := Degrees angle;
            compass_point_left := Some (point_x - 7.5);
            compass_point_top := Some (point_y - 7.5);
            compass_point_visible := true |} in
    match attempt with
    | Ok g' => Ok (with_rest (set_compass g') s)
    | Raise e =>
        if is_ValueError e then
          Ok (with_rest (set_compass
                {| compass_angle_display := ErrorText;
                   compass_point_left := compass_point_left g;
                   compass_point_top := compass_point_top g;
                   compass_point_visible := false |}) s)
        else Raise e
    end
  else
    Ok (with_rest (set_compass
          {| compass_angle_display := NotAvailable;
             compass_point_left := compass_point_left g;
             compass_point_top := compass_point_top g;
             compass_point_visible := false |}) s).

(** The callbacks of [load_gps] on the dashboard: [generate_kml_file]
    lets no exception out. *)
Definition run_callback (cb : callback) (lon lat : option float) (s : dashboard)
  : result dashboard :=
  call update_compass_display (fun s => Ok (generate_kml_file s)) cb lon lat s.

(** What the thread started by [load_gps(point, callback)] does with the
    outcome of its acquisition. *)
Definition thread_result (point : Z) (cb : callback) (o : outcome) (s : dashboard)
  : result dashboard :=
  deliver update_compass_display (fun s => Ok (generate_kml_file s)) point cb o s.

(** [load_gps(point, callback)] up to the start of the reading thread; the
    boolean tells whether the thread was started. *)
Definition load_gps (point : Z) (cb : callback) (s : dashboard)
  : result (dashboard * bool) :=
  let c := inputs (rest s) in
  let port := if (point =? 1)%Z then port_combo1 c else port_combo2 c in
  let baudrate := if (point =? 1)%Z then baudrate_combo1 c else baudrate_combo2 c in
  if negb (value_truthy port) || negb (value_truthy baudrate) then
    let s :=
      show_error _ ("Select a valid port and baudrate for Point " +:+ pretty point +:+ ".")
        s in
    let* s := run_callback cb None None s in
    Ok (s, false)
  else
    let s := set_status _ point ("GPS Status Point " +:+ pretty point +:+ ": Connecting...")
               s in
    match int (default "" baudrate) with
    | Ok _ => Ok (s, true)
    | Raise e =>
        let s :=
          show_error _ ("Error initializing GPS for Point " +:+ pretty point +:+ ": "
                        +:+ exn_message e) s in
        Ok (set_status _ point ("GPS Status Point " +:+ pretty point +:+ ": Error") s, false)
    end.

(** [load_both_gps_and_generate()] up to the start of the two threads. *)
Definition load_both_gps_and_generate (s : dashboard)
  : result (dashboard * bool * bool) :=
  let s := clear_gps_data s in
  let* r1 := load_gps 1 (point_callback 1) s in
  let* r2 := load_gps 2 (point_callback 2) (fst r1) in
  Ok (fst r2, snd r1, snd r2).
End Dashboard.

(** The dashboard as [main] builds it (lines 269-311, 383-405, 501, 542
    and 559-569) over a disk [fs], no port being selected yet. *)
Definition startup (fs : filesystem) : dashboard :=
  {| longitude1 := Text ""; latitude1 := Text "";
     longitude2 := Text ""; latitude2 := Text "";
     gps_status1 := "GPS Status Point 1: Disconnected";
     gps_status2 := "GPS Status Point 2: Disconnected";
     error_display_1 := ""; error_display_2 := "";
     gps_data_point1 := None; gps_data_point2 := None;
     rest :=
       {| inputs :=
            {| line_length := Text "50000";
               radius_dropdown := Some "5";
               line_color_dropdown := "ff0000ff";
               line_width_slider := 2;
               port_combo1 := None; port_combo2 := None;
               baudrate_combo1 := Some "9600"; baudrate_combo2 := Some "9600" |};
          selected_folder := "No folder selected";
          compass_graphic :=
            {| compass_angle_display := NotAvailable;
               compass_point_left := None; compass_point_top := None;
               compass_point_visible := false |};
          recent_files := [];
          snackbar := None;
          opened := [];
          files := fs |} |}.

(** ** Vocabulary of the properties *)

(** The index of the latitude field for a recognized sentence: 2 for
    [$GNGGA]/[$GPGGA], 3 for [$GNRMC]/[$GPRMC]. *)
Definition field_index (line : string) : option nat :=
  if startswith line "$GNGGA" || startswith line "$GPGGA" then Some 2%nat
  else if startswith line "$GNRMC" || startswith line "$GPRMC" then Some 3%nat
  else None.

(** A recognized sentence is malformed when it fails the field-count test,
    has an empty coordinate field, or has a coordinate field that [float]
    rejects. A field that [float] reads as NaN or as an infinity is not
    among these. *)
Definition malformed (line : string) (i : nat) : Prop :=
  let parts := split "," line in
  (length parts <= i + 3)%nat \/
  part parts i = "" \/ part parts (i + 2) = "" \/
  float_of_string (part parts i) = Raise parse_error \/
  float_of_string (part parts (i + 2)) = Raise parse_error.

(** The exception a computation ends with, if any. *)
Definition raised {A : Type} (r : result A) : option exn :=
  match r with
  | Ok _ => None
  | Raise e => Some e
  end.

(** The document a successful emission leaves at [path]. *)
Definition emitted (r : result unit * filesystem) (path : string) : option document :=
  match r with
  | (Ok _, fs) => match fs !! path with Some (File d) => Some d | _ => None end
  | (Raise _, _) => None
  end.

(** What the loop body makes of a read. *)
Definition classify_read (ev : read_event) : line_result :=
  match ev with
  | Bytes b => process_line (strip (decode_ascii b))
  | ReadError e => Escape e
  end.

Definition is_skip (r : line_result) : bool :=
  match r with Skip => true | _ => false end.

Definition is_fix (r : line_result) : bool :=
  match r with Fix _ _ => true | _ => false end.

(** No read ever carries a recognized and valid sentence. *)
Definition no_valid_sentence (dev : device) : Prop :=
  forall k, is_fix (classify_read (reads dev k)) = false.

(** The acquisition reaches a terminal state. *)
Definition terminates (dev : device) : Prop :=
  exists fuel, read_from_port fuel dev <> Listening.

(** A device that opens and then stays silent: every read times out. *)
Definition silent_device : device :=
  {| open_error := None; reads := fun _ => timed_out |}.

(** The application as [main] leaves it, while point 1 is being read. *)
Definition initial_app : app unit :=
  {| longitude1 := Text ""; latitude1 := Text "";
     longitude2 := Text ""; latitude2 := Text "";
     gps_status1 := "GPS Status Point 1: Connecting...";
     gps_status2 := "GPS Status Point 2: Disconnected";
     error_display_1 := ""; error_display_2 := "";
     gps_data_point1 := None; gps_data_point2 := None;
     rest := tt |}.

(** The integer [m * 2^e] of a float is at most [2^k]. *)
Definition le_pow2 (k : Z) (x : spec_float) : Prop :=
  match x with
  | S754_zero _ => True
  | S754_finite _ m e => (e <= k)%Z /\ (Zpos m <= 2 ^ (k - e))%Z
  | _ => False
  end.

(** The outcome a read that is not skipped ends the acquisition with. *)
Definition outcome_of (r : line_result) : outcome :=
  match r with
  | Fix longitude latitude => FixAcquired longitude latitude
  | Skip => Listening
  | Escape e => Failed e
  end.

(** A device whose first read times out, whose second read is the GGA
    sentence of the specification, and which is unplugged afterwards. *)
Definition gga_after_silence : device :=
  {| open_error := None;
     reads := fun k =>
       match k with
       | O => timed_out
       | 1%nat => Bytes "$GPGGA,123519,4807.038,N,01131.000,E,1,08,0.9,545.4,M,46.9,M,,*47"
       | _ => ReadError (SerialException "device disconnected")
       end |}.

(** The [OverflowError] of [int(x)] for an infinite [x]. *)
Definition infinity_to_integer : exn :=
  OverflowError "cannot convert float infinity to integer".

(** A device whose first line is a GGA sentence with the latitude field
    [1e999], and whose every later line is the GGA sentence of the
    specification. *)
Definition overflow_before_fix : device :=
  {| open_error := None;
     reads := fun k =>
       match k with
       | O => Bytes "$GPGGA,123519,1e999,N,01131.000,E,1,08,0.9,545.4,M,46.9,M,,*47"
       | _ => Bytes "$GPGGA,123519,4807.038,N,01131.000,E,1,08,0.9,545.4,M,46.9,M,,*47"
       end |}.

(** A text made of ASCII whitespace only. *)
Definition whitespace (s : string) : bool := forallb is_space (list_ascii_of_string s).

(** Carriage return and line feed. *)
Definition crlf : string := String (ascii_of_nat 13) (String (ascii_of_nat 10) "").

Definition is_zero_sf (x : spec_float) : bool :=
  match x with S754_zero _ => true | _ => false end.

(** The fix an outcome contributes to the automatic workflow: a
    [FixAcquired] whose coordinates are both non-zero. *)
Definition usable (o : outcome) : option (float * float) :=
  match o with
  | FixAcquired longitude latitude =>
      if float_truthy longitude && float_truthy latitude
      then Some (longitude, latitude) else None
  | _ => None
  end.

(** Whether [load_gps] finds a port and a baud rate it can start a thread
    with. *)
Definition connectable (port baudrate : option string) : bool :=
  value_truthy port && value_truthy baudrate
  && match int (default "" baudrate) with Ok _ => true | Raise _ => false end.

Definition is_degrees (t : compass_text) : bool :=
  match t with Degrees _ => true | _ => false end.

(** The two states agree on the text fields and on everything [main]
    holds besides the status labels, the error displays and [gps_data]. *)
Definition same_inputs (s s' : dashboard) : Prop :=
  rest s' = rest s /\
  longitude1 s' = longitude1 s /\ latitude1 s' = latitude1 s /\
  longitude2 s' = longitude2 s /\ latitude2 s' = latitude2 s.

(** What [generate_kml_file] and [generate_circle_file] leave behind: an
    error message and nothing else, or one new file, announced, or, when
    the write fails after the file was created, an error message and an
    unfinished file. *)
Definition error_only (s s' : dashboard) : Prop :=
  exists message, s' = show_error _ message s.

Definition one_new_file (text : string) (s s' : dashboard) (filename : string)
    (d : document) : Prop :=
  files (rest s) !! filename = None /\
  s' = announce text filename
         (with_rest (set_files (<[filename := File d]> (files (rest s)))) s).

Definition unfinished_file (s s' : dashboard) (filename : string) : Prop :=
  files (rest s) !! filename = None /\
  exists message,
    s' = show_error _ message
           (with_rest (set_files (<[filename := Partial]> (files (rest s)))) s).

(** The user types the four coordinates. *)
Definition enter_points (lon1 lat1 lon2 lat2 : string) (s : dashboard) : dashboard :=
  {| longitude1 := Text lon1; latitude1 := Text lat1;
     longitude2 := Text lon2; latitude2 := Text lat2;
     gps_status1 := gps_status1 s; gps_status2 := gps_status2 s;
     error_display_1 := error_display_1 s; error_display_2 := error_display_2 s;
     gps_data_point1 := gps_data_point1 s; gps_data_point2 := gps_data_point2 s;
     rest := rest s |}.

(** The dashboard on an empty disk once the folder [/out] is selected and
    the points (11.5, 48) and (12.5, 49) are typed in. *)
Definition two_points : dashboard :=
  select_folder_result (Some "/out") (enter_points "11.5" "48" "12.5" "49" (startup ∅)).

(** The same with point 2 on point 1. *)
Definition one_point : dashboard :=
  select_folder_result (Some "/out") (enter_points "11.5" "48" "11.5" "48" (startup ∅)).

(** The dashboard of [two_points] later on: the disk holds the file
    [/out/circle 1.kml], and the recent list names it after
    [/out/direccional 1.kml], a file that was generated and has since been
    removed from the disk by other means. *)
Definition two_listed : dashboard :=
  with_rest
    (fun c =>
       set_recent_files ["/out/direccional 1.kml"; "/out/circle 1.kml"]
         (set_files
            {[ "/out/circle 1.kml" :=
                 File {| doc_color := "ff0000ff"; doc_width := 2;
                         doc_coordinates := [] |} ]} c))
    two_points.

(** The dashboard on an empty disk once the folder [/out] is selected,
    the coordinate fields being still empty. *)
Definition folder_selected : dashboard :=
  select_folder_result (Some "/out") (startup ∅).

(** * Properties *)

(** ** The reference C library *)

Lemma pi_288_machin : RefLibm.pi_288 = RefLibm.machin_pi 288.
Proof. vm_compute. reflexivity. Qed.

(** Known values: [sin(math.pi)], [sin(2 * math.pi)], [cos(math.pi / 2)],
    and the roundings of the decimal expansions of [sin(1e22)], [cos(1e22)],
    [sin(1)] and [arctan(1/2)]. *)
Example ref_libm_values :
  RefLibm.sin pi = 0x1.1a62633145c07p-53%float /\
  RefLibm.sin (2 * pi) = (-0x1.1a62633145c07p-52)%float /\
  RefLibm.cos (pi / 2) = 0x1.1a62633145c07p-54%float /\
  Ok (RefLibm.sin 0x1.0f0cf064dd592p+73) = float_of_string "-0.8522008497671888017727" /\
  Ok (RefLibm.cos 0x1.0f0cf064dd592p+73) = float_of_string "0.5232147853951389454975" /\
  Ok (RefLibm.sin 1) = float_of_string "0.8414709848078965066525" /\
  Ok (RefLibm.atan2 1 2) = float_of_string "0.4636476090008061162142" /\
  RefLibm.atan2 1 1 = (pi / 4)%float.
Proof. repeat split; vm_compute; reflexivity. Qed.

(** ** Binary64 facts *)

Lemma Prim2SF_zero : Prim2SF 0 = S754_zero false.
Proof. reflexivity. Qed.

Lemma Prim2SF_nan_inv x : Prim2SF x = S754_nan -> PrimFloat.is_nan x = true.
Proof.
  unfold Prim2SF. destruct (PrimFloat.is_nan x); [reflexivity|].
  destruct (is_zero x); [discriminate|].
  destruct (PrimFloat.is_infinity x); [discriminate|].
  destruct (Z.frexp x) as [r ex].
  destruct (shr_fexp _ _ _ _ _) as [sh e'].
  destruct (shr_m sh); discriminate.
Qed.

Lemma Prim2SF_infinity_inv x s :
  Prim2SF x = S754_infinity s -> PrimFloat.is_infinity x = true.
Proof.
  unfold Prim2SF. destruct (PrimFloat.is_nan x); [discriminate|].
  destruct (is_zero x); [discriminate|].
  destruct (PrimFloat.is_infinity x); [reflexivity|].
  destruct (Z.frexp x) as [r ex].
  destruct (shr_fexp _ _ _ _ _) as [sh e'].
  destruct (shr_m sh); discriminate.
Qed.

(** A finite float minus itself is [+0.0]. *)
Lemma sub_diag_finite x : is_finite x = true -> (x - x)%float = 0%float.
Proof.
  intros Hfin. apply Prim2SF_inj. rewrite sub_spec, Prim2SF_zero.
  unfold is_finite in Hfin. apply andb_true_iff in Hfin as [Hnan Hinf].
  destruct (Prim2SF x) as [s| s| |s m e] eqn:Hx.
  - destruct s; reflexivity.
  - apply Prim2SF_infinity_inv in Hx. rewrite Hx in Hinf. discriminate.
  - apply Prim2SF_nan_inv in Hx. rewrite Hx in Hnan. discriminate.
  - unfold SF64sub, SFsub. rewrite Z.sub_diag. reflexivity.
Qed.

(** ** Line extension: [generate_kml] *)

Section LineProperties.
Context {L : Libm}.

Lemma extend_line_same_point lon lat length :
  is_finite lon = true -> is_finite lat = true ->
  extend_line lon lat lon lat length = Raise same_points.
Proof.
  intros Hlon Hlat. unfold extend_line.
  rewrite (sub_diag_finite lon Hlon), (sub_diag_finite lat Hlat).
  reflexivity.
Qed.

(** The error of coincident points is raised exactly when the computed
    magnitude compares equal to zero. *)
Lemma extend_line_same_points_iff lon1 lat1 lon2 lat2 length :
  extend_line lon1 lat1 lon2 lat2 length = Raise same_points <->
  exists sq_lon sq_lat magnitude,
    pow2 (lon2 - lon1) = Ok sq_lon /\ pow2 (lat2 - lat1) = Ok sq_lat /\
    math_sqrt (sq_lon + sq_lat) = Ok magnitude /\ (magnitude =? 0)%float = true.
Proof.
  unfold extend_line, same_points. split.
  - destruct (pow2 (lon2 - lon1)) as [sq_lon|e1] eqn:H1; cbn [bind].
    2:{ intros He. injection He as ->. unfold pow2 in H1.
        destruct (_ && _) in H1; discriminate. }
    destruct (pow2 (lat2 - lat1)) as [sq_lat|e2] eqn:H2; cbn [bind].
    2:{ intros He. injection He as ->. unfold pow2 in H2.
        destruct (_ && _) in H2; discriminate. }
    destruct (math_sqrt (sq_lon + sq_lat)) as [m|e3] eqn:H3; cbn [bind].
    2:{ intros He. injection He as ->. unfold math_sqrt, math_1 in H3.
        destruct (_ && _) in H3; [discriminate|].
        destruct (_ && _) in H3; discriminate. }
    unfold truediv.
    destruct (m =? 0)%float eqn:Hm.
    + intros _. exists sq_lon, sq_lat, m. auto.
    + cbn [bind]. unfold math_cos, math_1.
      destruct (_ && _); [cbn [bind]; discriminate|].
      destruct (_ && _); [cbn [bind]; discriminate|]. cbn [bind].
      match goal with |- context [PrimFloat.eqb ?a ?b] => destruct (PrimFloat.eqb a b) end;
        cbn [bind]; discriminate.
  - intros (sq_lon & sq_lat & m & -> & -> & H3 & Hm). cbn [bind].
    rewrite H3. cbn [bind]. rewrite Hm. reflexivity.
Qed.
End LineProperties.

(** ** The read loop *)

Lemma process_line_field_index line :
  process_line line =
  match field_index line with
  | Some i =>
      let parts := split "," line in
      if (i + 3 <? length parts)%nat && str_truthy (part parts i)
         && str_truthy (part parts (i + 2))
      then try_fix parts i else Skip
  | None => Skip
  end.
Proof.
  unfold process_line, field_index.
  destruct (startswith line "$GNGGA" || startswith line "$GPGGA"); [reflexivity|].
  destruct (startswith line "$GNRMC" || startswith line "$GPRMC"); reflexivity.
Qed.

Lemma str_truthy_false s : str_truthy s = false <-> s = "".
Proof. destruct s; cbn; split; congruence. Qed.

Lemma float_of_string_raise s e : float_of_string s = Raise e -> e = parse_error.
Proof.
  unfold float_of_string.
  destruct (drop_underscores _ _) as [cs|]; [|congruence].
  destruct (parse_sign cs) as [neg body].
  destruct (_ || _); [discriminate|].
  destruct (is_keyword body "nan"); [discriminate|].
  destruct (parse_decimal body) as [[d k]|]; [discriminate|congruence].
Qed.

(** [float] and [int] drop the white space of [Py_ISSPACE] only: a tab or a
    space around a number is dropped, while a separator (byte 28) before
    it, which [str.strip] would drop, makes the text invalid. *)
Example float_keeps_separators :
  float_of_string (String (ascii_of_nat 9) "11.5 ") = Ok 11.5%float /\
  float_of_string (String (ascii_of_nat 28) "11.5") = Raise parse_error /\
  field_float (Text (String (ascii_of_nat 28) "11.5")) = Raise parse_error /\
  strip (String (ascii_of_nat 28) "11.5") = "11.5" /\
  int " 9600 " = Ok 9600%Z /\
  int (String (ascii_of_nat 28) "9600")
  = Raise (int_error (String (ascii_of_nat 28) "9600")).
Proof. repeat split; vm_compute; reflexivity. Qed.

Lemma float_of_string_nonempty s x : float_of_string s = Ok x -> str_truthy s = true.
Proof. destruct s; [vm_compute; discriminate | reflexivity]. Qed.

Lemma malformed_skip line i :
  field_index line = Some i -> malformed line i -> process_line line = Skip.
Proof.
  intros Hi Hbad. rewrite process_line_field_index, Hi. cbn zeta.
  unfold malformed in Hbad. cbn zeta in Hbad.
  destruct (i + 3 <? length (split "," line))%nat eqn:Hlen; cbn [andb]; [|reflexivity].
  apply Nat.ltb_lt in Hlen.
  destruct (str_truthy (part (split "," line) i)) eqn:H1; cbn [andb]; [|reflexivity].
  destruct (str_truthy (part (split "," line) (i + 2))) eqn:H2; cbn [andb]; [|reflexivity].
  destruct Hbad as [Hbad|[Hbad|[Hbad|[Hbad|Hbad]]]].
  - lia.
  - apply str_truthy_false in Hbad. congruence.
  - apply str_truthy_false in Hbad. congruence.
  - unfold try_fix, decode_fix. rewrite Hbad. reflexivity.
  - unfold try_fix, decode_fix. rewrite Hbad.
    destruct (float_of_string (part (split "," line) i)) as [lat|e] eqn:Hlat; [reflexivity|].
    apply float_of_string_raise in Hlat as ->. reflexivity.
Qed.

Lemma read_loop_skip fuel reads k :
  is_skip (classify_read (reads k)) = true ->
  read_loop (S fuel) reads k = read_loop fuel reads (S k).
Proof.
  cbn [read_loop]. unfold classify_read.
  destruct (reads k) as [b|e]; [|discriminate].
  destruct (process_line _); (discriminate || reflexivity).
Qed.

(** The loop is still running after [fuel] reads exactly when each of them
    was skipped. *)
Lemma read_loop_listening fuel reads k :
  read_loop fuel reads k = Listening <->
  forall j, (j < fuel)%nat -> is_skip (classify_read (reads (k + j)%nat)) = true.
Proof.
  revert k. induction fuel as [|fuel IH]; intros k.
  - split; [intros _ j Hj; lia | reflexivity].
  - cbn [read_loop]. split.
    + intros H j Hj. unfold classify_read.
      destruct j as [|j].
      * rewrite Nat.add_0_r.
        destruct (reads k) as [b|e]; [|discriminate].
        destruct (process_line _); (discriminate || reflexivity).
      * replace (k + S j)%nat with (S k + j)%nat by lia.
        destruct (reads k) as [b|e] eqn:Hk; [|discriminate].
        destruct (process_line (strip (decode_ascii b))); try discriminate.
        apply (proj1 (IH (S k)) H). lia.
    + intros H.
      pose proof (H 0%nat ltac:(lia)) as H0. rewrite Nat.add_0_r in H0.
      unfold classify_read in H0.
      destruct (reads k) as [b|e]; [|discriminate].
      destruct (process_line _); try discriminate.
      apply (proj2 (IH (S k))). intros j Hj.
      replace (S k + j)%nat with (k + S j)%nat by lia. apply H. lia.
Qed.

Lemma timed_out_skipped : classify_read timed_out = Skip.
Proof. reflexivity. Qed.

(** C1 (as amended): the loop has no exit on a timeout. After any number of
    reads the acquisition is still listening exactly when the port opened
    and every read so far was skipped; a read that times out returns the
    empty line, which is skipped like any unrecognized line. *)
Theorem acquire_listens_while_skipping (dev : device) (fuel : nat) :
  classify_read timed_out = Skip /\
  (read_from_port fuel dev = Listening <->
   open_error dev = None /\
   forall k, (k < fuel)%nat -> is_skip (classify_read (reads dev k)) = true).
Proof.
  split; [reflexivity|].
  unfold read_from_port. destruct (open_error dev) as [e|].
  - split; [discriminate | intros [? _]; discriminate].
  - rewrite read_loop_listening. split.
    + intros H. split; [reflexivity|]. intros k Hk. apply (H k Hk).
    + intros [_ H] j Hj. apply H. exact Hj.
Qed.

(** C1 (counterexample): on a silent device no valid sentence ever arrives,
    yet the acquisition never reaches a terminal state. *)
Lemma silent_device_never_terminates :
  no_valid_sentence silent_device /\ ~ terminates silent_device.
Proof.
  split.
  - intros k. reflexivity.
  - intros [fuel H]. apply H. unfold read_from_port. cbn [open_error silent_device reads].
    apply read_loop_listening. intros j _. reflexivity.
Qed.

(** A recognized sentence that fails the field-count test, has an empty
    coordinate field or a coordinate field that [float] rejects reports no
    fix and neither ends nor fails the acquisition: the loop goes on to the
    next read. *)
Theorem malformed_sentence_skipped (reads : nat -> read_event) (k fuel : nat)
    (b : string) (i : nat) :
  reads k = Bytes b ->
  field_index (strip (decode_ascii b)) = Some i ->
  malformed (strip (decode_ascii b)) i ->
  process_line (strip (decode_ascii b)) = Skip /\
  read_loop (S fuel) reads k = read_loop fuel reads (S k).
Proof.
  intros Hk Hi Hbad.
  pose proof (malformed_skip _ _ Hi Hbad) as Hskip.
  split; [exact Hskip|].
  apply read_loop_skip. unfold classify_read. rewrite Hk, Hskip. reflexivity.
Qed.

(** The all-empty sentence of the specification is skipped. *)
Lemma malformed_sentence_skipped_witness :
  process_line (strip (decode_ascii "$GPGGA,,,,,,,,,,,,,,*00")) = Skip /\
  read_loop 1 (fun _ => Bytes "$GPGGA,,,,,,,,,,,,,,*00") 0
  = read_loop 0 (fun _ => Bytes "$GPGGA,,,,,,,,,,,,,,*00") 1.
Proof.
  apply (malformed_sentence_skipped (fun _ => Bytes "$GPGGA,,,,,,,,,,,,,,*00") 0 0
           "$GPGGA,,,,,,,,,,,,,,*00" 2).
  - reflexivity.
  - reflexivity.
  - right. left. reflexivity.
Defined.

(** C7 (failing input): a GGA sentence whose latitude field is [1e999] is
    not skipped. [float] reads the field as infinity, [int] raises
    [OverflowError] on it, which [except ValueError] does not catch: the
    exception leaves the loop and the acquisition fails, although the next
    line is the valid sentence of the specification. The same sentence
    with [abc] or [nan] for the latitude is skipped: [float] and [int]
    raise [ValueError] there. *)
Example infinite_field_ends_acquisition :
  float_of_string "1e999" = Ok infinity /\
  int_of_float (infinity / 100) = Raise infinity_to_integer /\
  process_line "$GPGGA,123519,1e999,N,01131.000,E,1,08,0.9,545.4,M,46.9,M,,*47"
  = Escape infinity_to_integer /\
  read_from_port 2 overflow_before_fix = Failed infinity_to_integer /\
  process_line "$GPGGA,123519,abc,N,01131.000,E,1,08,0.9,545.4,M,46.9,M,,*47" = Skip /\
  process_line "$GPGGA,123519,nan,N,01131.000,E,1,08,0.9,545.4,M,46.9,M,,*47" = Skip.
Proof. repeat split; vm_compute; reflexivity. Qed.

(** ** [get_next_filename] *)

Lemma string_app_cons c (s t : string) : String c s +:+ t = String c (s +:+ t).
Proof. reflexivity. Qed.

Lemma string_app_length (s t : string) :
  String.length (s +:+ t) = (String.length s + String.length t)%nat.
Proof.
  induction s as [|c s IH]; [reflexivity|].
  rewrite string_app_cons. simpl. now rewrite IH.
Qed.

Lemma string_app_inv_tail (s1 s2 t : string) : s1 +:+ t = s2 +:+ t -> s1 = s2.
Proof.
  revert s2. induction s1 as [|c s1 IH]; intros [|d s2] H.
  - reflexivity.
  - apply (f_equal String.length) in H.
    rewrite !string_app_length in H. cbn in H. lia.
  - apply (f_equal String.length) in H.
    rewrite !string_app_length in H. cbn in H. lia.
  - rewrite !string_app_cons in H. injection H as -> H. f_equal. now apply IH.
Qed.

Lemma string_app_assoc (s t u : string) : (s +:+ t) +:+ u = s +:+ t +:+ u.
Proof.
  induction s as [|c s IH]; [reflexivity|].
  rewrite !string_app_cons. now rewrite IH.
Qed.

Lemma startswith_slash c s :
  startswith (String c s) "/" = if Ascii.ascii_dec "/" c then true else false.
Proof.
  unfold startswith. cbn [String.prefix].
  destruct (Ascii.ascii_dec "/" c); [destruct s|]; reflexivity.
Qed.

(** Every candidate is the same text around the number. *)
Lemma candidate_shape directory base_name extension :
  exists pre, forall n,
    candidate directory base_name extension n = pre +:+ pretty n +:+ "." +:+ extension.
Proof.
  assert (Hs : exists b, forall n : N,
             startswith (base_name +:+ " " +:+ pretty n +:+ "." +:+ extension) "/" = b).
  { destruct base_name as [|c base].
    - exists false. intros n. reflexivity.
    - eexists. intros n. rewrite string_app_cons. apply startswith_slash. }
  destruct Hs as [b Hb].
  exists (if b then base_name +:+ " "
          else if String.eqb directory ""
                  || String.eqb (substring (String.length directory - 1) 1 directory) "/"
               then directory +:+ base_name +:+ " "
               else directory +:+ "/" +:+ base_name +:+ " ").
  intros n. unfold candidate, path_join. rewrite Hb.
  destruct b; [|destruct (_ || _)]; rewrite ?string_app_assoc; reflexivity.
Qed.

Lemma candidate_inj directory base_name extension n m :
  candidate directory base_name extension n = candidate directory base_name extension m ->
  n = m.
Proof.
  destruct (candidate_shape directory base_name extension) as [pre Hpre].
  rewrite !Hpre. intros H.
  apply (inj (String.app pre)) in H.
  apply string_app_inv_tail in H.
  now apply (inj pretty) in H.
Qed.

Section FileNamer.
Variable fs : filesystem.
Variables directory base_name extension : string.

Let cand := candidate directory base_name extension.
Let taken (n : N) : Prop := path_exists fs (cand n) = true.
Let free (n : N) : Prop := path_exists fs (cand n) = false.

(** The loop returns the first free candidate from [counter] on, when
    there is one within [fuel] steps. *)
Lemma next_filename_loop_least fuel counter :
  (exists m, (counter <= m < counter + N.of_nat fuel)%N /\ free m) ->
  exists n, (counter <= n)%N /\
    next_filename_loop fuel fs directory base_name extension counter = Some (cand n) /\
    free n /\ forall m, (counter <= m < n)%N -> taken m.
Proof.
  revert counter. induction fuel as [|fuel IH]; intros counter [m [Hm Hfree]].
  - lia.
  - cbn [next_filename_loop]. fold (cand counter).
    destruct (path_exists fs (cand counter)) eqn:Hc; cbn [negb].
    + destruct (IH (counter + 1)%N) as (n & Hn & Hloop & Hfn & Hbelow).
      { exists m. split; [|exact Hfree].
        assert (m <> counter) by (intros ->; unfold free in Hfree; congruence).
        lia. }
      exists n. split; [lia|]. split; [exact Hloop|]. split; [exact Hfn|].
      intros k Hk. destruct (N.eq_dec k counter) as [->|Hne]; [exact Hc|].
      apply Hbelow. lia.
    + exists counter. split; [lia|]. split; [reflexivity|]. split; [exact Hc|].
      intros k Hk. lia.
Qed.

Lemma taken_or_free_below (k : nat) :
  (exists m, (1 <= m <= N.of_nat k)%N /\ free m) \/
  (forall m, (1 <= m <= N.of_nat k)%N -> taken m).
Proof.
  induction k as [|k [IH|IH]].
  - right. intros m Hm. lia.
  - left. destruct IH as [m [Hm Hf]]. exists m. split; [lia|exact Hf].
  - destruct (path_exists fs (cand (N.of_nat (S k)))) eqn:Hk.
    + right. intros m Hm.
      destruct (N.eq_dec m (N.of_nat (S k))) as [->|Hne]; [exact Hk|].
      apply IH. lia.
    + left. exists (N.of_nat (S k)). split; [lia|exact Hk].
Qed.

(** A finite file system cannot hold [size fs + 1] different candidates. *)
Lemma free_candidate_exists :
  exists m, (1 <= m <= N.of_nat (S (size fs)))%N /\ free m.
Proof.
  destruct (taken_or_free_below (S (size fs))) as [H|Hall]; [exact H|].
  exfalso.
  set (l := (fun i => cand (N.of_nat i)) <$> seq 1 (S (size fs))).
  assert (Hnodup : NoDup l).
  { apply NoDup_fmap_2; [|apply NoDup_seq].
    intros i j Hij. apply candidate_inj in Hij. lia. }
  assert (Hsub : list_to_set (C := gset string) l ⊆ dom fs).
  { intros p Hp. apply elem_of_list_to_set in Hp.
    apply list_elem_of_fmap in Hp as (i & -> & Hi).
    apply elem_of_seq in Hi.
    apply elem_of_dom.
    specialize (Hall (N.of_nat i) ltac:(lia)).
    unfold taken, path_exists in Hall.
    now apply bool_decide_eq_true in Hall. }
  apply subseteq_size in Hsub.
  rewrite size_list_to_set in Hsub by exact Hnodup.
  rewrite size_dom in Hsub.
  unfold l in Hsub. rewrite length_fmap, length_seq in Hsub. lia.
Qed.

End FileNamer.

(** The example of the specification: with [line 1.kml] and [line 2.kml]
    present, the next path is [line 3.kml]. *)
Example get_next_filename_line_3 (d1 d2 : document) :
  get_next_filename
    (<["/out/line 1.kml" := File d1]> (<["/out/line 2.kml" := File d2]> ∅))
    "/out" "line" "kml"
  = Some "/out/line 3.kml".
Proof. vm_compute. reflexivity. Qed.

(** ** Coincident points *)

Section Coincident.
Context {L : Libm}.
Variable can_open : string -> bool.
Context {D : Disk}.

(** C6 (as amended): the error of coincident points is raised exactly
    when the magnitude [sqrt(dlon**2 + dlat**2)] computed in binary64 is
    zero, and it is so whenever the two points are equal. *)
Theorem extend_line_error_iff_zero_magnitude (lon1 lat1 lon2 lat2 length : float) :
  (extend_line lon1 lat1 lon2 lat2 length = Raise same_points <->
   exists sq_lon sq_lat magnitude,
     pow2 (lon2 - lon1) = Ok sq_lon /\ pow2 (lat2 - lat1) = Ok sq_lat /\
     math_sqrt (sq_lon + sq_lat) = Ok magnitude /\ (magnitude =? 0)%float = true) /\
  (is_finite lon1 = true /\ is_finite lat1 = true /\ lon2 = lon1 /\ lat2 = lat1 ->
   extend_line lon1 lat1 lon2 lat2 length = Raise same_points).
Proof.
  split.
  - apply extend_line_same_points_iff.
  - intros (Hlon & Hlat & -> & ->). now apply extend_line_same_point.
Qed.

(** C10: when the two points coincide, [generate_kml] raises before the
    output file is opened: the file system is left as it was. *)
Theorem generate_kml_same_point_atomic (lon lat length : float)
    (filename line_color : string) (line_width : Z) (fs : filesystem) :
  is_finite lon = true -> is_finite lat = true ->
  generate_kml can_open lon lat lon lat length filename line_color line_width fs
  = (Raise same_points, fs).
Proof.
  intros Hlon Hlat. unfold generate_kml.
  now rewrite extend_line_same_point.
Qed.

(** Whatever the points, a failure of the geometry leaves the file system
    untouched. *)
Lemma generate_kml_error_keeps_files lon1 lat1 lon2 lat2 length
    filename line_color line_width fs e :
  extend_line lon1 lat1 lon2 lat2 length = Raise e ->
  generate_kml can_open lon1 lat1 lon2 lat2 length filename line_color line_width fs
  = (Raise e, fs).
Proof. intros H. unfold generate_kml. now rewrite H. Qed.
End Coincident.

(** The coincident points (11.5, 48.25), with an output path that does not
    exist yet. *)
Lemma generate_kml_same_point_atomic_witness :
  generate_kml (L := ref_libm) (D := full_disk) (fun _ => true) 11.5 48.25 11.5 48.25 50000
    "/out/direccional 1.kml" "ff0000ff" 2 ∅
  = (Raise same_points, ∅).
Proof.
  apply (generate_kml_same_point_atomic (L := ref_libm) (D := full_disk) (fun _ => true) 11.5 48.25 50000
           "/out/direccional 1.kml" "ff0000ff" 2 ∅); reflexivity.
Defined.

(** C6 (counterexample): the points (10, 0) and (10, 1e-170) are distinct,
    yet the squares of their differences underflow to zero and the error of
    coincident points is raised. *)
Lemma distinct_points_rejected :
  same_vertex (10, 0) (10, 0x1.3529ba7d19eafp-565) = false /\
  extend_line (L := ref_libm) 10 0 10 0x1.3529ba7d19eafp-565 50000 = Raise same_points.
Proof. split; vm_compute; reflexivity. Qed.

(** ** The circle polygon: [generate_circle_kml] *)

Lemma map_result_length {A B : Type} (f : A -> result B) l l' :
  map_result f l = Ok l' -> length l' = length l.
Proof.
  revert l'. induction l as [|a l IH]; intros l' H; cbn in H.
  - now injection H as <-.
  - destruct (f a) as [b|e]; cbn in H; [|discriminate].
    destruct (map_result f l) as [bs|e]; cbn in H; [|discriminate].
    injection H as <-. cbn. f_equal. now apply IH.
Qed.

Lemma map_result_nth {A B : Type} (f : A -> result B) l l' i a b :
  map_result f l = Ok l' -> (i < length l)%nat -> f (nth i l a) = Ok (nth i l' b).
Proof.
  revert l' i. induction l as [|x l IH]; intros l' i H Hi; cbn in H, Hi; [lia|].
  destruct (f x) as [y|e] eqn:Hx; cbn in H; [|discriminate].
  destruct (map_result f l) as [bs|e]; cbn in H; [|discriminate].
  injection H as <-. destruct i as [|i]; cbn; [exact Hx|].
  apply IH; [reflexivity | lia].
Qed.

Lemma map_result_raised {A B : Type} (f g : A -> result B) l :
  (forall a, raised (f a) = raised (g a)) ->
  raised (map_result f l) = raised (map_result g l).
Proof.
  intros Hfg. induction l as [|a l IH]; cbn; [reflexivity|].
  specialize (Hfg a).
  destruct (f a) as [b|e], (g a) as [b'|e']; cbn in *; try congruence.
  destruct (map_result f l), (map_result g l); cbn in *; congruence.
Qed.

Lemma math_1_ok f x v : math_1 f x = Ok v -> v = f x.
Proof.
  unfold math_1. destruct (_ && _); [discriminate|].
  destruct (_ && _); [discriminate|]. now intros [= <-].
Qed.

Lemma circle_angle_first : circle_angle 0 = Ok 0%float.
Proof. vm_compute. reflexivity. Qed.

Lemma circle_angle_last : circle_angle 100 = Ok (2 * pi)%float.
Proof. vm_compute. reflexivity. Qed.

Section Circle.
Context {L : Libm}.
Variable can_open : string -> bool.
Context {D : Disk}.

(** Whether a vertex can be computed does not depend on the radius. *)
Lemma circle_point_raised lon lat r r' i :
  raised (circle_point lon lat r i) = raised (circle_point lon lat r' i).
Proof.
  unfold circle_point.
  destruct (circle_angle i) as [angle|e]; cbn [bind]; [|reflexivity].
  destruct (math_cos (pi * lat / 180)) as [c|e]; cbn [bind]; [|reflexivity].
  unfold truediv.
  match goal with |- context [PrimFloat.eqb ?a ?b] => destruct (PrimFloat.eqb a b) end;
    cbn [bind]; [reflexivity|].
  destruct (math_sin angle) as [s|e]; cbn [bind]; [|reflexivity].
  destruct (math_cos angle) as [c'|e]; cbn [bind]; reflexivity.
Qed.

Lemma write_file_raised filename d d' fs :
  raised (fst (write_file can_open filename d fs))
  = raised (fst (write_file can_open filename d' fs)).
Proof.
  unfold write_file. destruct (fs !! filename) as [[?| |]|]; try reflexivity;
    destruct (can_open filename); try reflexivity;
    destruct (fails_after_open filename); reflexivity.
Qed.

(** C3 (as amended): the radius is not validated. A request with any
    radius, zero or negative included, ends as the same request with any
    other radius does, and when it succeeds a document of 101 vertices
    has been written. *)
Theorem circle_radius_unchecked (lon lat radius_km radius_km' : float)
    (filename line_color : string) (line_width : Z) (fs : filesystem) :
  raised (fst (generate_circle_kml can_open lon lat radius_km
                 filename line_color line_width fs))
  = raised (fst (generate_circle_kml can_open lon lat radius_km'
                   filename line_color line_width fs)) /\
  (raised (fst (generate_circle_kml can_open lon lat radius_km
                  filename line_color line_width fs)) = None <->
   exists pts,
     circle_points lon lat radius_km = Ok pts /\ length pts = 101%nat /\
     generate_circle_kml can_open lon lat radius_km filename line_color line_width fs
     = (Ok tt, <[filename := File {| doc_color := line_color; doc_width := line_width;
                                      doc_coordinates := pts |}]> fs)).
Proof.
  split.
  - unfold generate_circle_kml.
    pose proof (map_result_raised (circle_point lon lat radius_km)
                  (circle_point lon lat radius_km') (seq 0 (num_points + 1))
                  (fun i => circle_point_raised lon lat radius_km radius_km' i)) as H.
    fold (circle_points lon lat radius_km) in H.
    fold (circle_points lon lat radius_km') in H.
    destruct (circle_points lon lat radius_km) as [pts|e],
             (circle_points lon lat radius_km') as [pts'|e']; cbn in H; try congruence.
    apply write_file_raised.
  - unfold generate_circle_kml.
    destruct (circle_points lon lat radius_km) as [pts|e] eqn:Hpts.
    + unfold write_file. split.
      * intros H. exists pts. split; [reflexivity|].
        split; [apply map_result_length in Hpts; exact Hpts|].
        destruct (fs !! filename) as [[?| |]|]; cbn in H; try discriminate;
          destruct (can_open filename); cbn in H; try reflexivity;
          destruct (fails_after_open filename); discriminate.
      * intros (pts' & [= <-] & _ & ->). reflexivity.
    + split; [discriminate|]. intros (pts' & H & _). discriminate.
Qed.

(** C2 (as amended): a completed computation yields exactly 101 vertices,
    the [i]-th from the angle [2 * pi * i / 100] rounded to binary64; the
    first is computed at angle 0 and the last at the float [2 * pi], from
    the sine and cosine the C library returns there. *)
Theorem circle_points_vertices (lon lat radius_km : float) (pts : list (float * float)) :
  circle_points lon lat radius_km = Ok pts ->
  length pts = 101%nat /\
  (forall i, (i <= 100)%nat ->
     circle_point lon lat radius_km i = Ok (nth i pts (0, 0)%float)) /\
  let delta_lat := (radius_km / 6371 * (180 / pi))%float in
  let delta_lon := (radius_km / (6371 * c_cos (pi * lat / 180)) * (180 / pi))%float in
  nth 0 pts (0, 0)%float
  = (lon + delta_lon * c_cos 0, lat + delta_lat * c_sin 0)%float /\
  nth 100 pts (0, 0)%float
  = (lon + delta_lon * c_cos (2 * pi), lat + delta_lat * c_sin (2 * pi))%float.
Proof.
  intros Hpts.
  assert (Hlen : length pts = 101%nat) by (apply map_result_length in Hpts; exact Hpts).
  assert (Hnth : forall i, (i <= 100)%nat ->
            circle_point lon lat radius_km i = Ok (nth i pts (0, 0)%float)).
  { intros i Hi.
    pose proof (map_result_nth _ _ _ i 0%nat (0, 0)%float Hpts) as H.
    rewrite length_seq, seq_nth in H by (cbn; lia). apply H. cbn. lia. }
  split; [exact Hlen|]. split; [exact Hnth|]. cbn zeta.
  assert (Hform : forall i angle, circle_angle i = Ok angle -> (i <= 100)%nat ->
            nth i pts (0, 0)%float
            = (lon + radius_km / (6371 * c_cos (pi * lat / 180)) * (180 / pi) * c_cos angle,
               lat + radius_km / 6371 * (180 / pi) * c_sin angle)%float).
  { intros i angle Hangle Hi. specialize (Hnth i Hi).
    unfold circle_point in Hnth. rewrite Hangle in Hnth. cbn [bind] in Hnth.
    destruct (math_cos (pi * lat / 180)) as [c|e] eqn:Hc; cbn [bind] in Hnth; [|discriminate].
    apply math_1_ok in Hc. subst c.
    destruct (truediv radius_km _) as [q|e] eqn:Hq; cbn [bind] in Hnth; [|discriminate].
    unfold truediv in Hq.
    match type of Hq with context [PrimFloat.eqb ?a ?b] =>
      destruct (PrimFloat.eqb a b) end; [discriminate|].
    injection Hq as <-.
    destruct (math_sin angle) as [s|e] eqn:Hs; cbn [bind] in Hnth; [|discriminate].
    apply math_1_ok in Hs. subst s.
    destruct (math_cos angle) as [c'|e] eqn:Hc'; cbn [bind] in Hnth; [|discriminate].
    apply math_1_ok in Hc'. subst c'.
    now injection Hnth as <-. }
  split.
  - apply (Hform 0%nat 0%float circle_angle_first). lia.
  - apply (Hform 100%nat _ circle_angle_last). lia.
Qed.
End Circle.

(** C2 (counterexample): around the centre (0, 0) with radius 5 km the
    last vertex differs from the first: its latitude is
    [delta_lat * sin(2 * pi)], about -1.1e-17, instead of 0. *)
Lemma circle_not_closed_at_equator :
  match circle_point (L := ref_libm) 0 0 5 0, circle_point (L := ref_libm) 0 0 5 100 with
  | Ok first, Ok last =>
      same_float (snd first) 0 && (snd last <? 0)%float && negb (same_vertex first last)
  | _, _ => false
  end = true.
Proof. vm_compute. reflexivity. Qed.

(** For a centre in Munich the polygon is computed as well. *)
Lemma circle_points_vertices_witness :
  exists pts, circle_points (L := ref_libm) 0x1.7p+3 0x1.81p+5 5 = Ok pts /\
    length pts = 101%nat.
Proof.
  destruct (circle_points (L := ref_libm) 0x1.7p+3 0x1.81p+5 5) as [pts|e] eqn:Hpts.
  - exists pts. split; [reflexivity|].
    exact (proj1 (circle_points_vertices 0x1.7p+3 0x1.81p+5 5 pts Hpts)).
  - exfalso. revert Hpts. vm_compute. discriminate.
Defined.

(** C3 (counterexample): a request with the radius -5 km is served: the
    document is written, with its 101 vertices. *)
Lemma negative_radius_accepted :
  (-5 <=? 0)%float = true /\
  option_map (fun d => length (doc_coordinates d))
    (emitted (generate_circle_kml (L := ref_libm) (D := full_disk) (fun _ => true) 0x1.7p+3 0x1.81p+5 (-5)
                "/out/circle 1.kml" "ff0000ff" 2 ∅) "/out/circle 1.kml")
  = Some 101%nat.
Proof. split; vm_compute; reflexivity. Qed.

(** ** Decoding of the coordinates *)

Lemma Prim2SF_100 : Prim2SF 100 = S754_finite false 7036874417766400 (-46).
Proof. reflexivity. Qed.

(** On a value that is not negative, [int] and [math.floor] agree after the
    division by 100. *)
Lemma int_floor_hundredth (v : float) :
  (0 <=? v)%float = true -> int_of_float (v / 100) = floor_of_float (v / 100).
Proof.
  intros Hv. rewrite leb_spec, Prim2SF_zero in Hv.
  unfold int_of_float, floor_of_float. rewrite div_spec, Prim2SF_100.
  destruct (Prim2SF v) as [s|s| |s m e]; try reflexivity.
  destruct s; [discriminate Hv|].
  unfold SF64div, SFdiv.
  destruct (SFdiv_core_binary _ _ _ _ _ _) as [[mz ez] lz].
  unfold binary_round_aux.
  destruct (shr_fexp _ _ _ _ _) as [mrs' e'].
  destruct (shr_fexp _ _ _ _ _) as [mrs'' e''].
  destruct (shr_m mrs''); try reflexivity.
  destruct (_ <=? _)%Z; reflexivity.
Qed.

Lemma int_decode_floor (v : float) :
  (0 <=? v)%float = true -> int_decode v = floor_decode v.
Proof.
  intros Hv. unfold int_decode, floor_decode. now rewrite int_floor_hundredth.
Qed.

(** For two fields that are numbers, [decode_fix] computes each coordinate
    as [int_decode] does and applies the hemisphere signs. *)
Lemma decode_fix_int_decode (parts : list string) (i : nat) (lat lon la lo : float) :
  float_of_string (part parts i) = Ok lat ->
  float_of_string (part parts (i + 2)) = Ok lon ->
  int_decode lat = Ok la -> int_decode lon = Ok lo ->
  decode_fix parts i
  = Ok ((if String.eqb (part parts (i + 3)) "W" then - lo else lo)%float,
        (if String.eqb (part parts (i + 1)) "S" then - la else la)%float).
Proof.
  intros Hlat Hlon Hla Hlo. unfold decode_fix, int_decode in *.
  rewrite Hlat, Hlon. cbn [bind].
  destruct (int_of_float (lat / 100)) as [lat_deg|e]; cbn [bind] in *; [|discriminate].
  destruct (int_of_float (lon / 100)) as [lon_deg|e]; cbn [bind] in *; [|discriminate].
  destruct (float_of_int (lat_deg * 100)) as [lat_h|e]; cbn [bind] in *; [|discriminate].
  destruct (float_of_int (lon_deg * 100)) as [lon_h|e]; cbn [bind] in *; [|discriminate].
  destruct (float_of_int lat_deg) as [lat_w|e]; cbn [bind] in *; [|discriminate].
  destruct (float_of_int lon_deg) as [lon_w|e]; cbn [bind] in *; [|discriminate].
  injection Hla as <-. injection Hlo as <-. reflexivity.
Qed.

(** C4: the fix of a valid sentence. For a recognized GGA or RMC sentence
    that passes the field-count and non-empty checks and whose coordinate
    fields read as [ddmm.mmmm] values, numbers that are not negative, each
    decoded coordinate is [floor(value / 100) + (value - floor(value / 100)
    * 100) / 60] at the value of its field, and the fix reported carries the
    latitude negated exactly when the latitude hemisphere field is [S] and
    the longitude negated exactly when the longitude hemisphere field is
    [W]. *)
Theorem decode_fix_formula (line : string) (i : nat) (lat lon latitude longitude : float) :
  field_index line = Some i ->
  (i + 3 < length (split "," line))%nat ->
  float_of_string (part (split "," line) i) = Ok lat ->
  float_of_string (part (split "," line) (i + 2)) = Ok lon ->
  (0 <=? lat)%float = true -> (0 <=? lon)%float = true ->
  floor_decode lat = Ok latitude ->
  floor_decode lon = Ok longitude ->
  process_line line
  = Fix (if String.eqb (part (split "," line) (i + 3)) "W" then - longitude else longitude)%float
        (if String.eqb (part (split "," line) (i + 1)) "S" then - latitude else latitude)%float.
Proof.
  intros Hi Hlen Hlat Hlon Hlat0 Hlon0 Hla Hlo.
  rewrite process_line_field_index, Hi. cbn zeta.
  apply Nat.ltb_lt in Hlen. rewrite Hlen.
  rewrite (float_of_string_nonempty _ _ Hlat), (float_of_string_nonempty _ _ Hlon).
  cbn [andb]. unfold try_fix.
  rewrite <- (int_decode_floor _ Hlat0) in Hla.
  rewrite <- (int_decode_floor _ Hlon0) in Hlo.
  rewrite (decode_fix_int_decode _ _ _ _ _ _ Hlat Hlon Hla Hlo). reflexivity.
Qed.

(** The example sentence of the specification. Its latitude field reads
    as the float nearest to 4807.038 and decodes to
    [48 + (4807.038 - 4800) / 60], which is within one unit in the last
    place, [2^-47], of the float [48 + 7.038 / 60]; its longitude field
    decodes to [11 + 31 / 60]; both are positive. *)
Lemma decode_fix_formula_witness :
  process_line "$GPGGA,123519,4807.038,N,01131.000,E,1,08,0.9,545.4,M,46.9,M,,*47"
  = Fix (11 + 31 / 60) (48 + (0x1.2c709ba5e353fp+12 - 4800) / 60) /\
  float_of_string "4807.038" = Ok 0x1.2c709ba5e353fp+12%float /\
  float_of_string "7.038" = Ok 0x1.c26e978d4fdf4p+2%float /\
  (abs (48 + (0x1.2c709ba5e353fp+12 - 4800) / 60 - (48 + 0x1.c26e978d4fdf4p+2 / 60))
   <=? 0x1p-47)%float = true /\
  (0 <? 48 + (0x1.2c709ba5e353fp+12 - 4800) / 60)%float = true /\
  (0 <? 11 + 31 / 60)%float = true.
Proof.
  split; [|repeat split; vm_compute; reflexivity].
  apply (decode_fix_formula
           "$GPGGA,123519,4807.038,N,01131.000,E,1,08,0.9,545.4,M,46.9,M,,*47" 2
           0x1.2c709ba5e353fp+12%float 1131%float
           (48 + (0x1.2c709ba5e353fp+12 - 4800) / 60)%float (11 + 31 / 60)%float).
  - reflexivity.
  - vm_compute. lia.
  - vm_compute. reflexivity.
  - vm_compute. reflexivity.
  - vm_compute. reflexivity.
  - vm_compute. reflexivity.
  - vm_compute. reflexivity.
  - vm_compute. reflexivity.
Defined.

(** [int] and [math.floor] part only on a negative value, which the
    [ddmm.mmmm] format never carries: for the field [-4807.038] the code
    takes [int(-48.07038)], -48, where [floor] gives -49. *)
Example negative_field_truncated :
  process_line "$GPGGA,123519,-4807.038,N,01131.000,E,1,08,0.9,545.4,M,46.9,M,,*47"
  = Fix (11 + (1131 - 1100) / 60) (-48 + (-0x1.2c709ba5e353fp+12 + 4800) / 60) /\
  floor_decode (-0x1.2c709ba5e353fp+12) = Ok (-49 + (-0x1.2c709ba5e353fp+12 + 4900) / 60)%float /\
  same_float (-48 + (-0x1.2c709ba5e353fp+12 + 4800) / 60)
             (-49 + (-0x1.2c709ba5e353fp+12 + 4900) / 60) = false.
Proof. repeat split; vm_compute; reflexivity. Qed.

(** ** A fix on the equator or on the prime meridian *)

Section ZeroCoordinate.
Variable Rest : Type.
Variable update_compass_display generate_kml_file : app Rest -> result (app Rest).

Lemma zero_not_truthy (lon lat : float) :
  (lon =? 0)%float || (lat =? 0)%float = true ->
  float_truthy lon && float_truthy lat = false.
Proof.
  unfold float_truthy. destruct (lon =? 0)%float, (lat =? 0)%float; cbn; congruence.
Qed.

(** C5: a decoded fix with longitude or latitude exactly zero goes through
    [gps_callback] and the callback behind it exactly as a failed
    acquisition does: with [point1_callback] or [point2_callback] the
    coordinates and the pending pair are left as they were and the status
    of the point reads [Error]. *)
Theorem zero_coordinate_fix_is_failure (point : Z) (cb : callback)
    (lon lat : float) (s : app Rest) :
  (lon =? 0)%float || (lat =? 0)%float = true ->
  gps_callback update_compass_display generate_kml_file point cb (Some lon) (Some lat) s
  = gps_callback update_compass_display generate_kml_file point cb None None s /\
  forall key, cb = point_callback key ->
    exists s',
      gps_callback update_compass_display generate_kml_file point cb (Some lon) (Some lat) s
      = Ok s' /\
      longitude1 s' = longitude1 s /\ latitude1 s' = latitude1 s /\
      longitude2 s' = longitude2 s /\ latitude2 s' = latitude2 s /\
      gps_data_point1 s' = gps_data_point1 s /\ gps_data_point2 s' = gps_data_point2 s /\
      (if (point =? 1)%Z then gps_status1 s' else gps_status2 s')
      = "GPS Status Point " +:+ pretty point +:+ ": Error" /\
      error_display_1 s' = "Failed to load GPS data for Point " +:+ pretty point +:+ ".".
Proof.
  intros Hzero. apply zero_not_truthy in Hzero.
  unfold gps_callback, call. rewrite Hzero. split.
  - destruct cb; reflexivity.
  - intros key ->. eexists. split; [reflexivity|].
    cbn. destruct (point =? 1)%Z; repeat split; reflexivity.
Qed.
End ZeroCoordinate.

(** A receiver on the equator: the sentence decodes to latitude 0.0, and
    the fix is delivered as the failure of an I/O error is. *)
Lemma zero_coordinate_fix_is_failure_witness :
  read_from_port 1
    {| open_error := None;
       reads := fun _ => Bytes "$GPGGA,123519,0000.000,N,01131.000,E,1,08,0.9,545.4,M,46.9,M,,*47" |}
  = FixAcquired (11 + (1131 - 1100) / 60) 0 /\
  deliver Ok Ok 1 (point_callback 1) (FixAcquired (11 + (1131 - 1100) / 60) 0) initial_app
  = deliver Ok Ok 1 (point_callback 1) (Failed (SerialException "device disconnected")) initial_app.
Proof.
  split; [vm_compute; reflexivity|].
  exact (proj1 (zero_coordinate_fix_is_failure unit Ok Ok 1 (point_callback 1)
                  (11 + (1131 - 1100) / 60) 0 initial_app eq_refl)).
Defined.

(** ** Binary64: classification, digits and rounding *)

Local Open Scope Z_scope.

Lemma SFcompare_refl_finite s m e :
  SFcompare (S754_finite s m e) (S754_finite s m e) = Some Eq.
Proof.
  cbn. rewrite Z.compare_refl, Pos.compare_cont_refl. now destruct s.
Qed.

Lemma is_nan_spec x :
  PrimFloat.is_nan x = match Prim2SF x with S754_nan => true | _ => false end.
Proof.
  unfold PrimFloat.is_nan. rewrite FloatAxioms.eqb_spec. unfold SFeqb.
  destruct (Prim2SF x) as [s|s| |s m e]; try (destruct s; reflexivity); [reflexivity|].
  now rewrite SFcompare_refl_finite.
Qed.

Lemma is_infinity_spec x :
  PrimFloat.is_infinity x = match Prim2SF x with S754_infinity _ => true | _ => false end.
Proof.
  unfold PrimFloat.is_infinity. rewrite FloatAxioms.eqb_spec, abs_spec.
  change (Prim2SF infinity) with (S754_infinity false).
  destruct (Prim2SF x) as [s|s| |s m e]; reflexivity.
Qed.

Lemma is_finite_spec x :
  is_finite x = match Prim2SF x with S754_zero _ | S754_finite _ _ _ => true | _ => false end.
Proof.
  unfold is_finite. rewrite is_nan_spec, is_infinity_spec.
  destruct (Prim2SF x); reflexivity.
Qed.

Lemma digits2_pos_size m : digits2_pos m = Pos.size m.
Proof. induction m; cbn; congruence. Qed.

Lemma digits2_pos_lt m : Zpos m < 2 ^ Zpos (digits2_pos m).
Proof.
  rewrite digits2_pos_size.
  pose proof (Pos.size_gt m) as H.
  apply Pos2Z.pos_lt_pos in H. rewrite Pos2Z.inj_pow in H. exact H.
Qed.

Lemma digits2_pos_le m : 2 ^ (Zpos (digits2_pos m) - 1) <= Zpos m.
Proof.
  rewrite digits2_pos_size.
  pose proof (Pos.size_le m) as H.
  apply Pos2Z.pos_le_pos in H. rewrite Pos2Z.inj_pow in H.
  replace (Zpos (Pos.size m)) with (Z.succ (Zpos (Pos.size m) - 1)) in H by lia.
  rewrite Z.pow_succ_r in H by lia. lia.
Qed.

(** A positive integer below [2^n] has at most [n] digits. *)
Lemma digits2_pos_bound m n : Zpos m < 2 ^ n -> Zpos (digits2_pos m) <= n.
Proof.
  intros H. destruct (Z.le_gt_cases (Zpos (digits2_pos m)) n) as [?|Hgt]; [assumption|].
  pose proof (digits2_pos_le m) as Hle.
  assert (2 ^ n <= 2 ^ (Zpos (digits2_pos m) - 1)).
  { destruct (Z.le_gt_cases 0 n).
    - apply Z.pow_le_mono_r; lia.
    - rewrite (Z.pow_neg_r 2 n) by lia. apply Z.pow_nonneg. lia. }
  lia.
Qed.

(** What validity says of a finite binary64 number. *)
Lemma valid_finite s m e :
  valid_binary (S754_finite s m e) = true ->
  Zpos m < 2 ^ 53 /\ -1074 <= e <= 971 /\
  Z.max (Zpos (digits2_pos m) + e - 53) (-1074) = e.
Proof.
  unfold SpecFloat.valid_binary, bounded, canonical_mantissa, fexp, SpecFloat.emin.
  change prec with 53. change emax with 1024.
  intros H. apply andb_true_iff in H as [H1 H2].
  apply Z.eqb_eq in H1. apply Z.leb_le in H2.
  split; [|split; [lia|exact H1]].
  pose proof (digits2_pos_lt m) as Hlt.
  assert (Zpos (digits2_pos m) <= 53) by lia.
  assert (2 ^ Zpos (digits2_pos m) <= 2 ^ 53) by (apply Z.pow_le_mono_r; lia).
  lia.
Qed.

Lemma shr_1_m mrs : 0 <= shr_m mrs -> shr_m (shr_1 mrs) = Z.div2 (shr_m mrs).
Proof.
  destruct mrs as [m r s]. cbn [shr_m]. intros Hm.
  destruct m as [|p|p]; [reflexivity| |lia].
  destruct p; reflexivity.
Qed.

Lemma shr_m_iter p mrs :
  0 <= shr_m mrs -> shr_m (SpecFloat.iter_pos shr_1 p mrs) = Z.shiftr (shr_m mrs) (Zpos p).
Proof.
  revert mrs. induction p as [p IH|p IH|]; intros mrs Hm; cbn [SpecFloat.iter_pos].
  - assert (H1 : 0 <= shr_m (shr_1 mrs)).
    { rewrite shr_1_m by assumption. rewrite Z.div2_div. apply Z.div_pos; lia. }
    assert (H2 : 0 <= shr_m (SpecFloat.iter_pos shr_1 p (shr_1 mrs))).
    { rewrite IH by assumption. apply Z.shiftr_nonneg. assumption. }
    rewrite IH, IH, shr_1_m by assumption.
    rewrite Z.div2_spec, !Z.shiftr_shiftr by lia. f_equal. lia.
  - assert (H2 : 0 <= shr_m (SpecFloat.iter_pos shr_1 p mrs)).
    { rewrite IH by assumption. apply Z.shiftr_nonneg. assumption. }
    rewrite IH, IH by assumption.
    rewrite !Z.shiftr_shiftr by lia. f_equal. lia.
  - rewrite shr_1_m by assumption. now rewrite Z.div2_spec.
Qed.

Lemma shr_record_of_loc_m m l : shr_m (shr_record_of_loc m l) = m.
Proof. destruct l as [|[]]; reflexivity. Qed.

(** [shr_fexp] moves the exponent up to the canonical one and truncates the
    integer accordingly. *)
Lemma shr_fexp_spec m e l :
  0 <= m ->
  snd (shr_fexp prec emax m e l) = Z.max e (fexp prec emax (Zdigits2 m + e)) /\
  shr_m (fst (shr_fexp prec emax m e l))
  = Z.shiftr m (Z.max e (fexp prec emax (Zdigits2 m + e)) - e).
Proof.
  intros Hm. unfold shr_fexp, shr.
  destruct (fexp prec emax (Zdigits2 m + e) - e) as [|p|p] eqn:Hn; cbn [fst snd].
  - replace (Z.max e _) with e by lia. rewrite Z.sub_diag, Z.shiftr_0_r.
    split; [reflexivity|apply shr_record_of_loc_m].
  - replace (Z.max e _) with (e + Zpos p) by lia.
    replace (e + Zpos p - e) with (Zpos p) by lia.
    split; [reflexivity|].
    rewrite shr_m_iter; rewrite shr_record_of_loc_m; [reflexivity|exact Hm].
  - replace (Z.max e _) with e by lia. rewrite Z.sub_diag, Z.shiftr_0_r.
    split; [reflexivity|apply shr_record_of_loc_m].
Qed.

Lemma round_nearest_even_bounds m l :
  m <= round_nearest_even m l <= m + 1.
Proof. destruct l as [|[]]; cbn; try destruct (Z.even m); lia. Qed.

Lemma Zdigits2_bound m n : 0 <= m < 2 ^ n -> 0 <= n -> Zdigits2 m <= n.
Proof.
  intros [H0 H] Hn. destruct m as [|p|p]; cbn; [lia| |lia].
  now apply digits2_pos_bound.
Qed.

Lemma shiftr_lt_pow2 m j n : 0 <= m < 2 ^ (j + n) -> 0 <= j -> 0 <= n -> Z.shiftr m j < 2 ^ n.
Proof.
  intros [H0 H] Hj Hn. rewrite Z.shiftr_div_pow2 by lia.
  apply Z.div_lt_upper_bound; [apply Z.pow_pos_nonneg; lia|].
  now rewrite <- Z.pow_add_r by lia.
Qed.

Lemma shiftr_le_pow2 m j n : 0 <= m <= 2 ^ (j + n) -> 0 <= j -> 0 <= n -> Z.shiftr m j <= 2 ^ n.
Proof.
  intros [H0 H] Hj Hn. rewrite Z.shiftr_div_pow2 by lia.
  apply Z.div_le_upper_bound; [apply Z.pow_pos_nonneg; lia|].
  now rewrite <- Z.pow_add_r by lia.
Qed.

(** Rounding an integer [mx * 2^ex] below [2^k] gives zero or a finite
    number that is at most [2^k], of the same sign. *)
Lemma binary_round_aux_le_pow2 s mx ex k :
  Zpos mx < 2 ^ (k - ex) -> -1074 <= k <= 971 ->
  match binary_round_aux prec emax s (Zpos mx) ex loc_Exact with
  | S754_zero s' => s' = s
  | S754_finite s' m e => s' = s /\ e <= k /\ Zpos m <= 2 ^ (k - e)
  | _ => False
  end.
Proof.
  intros Hmx Hk.
  assert (Hex : ex < k).
  { destruct (Z.le_gt_cases k ex) as [Hle|]; [|lia].
    assert (2 ^ (k - ex) <= 1).
    { destruct (Z.eq_dec k ex) as [->|]; [rewrite Z.sub_diag; cbn; lia|].
      rewrite Z.pow_neg_r by lia. lia. }
    lia. }
  assert (HD : Zdigits2 (Zpos mx) <= k - ex) by (apply Zdigits2_bound; lia).
  unfold binary_round_aux.
  destruct (shr_fexp_spec (Zpos mx) ex loc_Exact ltac:(lia)) as [He1 Hm1].
  destruct (shr_fexp prec emax (Zpos mx) ex loc_Exact) as [mrs' e'].
  cbn [fst snd] in He1, Hm1.
  set (m2 := round_nearest_even (shr_m mrs') (loc_of_shr_record mrs')).
  assert (Hfexp1 : fexp prec emax (Zdigits2 (Zpos mx) + ex) <= k).
  { unfold fexp, SpecFloat.emin. change prec with 53. change emax with 1024. lia. }
  assert (He'k : ex <= e' <= k) by lia.
  assert (Hm1b : 0 <= shr_m mrs' < 2 ^ (k - e')).
  { rewrite Hm1, <- He1. split; [apply Z.shiftr_nonneg; lia|].
    apply shiftr_lt_pow2; [|lia|lia].
    replace (e' - ex + (k - e')) with (k - ex) by lia. lia. }
  assert (Hm2 : 0 <= m2 <= 2 ^ (k - e')).
  { pose proof (round_nearest_even_bounds (shr_m mrs') (loc_of_shr_record mrs')).
    fold m2 in H. lia. }
  destruct (shr_fexp_spec m2 e' loc_Exact ltac:(lia)) as [He2 Hm3].
  destruct (shr_fexp prec emax m2 e' loc_Exact) as [mrs'' e''].
  cbn [fst snd] in He2, Hm3.
  assert (HD2 : Zdigits2 m2 <= k - e' + 1).
  { apply Zdigits2_bound; [|lia].
    rewrite Z.pow_add_r by lia. change (2 ^ 1) with 2. lia. }
  assert (Hfexp2 : fexp prec emax (Zdigits2 m2 + e') <= k).
  { unfold fexp, SpecFloat.emin. change prec with 53. change emax with 1024. lia. }
  assert (He''k : e' <= e'' <= k) by lia.
  assert (Hm3b : 0 <= shr_m mrs'' <= 2 ^ (k - e'')).
  { rewrite Hm3, <- He2. split; [apply Z.shiftr_nonneg; lia|].
    apply shiftr_le_pow2; [|lia|lia].
    replace (e'' - e' + (k - e'')) with (k - e') by lia. lia. }
  destruct (shr_m mrs'') as [|m3|m3]; [reflexivity| |lia].
  replace (e'' <=? emax - prec) with true
    by (symmetry; apply Z.leb_le; change prec with 53; change emax with 1024; lia).
  repeat split; lia.
Qed.

Lemma shl_align_spec mx ex e' :
  snd (shl_align mx ex e') = Z.min ex e' /\
  Zpos (fst (shl_align mx ex e')) = Zpos mx * 2 ^ (ex - Z.min ex e').
Proof.
  unfold shl_align. destruct (e' - ex) as [|d|d] eqn:Hd; cbn [fst snd].
  - replace (Z.min ex e') with ex by lia. rewrite Z.sub_diag. split; [reflexivity|cbn; lia].
  - replace (Z.min ex e') with ex by lia. rewrite Z.sub_diag. split; [reflexivity|cbn; lia].
  - replace (Z.min ex e') with e' by lia. split; [reflexivity|].
    replace (ex - e') with (Zpos d) by lia.
    pose proof (shift_pos_correct d mx) as H. unfold shift_pos in H.
    rewrite H. change (Zpower_pos 2 d) with (2 ^ Zpos d). lia.
Qed.

Lemma binary_round_le_pow2 s mx ex k :
  Zpos mx < 2 ^ (k - ex) -> -1074 <= k <= 971 ->
  match binary_round prec emax s mx ex with
  | S754_zero s' => s' = s
  | S754_finite s' m e => s' = s /\ e <= k /\ Zpos m <= 2 ^ (k - e)
  | _ => False
  end.
Proof.
  intros Hmx Hk. unfold binary_round.
  destruct (shl_align_spec mx ex (fexp prec emax (Zpos (digits2_pos mx) + ex)))
    as [He Hm].
  destruct (shl_align mx ex _) as [mz ez]. cbn [fst snd] in He, Hm.
  apply binary_round_aux_le_pow2; [|exact Hk].
  rewrite Hm, <- He.
  assert (ez <= ex) by lia.
  assert (Hex : ex < k).
  { destruct (Z.le_gt_cases k ex) as [Hle|]; [|lia].
    assert (2 ^ (k - ex) <= 1).
    { destruct (Z.eq_dec k ex) as [->|]; [rewrite Z.sub_diag; cbn; lia|].
      rewrite Z.pow_neg_r by lia. lia. }
    lia. }
  replace (k - ez) with ((k - ex) + (ex - ez)) by lia.
  rewrite Z.pow_add_r by lia.
  apply Z.mul_lt_mono_pos_r; [apply Z.pow_pos_nonneg; lia|exact Hmx].
Qed.

Lemma Prim2SF_pi : Prim2SF pi = S754_finite false 7074237752028440 (-51).
Proof. reflexivity. Qed.

Lemma Prim2SF_neg_pi : Prim2SF (- pi) = S754_finite true 7074237752028440 (-51).
Proof. reflexivity. Qed.

Lemma Prim2SF_rad_to_deg : Prim2SF (180 / pi) = S754_finite false 8063664102031864 (-47).
Proof. reflexivity. Qed.

Lemma Prim2SF_360 : Prim2SF 360 = S754_finite false 6333186975989760 (-44).
Proof. reflexivity. Qed.

(** A float between [-pi] and [pi] is zero or has an exponent of at most
    -51. *)
Lemma within_pi_exponent a :
  (- pi <=? a)%float = true -> (a <=? pi)%float = true ->
  match Prim2SF a with
  | S754_zero _ => True
  | S754_finite _ m e => Zpos m < 2 ^ 53 /\ e <= -51
  | _ => False
  end.
Proof.
  intros Hlo Hhi. rewrite leb_spec, Prim2SF_neg_pi in Hlo. rewrite leb_spec, Prim2SF_pi in Hhi.
  pose proof (Prim2SF_valid a) as Hv.
  destruct (Prim2SF a) as [s|s| |s m e]; [exact I| | |].
  - destruct s; discriminate.
  - discriminate.
  - apply valid_finite in Hv as [Hm _]. split; [exact Hm|].
    unfold SFleb, SFcompare in Hlo, Hhi. destruct s.
    + destruct (Z.compare_spec (-51) e); (lia || discriminate).
    + destruct (Z.compare_spec e (-51)); (lia || discriminate).
Qed.

(** Hence its value in degrees is at most 256 in absolute value. *)
Lemma degrees_le_pow2 a :
  (- pi <=? a)%float = true -> (a <=? pi)%float = true ->
  le_pow2 8 (Prim2SF (math_degrees a)).
Proof.
  intros Hlo Hhi. pose proof (within_pi_exponent a Hlo Hhi) as Ha.
  unfold math_degrees. rewrite mul_spec, Prim2SF_rad_to_deg.
  destruct (Prim2SF a) as [s|s| |s m e]; try contradiction.
  - exact I.
  - destruct Ha as [Hm He]. unfold SF64mul, SFmul.
    pose proof (binary_round_aux_le_pow2 (xorb s false) (m * 8063664102031864) (e + -47) 8) as H.
    destruct (binary_round_aux _ _ _ _ _ _) as [s'|s'| |s' m' e'].
    + exact I.
    + apply H; [|lia].
      assert (2 ^ 106 <= 2 ^ (8 - (e + -47))) by (apply Z.pow_le_mono_r; lia).
      change (2 ^ 106) with (2 ^ 53 * 2 ^ 53) in H0.
      change (2 ^ 53) with 9007199254740992 in *. lia.
    + apply H; [|lia].
      assert (2 ^ 106 <= 2 ^ (8 - (e + -47))) by (apply Z.pow_le_mono_r; lia).
      change (2 ^ 106) with (2 ^ 53 * 2 ^ 53) in H0.
      change (2 ^ 53) with 9007199254740992 in *. lia.
    + cbn. assert (Hb : Z.pos (m * 8063664102031864) < 2 ^ (8 - (e + -47))).
      { assert (2 ^ 106 <= 2 ^ (8 - (e + -47))) by (apply Z.pow_le_mono_r; lia).
        change (2 ^ 106) with (2 ^ 53 * 2 ^ 53) in H0.
        change (2 ^ 53) with 9007199254740992 in *. lia. }
      specialize (H Hb ltac:(lia)). lia.
Qed.

(** Adding 360 to it gives a float that is not negative. *)
Lemma add_360_nonneg d :
  le_pow2 8 (Prim2SF d) ->
  match Prim2SF (d + 360)%float with
  | S754_zero s => s = false
  | S754_finite s _ _ => s = false
  | _ => False
  end.
Proof.
  intros Hd. rewrite add_spec, Prim2SF_360.
  destruct (Prim2SF d) as [s|s| |s m e]; try contradiction.
  - reflexivity.
  - destruct Hd as [He Hm]. unfold SF64add, SFadd.
    set (ez := Z.min e (-44)).
    destruct (shl_align_spec m e ez) as [_ HA].
    destruct (shl_align_spec 6333186975989760 (-44) ez) as [_ HB].
    set (A := Zpos (fst (shl_align m e ez))) in *.
    set (B := Zpos (fst (shl_align 6333186975989760 (-44) ez))) in *.
    replace (Z.min e ez) with ez in HA by lia.
    replace (Z.min (-44) ez) with ez in HB by lia.
    assert (Hez : ez <= -44) by lia.
    assert (HA' : A <= 256 * 2 ^ (- ez)).
    { rewrite HA.
      assert (Zpos m * 2 ^ (e - ez) <= 2 ^ (8 - e) * 2 ^ (e - ez)).
      { apply Z.mul_le_mono_nonneg_r; [apply Z.pow_nonneg; lia|exact Hm]. }
      rewrite <- Z.pow_add_r in H by lia.
      replace (8 - e + (e - ez)) with (8 + - ez) in H by lia.
      rewrite Z.pow_add_r in H by lia. exact H. }
    assert (HB' : B = 360 * 2 ^ (- ez)).
    { rewrite HB. replace (- ez) with (44 + (-44 - ez)) by lia.
      rewrite Z.pow_add_r by lia. change (2 ^ 44) with 17592186044416. lia. }
    assert (Hpow : 0 < 2 ^ (- ez)) by (apply Z.pow_pos_nonneg; lia).
    assert (Hsum : 0 < cond_Zopp s A + cond_Zopp false B
                   /\ cond_Zopp s A + cond_Zopp false B < 2 ^ (10 - ez)).
    { replace (10 - ez) with (10 + - ez) by lia. rewrite Z.pow_add_r by lia.
      change (2 ^ 10) with 1024.
      assert (0 < A) by (unfold A; lia).
      destruct s; cbn [cond_Zopp]; nia. }
    destruct (cond_Zopp s A + cond_Zopp false B) as [|p|p]; [lia| |lia].
    cbn [binary_normalize].
    pose proof (binary_round_le_pow2 false p ez 10 ltac:(lia) ltac:(lia)) as H.
    destruct (binary_round prec emax false p ez) as [s'|s'| |s' m' e']; try contradiction.
    + exact H.
    + apply H.
Qed.

Lemma binary_round_aux_not_nan s m e l :
  0 <= m -> binary_round_aux prec emax s m e l <> S754_nan.
Proof.
  intros Hm. unfold binary_round_aux.
  destruct (shr_fexp_spec m e l Hm) as [_ Hm1].
  destruct (shr_fexp prec emax m e l) as [mrs' e']. cbn [fst] in Hm1.
  pose proof (round_nearest_even_bounds (shr_m mrs') (loc_of_shr_record mrs')) as Hr.
  assert (H1 : 0 <= shr_m mrs') by (rewrite Hm1; apply Z.shiftr_nonneg; exact Hm).
  destruct (shr_fexp_spec (round_nearest_even (shr_m mrs') (loc_of_shr_record mrs')) e'
              loc_Exact ltac:(lia)) as [_ Hm3].
  destruct (shr_fexp prec emax _ e' loc_Exact) as [mrs'' e'']. cbn [fst] in Hm3.
  assert (H3 : 0 <= shr_m mrs'') by (rewrite Hm3; apply Z.shiftr_nonneg; lia).
  destruct (shr_m mrs''); [discriminate| |lia].
  destruct (_ <=? _); discriminate.
Qed.

Lemma binary_normalize_not_nan m e sz : binary_normalize prec emax m e sz <> S754_nan.
Proof.
  destruct m as [|p|p]; cbn [binary_normalize]; [discriminate| |];
    unfold binary_round; destruct (shl_align _ _ _) as [mz ez];
    apply binary_round_aux_not_nan; lia.
Qed.

(** The difference of two finite floats is a number (it may overflow). *)
Lemma sub_finite_not_nan a b :
  is_finite a = true -> is_finite b = true -> PrimFloat.is_nan (a - b) = false.
Proof.
  rewrite !is_finite_spec, is_nan_spec, sub_spec. intros Ha Hb.
  destruct (Prim2SF a) as [sa|sa| |sa ma ea]; try discriminate;
    destruct (Prim2SF b) as [sb|sb| |sb mb eb]; try discriminate.
  - destruct sa, sb; reflexivity.
  - reflexivity.
  - reflexivity.
  - unfold SF64sub, SFsub.
    pose proof (binary_normalize_not_nan
                  (cond_Zopp sa (Zpos (fst (shl_align ma ea (Z.min ea eb))))
                   - cond_Zopp sb (Zpos (fst (shl_align mb eb (Z.min ea eb)))))
                  (Z.min ea eb) false) as H.
    destruct (binary_normalize _ _ _ _ _); try reflexivity. congruence.
Qed.

Lemma digits2_pos_unique q d :
  2 ^ (d - 1) <= Zpos q < 2 ^ d -> Zpos (digits2_pos q) = d.
Proof.
  intros [Hlo Hhi].
  pose proof (digits2_pos_lt q) as H1. pose proof (digits2_pos_le q) as H2.
  assert (0 < d).
  { destruct (Z.lt_ge_cases 0 d); [assumption|].
    destruct (Z.eq_dec d 0) as [->|]; [cbn in Hhi; lia|].
    rewrite Z.pow_neg_r in Hhi by lia. lia. }
  destruct (Z.lt_trichotomy (Zpos (digits2_pos q)) d) as [Hlt|[Heq|Hgt]]; [|exact Heq|].
  - assert (2 ^ Zpos (digits2_pos q) <= 2 ^ (d - 1)) by (apply Z.pow_le_mono_r; lia). lia.
  - assert (2 ^ d <= 2 ^ (Zpos (digits2_pos q) - 1)) by (apply Z.pow_le_mono_r; lia). lia.
Qed.

Lemma digits2_pos_shift p q j :
  0 <= j -> Zpos q = Zpos p * 2 ^ j ->
  Zpos (digits2_pos q) = Zpos (digits2_pos p) + j.
Proof.
  intros Hj Hq. apply digits2_pos_unique. rewrite Hq.
  pose proof (digits2_pos_lt p) as H1. pose proof (digits2_pos_le p) as H2.
  assert (0 < 2 ^ j) by (apply Z.pow_pos_nonneg; lia).
  replace (Zpos (digits2_pos p) + j - 1) with (Zpos (digits2_pos p) - 1 + j) by lia.
  rewrite !Z.pow_add_r by lia. nia.
Qed.

(** An integer of at most 53 bits with an exponent in range is rounded to
    itself, in canonical form. *)
Lemma binary_round_exact s pr e0 :
  Zpos pr < 2 ^ 53 -> -1074 <= e0 <= 971 ->
  exists mz ec,
    binary_round prec emax s pr e0 = S754_finite s mz ec /\
    valid_binary (S754_finite s mz ec) = true /\
    ec <= e0 /\ Zpos mz = Zpos pr * 2 ^ (e0 - ec).
Proof.
  intros Hpr He0.
  pose proof (digits2_pos_bound pr 53 Hpr) as HD.
  set (ec := fexp prec emax (Zpos (digits2_pos pr) + e0)).
  assert (Hec : -1074 <= ec <= e0 /\ ec = Z.max (Zpos (digits2_pos pr) + e0 - 53) (-1074)).
  { unfold ec, fexp, SpecFloat.emin. change prec with 53. change emax with 1024. lia. }
  unfold binary_round. fold ec.
  destruct (shl_align_spec pr e0 ec) as [Hez Hmz].
  destruct (shl_align pr e0 ec) as [mz ez]. cbn [fst snd] in Hez, Hmz.
  replace (Z.min e0 ec) with ec in Hez, Hmz by lia. subst ez.
  assert (Hdig : Zpos (digits2_pos mz) + ec = Zpos (digits2_pos pr) + e0).
  { rewrite (digits2_pos_shift pr mz (e0 - ec)); [lia|lia|exact Hmz]. }
  assert (Hcanon : fexp prec emax (Zpos (digits2_pos mz) + ec) = ec).
  { rewrite Hdig. reflexivity. }
  exists mz, ec. split; [|split; [|split; [lia|exact Hmz]]].
  - unfold binary_round_aux, shr_fexp. cbn [Zdigits2].
    rewrite Hcanon, Z.sub_diag. cbn [shr shr_record_of_loc shr_m loc_of_shr_record
                                     round_nearest_even Zdigits2].
    rewrite Hcanon, Z.sub_diag. cbn [shr shr_record_of_loc shr_m].
    replace (ec <=? emax - prec) with true; [reflexivity|].
    symmetry. apply Z.leb_le. change prec with 53. change emax with 1024. lia.
  - unfold SpecFloat.valid_binary, bounded, canonical_mantissa. rewrite Hcanon.
    rewrite Z.eqb_refl. cbn [andb].
    apply Z.leb_le. change prec with 53. change emax with 1024. lia.
Qed.

Lemma SFltb_finite_pos m1 e1 m2 e2 :
  e1 < e2 \/ (e1 = e2 /\ Zpos m1 < Zpos m2) ->
  SFltb (S754_finite false m1 e1) (S754_finite false m2 e2) = true.
Proof.
  intros H. unfold SFltb, SFcompare.
  destruct (Z.compare_spec e1 e2) as [Heq|Hlt|Hgt]; [|reflexivity|lia].
  destruct H as [H|[_ H]]; [lia|].
  change (Pos.compare_cont Eq m1 m2 = Lt) in H. now rewrite H.
Qed.

(** [s % 360] for a float [s] that is not negative: the result lies in
    [0, 360). *)
Lemma mod_360_range (s : float) :
  match Prim2SF s with
  | S754_zero sg => sg = false
  | S754_finite sg _ _ => sg = false
  | _ => False
  end ->
  exists r, mod_ s 360 = Ok r /\ (0 <=? r)%float = true /\ (r <? 360)%float = true.
Proof.
  intros Hs. unfold mod_.
  change (360 =? 0)%float with false. change (360 <? 0)%float with false.
  change (get_sign 360) with false. cbn [xorb].
  pose proof (Prim2SF_valid s) as Hv.
  unfold fmod. rewrite Prim2SF_360.
  destruct (Prim2SF s) as [sg|sg| |sg m e] eqn:HPs; try contradiction; subst sg.
  - (* s is +0 *)
    assert (Hz : (s =? 0)%float = true).
    { rewrite FloatAxioms.eqb_spec, HPs. reflexivity. }
    rewrite Hz. cbn [negb]. exists 0%float. repeat split; reflexivity.
  - apply valid_finite in Hv as (Hm & He & _).
    set (e0 := Z.min e (-44)).
    set (X := Z.shiftl (Zpos m) (e - e0)).
    set (Y := Z.shiftl 6333186975989760 (-44 - e0)).
    assert (HX : 0 < X).
    { unfold X. rewrite Z.shiftl_mul_pow2 by lia.
      apply Z.mul_pos_pos; [lia|apply Z.pow_pos_nonneg; lia]. }
    assert (HY : 0 < Y).
    { unfold Y. rewrite Z.shiftl_mul_pow2 by lia.
      apply Z.mul_pos_pos; [lia|apply Z.pow_pos_nonneg; lia]. }
    assert (HX1 : e <= -44 -> X = Zpos m).
    { intros. unfold X. replace (e - e0) with 0 by lia. apply Z.shiftl_0_r. }
    assert (HY1 : e0 = -44 -> Y = 6333186975989760).
    { intros. unfold Y. replace (-44 - e0) with 0 by lia. apply Z.shiftl_0_r. }
    clearbody X Y.
    pose proof (Z.mod_pos_bound X Y HY) as Hr.
    assert (Hr53 : X mod Y < 2 ^ 53).
    { change (2 ^ 53) with 9007199254740992 in *.
      destruct (Z.le_gt_cases e (-44)).
      - pose proof (Z.mod_le X Y ltac:(lia) HY). specialize (HX1 ltac:(lia)). lia.
      - specialize (HY1 ltac:(lia)). lia. }
    cbn [cond_Zopp].
    destruct (X mod Y) as [|pr|pr] eqn:Hmod; [| |lia].
    + cbn [binary_normalize SF2Prim].
      change (zero =? 0)%float with true. cbn [negb].
      exists 0%float. repeat split; reflexivity.
    + cbn [binary_normalize].
      destruct (binary_round_exact false pr e0 Hr53 ltac:(lia))
        as (mz & ec & Hround & Hvalid & Hec & Hmz).
      rewrite Hround.
      set (f := SF2Prim (S754_finite false mz ec)).
      assert (HPf : Prim2SF f = S754_finite false mz ec)
        by (apply Prim2SF_SF2Prim; exact Hvalid).
      assert (Hf0 : (f =? 0)%float = false).
      { rewrite FloatAxioms.eqb_spec, HPf. reflexivity. }
      assert (Hflt : (f <? 0)%float = false).
      { rewrite ltb_spec, HPf. reflexivity. }
      rewrite Hf0, Hflt. cbn [negb]. exists f. split; [reflexivity|]. split.
      * rewrite leb_spec, HPf. reflexivity.
      * rewrite ltb_spec, HPf, Prim2SF_360. apply SFltb_finite_pos.
        destruct (Z.lt_ge_cases ec (-44)) as [Hlt|Hge]; [left; exact Hlt|right].
        assert (Hec44 : ec = -44) by lia. split; [exact Hec44|].
        specialize (HY1 ltac:(lia)).
        rewrite Hmz. replace (e0 - ec) with 0 by lia.
        rewrite Z.mul_1_r, <- HY1. apply Hr.
Qed.

(** ** The bearing: [calculate_angle] *)

Lemma within_pi_is_number a :
  (- pi <=? a)%float = true -> (a <=? pi)%float = true ->
  PrimFloat.is_nan a = false /\ PrimFloat.is_infinity a = false.
Proof.
  intros Hlo Hhi. pose proof (within_pi_exponent a Hlo Hhi) as H.
  rewrite is_nan_spec, is_infinity_spec.
  destruct (Prim2SF a); try contradiction; split; reflexivity.
Qed.

Section Bearing.
Context {L : Libm}.

(** [math.atan2] stays within [-pi, pi] when the C library does: the
    special values are CPython's own. *)
Lemma m_atan2_within_pi y x :
  PrimFloat.is_nan y = false -> PrimFloat.is_nan x = false ->
  (- pi <=? c_atan2 y x)%float && (c_atan2 y x <=? pi)%float = true ->
  (- pi <=? m_atan2 y x)%float = true /\ (m_atan2 y x <=? pi)%float = true.
Proof.
  intros Hy Hx Hc. apply andb_true_iff in Hc.
  unfold m_atan2. rewrite Hy, Hx. cbn [orb].
  destruct (PrimFloat.is_infinity y).
  - destruct (PrimFloat.is_infinity x).
    + match goal with |- context [PrimFloat.eqb ?a ?b] => destruct (PrimFloat.eqb a b) end;
        unfold copysign; destruct (get_sign y); split; reflexivity.
    + unfold copysign; destruct (get_sign y); split; reflexivity.
  - destruct (PrimFloat.is_infinity x || (y =? 0)%float).
    + match goal with |- context [PrimFloat.eqb ?a ?b] => destruct (PrimFloat.eqb a b) end;
        unfold copysign; destruct (get_sign y); split; reflexivity.
    + exact Hc.
Qed.

End Bearing.


Example calculate_angle_north_east :
  calculate_angle (L := ref_libm) 11.5 48 12.5 49 = Ok 45%float /\
  calculate_angle (L := ref_libm) 11.5 48 10.5 49 = Ok 315%float /\
  calculate_angle (L := ref_libm) 11.5 48 11.5 48 = Ok 0%float.
Proof. repeat split; vm_compute; reflexivity. Qed.

(** * Further properties *)

(** ** The read loop: one outcome per acquisition *)

Lemma read_loop_decisive fuel reads k0 k :
  (forall j, (j < k)%nat -> is_skip (classify_read (reads (k0 + j)%nat)) = true) ->
  is_skip (classify_read (reads (k0 + k)%nat)) = false ->
  (k < fuel)%nat ->
  read_loop fuel reads k0 = outcome_of (classify_read (reads (k0 + k)%nat)).
Proof.
  revert fuel k0. induction k as [|k IH]; intros fuel k0 Hskip Hdec Hk.
  - destruct fuel as [|fuel]; [lia|]. rewrite Nat.add_0_r in *. cbn [read_loop].
    unfold classify_read in *. destruct (reads k0) as [b|e]; [|reflexivity].
    destruct (process_line _); (discriminate || reflexivity).
  - destruct fuel as [|fuel]; [lia|].
    rewrite read_loop_skip.
    + replace (k0 + S k)%nat with (S k0 + k)%nat in * by lia.
      apply IH; [|exact Hdec|lia].
      intros j Hj. replace (S k0 + j)%nat with (k0 + S j)%nat by lia. apply Hskip. lia.
    + specialize (Hskip 0%nat ltac:(lia)). now rewrite Nat.add_0_r in Hskip.
Qed.

(** X1: the first read that is not skipped decides the acquisition. When
    the port opens, the reads before the [k]-th are all skipped and the
    [k]-th is not, the acquisition ends at the [k]-th read: with its fix if
    it carries a valid sentence, in failure if it raises. What the device
    sends afterwards is never read. *)
Theorem first_decisive_read (dev : device) (k fuel : nat) :
  open_error dev = None ->
  (forall j, (j < k)%nat -> is_skip (classify_read (reads dev j)) = true) ->
  is_skip (classify_read (reads dev k)) = false ->
  (k < fuel)%nat ->
  read_from_port fuel dev = outcome_of (classify_read (reads dev k)).
Proof.
  intros Hopen Hskip Hdec Hk. unfold read_from_port. rewrite Hopen.
  apply (read_loop_decisive fuel (reads dev) 0 k); assumption.
Qed.

(** After a timeout, the GGA sentence gives the fix; the read error that
    follows is never met. *)
Lemma first_decisive_read_witness :
  read_from_port 5 gga_after_silence
  = outcome_of (classify_read (reads gga_after_silence 1)) /\
  is_fix (classify_read (reads gga_after_silence 1)) = true.
Proof.
  split.
  - apply (first_decisive_read gga_after_silence 1 5).
    + reflexivity.
    + intros j Hj. assert (j = 0%nat) as -> by lia. reflexivity.
    + vm_compute. reflexivity.
    + lia.
  - vm_compute. reflexivity.
Defined.

Lemma read_loop_stable fuel fuel' reads k :
  read_loop fuel reads k <> Listening -> (fuel <= fuel')%nat ->
  read_loop fuel' reads k = read_loop fuel reads k.
Proof.
  revert fuel' k. induction fuel as [|fuel IH]; intros fuel' k Hterm Hle.
  - cbn in Hterm. congruence.
  - destruct fuel' as [|fuel']; [lia|]. cbn [read_loop] in *.
    destruct (reads k) as [b|e]; [|reflexivity].
    destruct (process_line _); try reflexivity.
    apply IH; [exact Hterm|lia].
Qed.

(** X2: an acquisition has one outcome. Once it has ended, with a fix or
    in failure, no later read changes what it ended with. *)
Theorem terminal_outcome_stable (dev : device) (fuel fuel' : nat) :
  read_from_port fuel dev <> Listening -> (fuel <= fuel')%nat ->
  read_from_port fuel' dev = read_from_port fuel dev.
Proof.
  unfold read_from_port. destruct (open_error dev); [reflexivity|].
  apply read_loop_stable.
Qed.

Lemma terminal_outcome_stable_witness :
  read_from_port 7 gga_after_silence = read_from_port 2 gga_after_silence.
Proof.
  apply (terminal_outcome_stable gga_after_silence 2 7).
  - vm_compute. discriminate.
  - lia.
Defined.

(** ** Coordinates that are not finite *)

Lemma SFdiv_core_binary_nonneg m1 e1 m2 e2 :
  0 <= m1 -> 0 < m2 ->
  0 <= fst (fst (SFdiv_core_binary prec emax m1 e1 m2 e2)).
Proof.
  intros H1 H2. unfold SFdiv_core_binary.
  set (d1 := Zdigits2 m1). set (d2 := Zdigits2 m2).
  set (e' := Z.min _ _). set (s := (e1 - e2 - e')).
  set (m' := match s with Z0 => m1 | Zpos _ => Z.shiftl m1 s | Zneg _ => 0 end).
  assert (Hm' : 0 <= m').
  { unfold m'. destruct s; [exact H1| |lia]. apply Z.shiftl_nonneg. exact H1. }
  pose proof (Z_div_mod m' m2 ltac:(lia)) as Hdm.
  destruct (Z.div_eucl m' m2) as [q r]. cbn [fst].
  destruct Hdm as [Heq Hr]. nia.
Qed.

Lemma div_100_not_nan x :
  PrimFloat.is_nan x = false -> PrimFloat.is_nan (x / 100) = false.
Proof.
  rewrite !is_nan_spec, div_spec, Prim2SF_100. unfold SF64div.
  destruct (Prim2SF x) as [s|s| |s m e]; try (intros; reflexivity || discriminate).
  intros _. cbn [SFdiv].
  pose proof (SFdiv_core_binary_nonneg (Zpos m) e 7036874417766400 (-46)
                ltac:(lia) ltac:(lia)) as Hq.
  destruct (SFdiv_core_binary _ _ _ _ _ _) as [[mz ez] lz]. cbn [fst] in Hq.
  pose proof (binary_round_aux_not_nan (xorb s false) mz ez lz Hq) as Hn.
  destruct (binary_round_aux _ _ _ _ _ _); congruence.
Qed.

(** [int(v / 100)] succeeds on finite values only, raises [ValueError] on
    NaN and the [OverflowError] of infinity otherwise. *)
Lemma int_of_float_hundredth v :
  match int_of_float (v / 100) with
  | Ok _ => PrimFloat.is_nan v = false /\ PrimFloat.is_infinity v = false
  | Raise e =>
      if PrimFloat.is_nan v then is_ValueError e = true else e = infinity_to_integer
  end.
Proof.
  pose proof (div_100_not_nan v) as Hn.
  rewrite (is_nan_spec (v / 100)) in Hn.
  unfold int_of_float. rewrite is_infinity_spec.
  destruct (PrimFloat.is_nan v) eqn:Hnan.
  - rewrite is_nan_spec in Hnan. rewrite div_spec.
    destruct (Prim2SF v); try discriminate. reflexivity.
  - specialize (Hn eq_refl). revert Hn. rewrite div_spec, Prim2SF_100. unfold SF64div.
    destruct (Prim2SF v) as [s|s| |s m e]; cbn [SFdiv].
    + intros _. split; reflexivity.
    + intros _. reflexivity.
    + discriminate.
    + destruct (SFdiv_core_binary _ _ _ _ _ _) as [[mz ez] lz].
      destruct (binary_round_aux _ _ _ _ _ _); intros Hn;
        try (split; reflexivity); try reflexivity. discriminate.
Qed.

(** X3: coordinate fields that read as numbers but are not finite. In a
    recognized sentence with enough fields, a latitude field that reads as
    NaN makes the sentence be skipped, as [int] raises [ValueError]; when
    the latitude is not NaN and one of the two coordinates is infinite,
    [int] raises [OverflowError], which the inner handler does not catch:
    the exception leaves the loop and the acquisition ends in failure. *)
Theorem non_finite_coordinate (line : string) (i : nat) (lat lon : float) :
  field_index line = Some i ->
  (i + 3 < length (split "," line))%nat ->
  float_of_string (part (split "," line) i) = Ok lat ->
  float_of_string (part (split "," line) (i + 2)) = Ok lon ->
  (PrimFloat.is_nan lat = true -> process_line line = Skip) /\
  (PrimFloat.is_nan lat = false ->
   PrimFloat.is_infinity lat || PrimFloat.is_infinity lon = true ->
   process_line line = Escape infinity_to_integer).
Proof.
  intros Hi Hlen Hlat Hlon.
  rewrite process_line_field_index, Hi. cbn zeta.
  apply Nat.ltb_lt in Hlen. rewrite Hlen.
  rewrite (float_of_string_nonempty _ _ Hlat), (float_of_string_nonempty _ _ Hlon).
  cbn [andb]. unfold try_fix, decode_fix. rewrite Hlat, Hlon. cbn [bind].
  pose proof (int_of_float_hundredth lat) as Hlat'.
  pose proof (int_of_float_hundredth lon) as Hlon'.
  split.
  - intros Hnan. rewrite Hnan in Hlat'.
    destruct (int_of_float (lat / 100)) as [d|e]; [destruct Hlat'; congruence|].
    cbn [bind]. now rewrite Hlat'.
  - intros Hnan Hinf. rewrite Hnan in Hlat'.
    destruct (int_of_float (lat / 100)) as [d|e]; cbn [bind].
    + destruct Hlat' as [_ Hfin]. rewrite Hfin in Hinf. cbn [orb] in Hinf.
      destruct (int_of_float (lon / 100)) as [d'|e']; [destruct Hlon'; congruence|].
      cbn [bind].
      destruct (PrimFloat.is_nan lon) eqn:Hnl.
      * rewrite is_nan_spec in Hnl. rewrite is_infinity_spec in Hinf.
        destruct (Prim2SF lon); discriminate.
      * subst e'. reflexivity.
    + subst e. reflexivity.
Qed.

(** A GGA sentence whose longitude field is [inf]. *)
Lemma non_finite_coordinate_witness :
  process_line "$GPGGA,123519,4807.038,N,inf,E,1,08,0.9,545.4,M,46.9,M,,*47"
  = Escape infinity_to_integer.
Proof.
  refine (proj2 (non_finite_coordinate
            "$GPGGA,123519,4807.038,N,inf,E,1,08,0.9,545.4,M,46.9,M,,*47" 2
            0x1.2c709ba5e353fp+12 infinity _ _ _ _) _ _).
  - reflexivity.
  - vm_compute. lia.
  - vm_compute. reflexivity.
  - vm_compute. reflexivity.
  - reflexivity.
  - reflexivity.
Defined.

(** ** White space around a line *)

Lemma lstrip_chars_spaces w l :
  forallb is_space w = true -> lstrip_chars (w ++ l) = lstrip_chars l.
Proof.
  induction w as [|c w IH]; cbn; [reflexivity|].
  intros H. apply andb_true_iff in H as [Hc Hw]. rewrite Hc. now apply IH.
Qed.

Lemma lstrip_chars_app l w :
  forallb is_space w = true ->
  lstrip_chars (l ++ w) = match lstrip_chars l with [] => [] | _ => lstrip_chars l ++ w end.
Proof.
  intros Hw. induction l as [|c l IH]; cbn.
  - rewrite <- (app_nil_r w). rewrite lstrip_chars_spaces by exact Hw. reflexivity.
  - destruct (is_space c); [exact IH|reflexivity].
Qed.

Lemma strip_chars_surrounded w1 l w2 :
  forallb is_space w1 = true -> forallb is_space w2 = true ->
  strip_chars (w1 ++ l ++ w2) = strip_chars l.
Proof.
  intros H1 H2. unfold strip_chars.
  rewrite lstrip_chars_spaces by exact H1.
  rewrite lstrip_chars_app by exact H2.
  destruct (lstrip_chars l) as [|c r] eqn:Hl; [reflexivity|].
  rewrite rev_app_distr, lstrip_chars_spaces; [reflexivity|].
  rewrite forallb_forall in *. intros x Hx. apply H2. now apply in_rev.
Qed.

Lemma list_ascii_of_string_app s t :
  list_ascii_of_string (s +:+ t) = list_ascii_of_string s ++ list_ascii_of_string t.
Proof.
  induction s as [|c s IH]; [reflexivity|].
  rewrite string_app_cons. cbn. now rewrite IH.
Qed.

Lemma decode_ascii_whitespace w :
  whitespace w = true ->
  forallb is_space (list_ascii_of_string (decode_ascii w)) = true.
Proof.
  unfold whitespace, decode_ascii. rewrite list_ascii_of_string_of_list_ascii.
  induction (list_ascii_of_string w) as [|c l IH]; cbn; [reflexivity|].
  intros H. apply andb_true_iff in H as [Hc Hl].
  rewrite (IH Hl), andb_true_r.
  destruct (code c <? 128)%Z eqn:Hlt; [exact Hc|].
  exfalso. unfold is_space in Hc. cbn zeta in Hc. lia.
Qed.

Lemma decode_ascii_app s t : decode_ascii (s +:+ t) = decode_ascii s +:+ decode_ascii t.
Proof.
  unfold decode_ascii.
  induction s as [|c s IH]; [reflexivity|].
  rewrite string_app_cons. cbn. rewrite string_app_cons. now rewrite IH.
Qed.

(** X4: white space around a line does not matter. Bytes read with any
    ASCII white space before or after them, the carriage return and line
    feed that end an NMEA sentence included, are treated exactly as the
    bytes without it. *)
Theorem surrounding_whitespace_ignored (w1 b w2 : string) :
  whitespace w1 = true -> whitespace w2 = true ->
  classify_read (Bytes (w1 +:+ b +:+ w2)) = classify_read (Bytes b).
Proof.
  intros H1 H2. unfold classify_read. f_equal.
  unfold strip. f_equal.
  rewrite !decode_ascii_app, !list_ascii_of_string_app.
  apply strip_chars_surrounded; now apply decode_ascii_whitespace.
Qed.

Lemma surrounding_whitespace_ignored_witness :
  classify_read (Bytes (" " +:+ "$GPGGA,123519,4807.038,N,01131.000,E,1,08" +:+ crlf))
  = classify_read (Bytes "$GPGGA,123519,4807.038,N,01131.000,E,1,08").
Proof.
  apply (surrounding_whitespace_ignored " " "$GPGGA,123519,4807.038,N,01131.000,E,1,08"
           crlf); reflexivity.
Defined.

(** ** File names in sequence *)

Lemma path_exists_false fs p : path_exists fs p = false <-> fs !! p = None.
Proof.
  unfold path_exists. rewrite bool_decide_eq_false, <- eq_None_not_Some. reflexivity.
Qed.

Lemma path_exists_true fs p : path_exists fs p = true <-> is_Some (fs !! p).
Proof. unfold path_exists. apply bool_decide_eq_true. Qed.

(** The loop of [get_next_filename] returns, with the first free
    candidate. *)
Lemma get_next_filename_returns fs directory base_name extension :
  exists n, (1 <= n)%N /\
    get_next_filename fs directory base_name extension
    = Some (candidate directory base_name extension n) /\
    fs !! candidate directory base_name extension n = None /\
    forall m, (1 <= m < n)%N ->
      is_Some (fs !! candidate directory base_name extension m).
Proof.
  unfold get_next_filename.
  destruct (next_filename_loop_least fs directory base_name extension (S (size fs)) 1)
    as (n & Hn & Hloop & Hfree & Hbelow).
  { destruct (free_candidate_exists fs directory base_name extension) as [m [Hm Hf]].
    exists m. split; [lia|exact Hf]. }
  exists n. split; [exact Hn|]. split; [exact Hloop|].
  split; [now apply path_exists_false|].
  intros m Hm. apply path_exists_true. now apply Hbelow.
Qed.

(** X5: names are handed out in increasing order. Once something exists
    at the path [get_next_filename] returned, the next call for the same
    directory, base name and extension returns a path with a strictly
    larger number: two calls never return the same path twice. *)
Theorem next_filename_advances (fs : filesystem) (directory base_name extension : string)
    (content : node) :
  exists n n', (1 <= n < n')%N /\
    get_next_filename fs directory base_name extension
    = Some (candidate directory base_name extension n) /\
    get_next_filename (<[candidate directory base_name extension n := content]> fs)
      directory base_name extension
    = Some (candidate directory base_name extension n').
Proof.
  destruct (get_next_filename_returns fs directory base_name extension)
    as (n & Hn & Hget & Hfree & Hbelow).
  destruct (get_next_filename_returns
              (<[candidate directory base_name extension n := content]> fs)
              directory base_name extension)
    as (n' & Hn' & Hget' & Hfree' & _).
  exists n, n'. split; [|split; assumption].
  split; [exact Hn|].
  destruct (N.lt_trichotomy n' n) as [Hlt|[->|Hgt]]; [| |exact Hgt].
  - exfalso. destruct (Hbelow n' ltac:(lia)) as [x Hx].
    apply lookup_insert_None in Hfree' as [Hnone _]. congruence.
  - exfalso. rewrite lookup_insert_eq in Hfree'. discriminate.
Qed.

(** ** The buttons: generating and deleting files *)

Lemma field_float_truthy f x : field_float f = Ok x -> field_truthy f = true.
Proof. destruct f as [t|y]; [apply float_of_string_nonempty | reflexivity]. Qed.

Lemma list_remove_app_last (x : string) l :
  x ∉ l -> list_remove x (l ++ [x]) = Some l.
Proof.
  induction l as [|y l IH]; intros Hx; cbn.
  - now rewrite String.eqb_refl.
  - apply not_elem_of_cons in Hx as [Hne Hx].
    destruct (String.eqb_spec x y) as [->|_]; [congruence|].
    now rewrite (IH Hx).
Qed.

Lemma list_remove_nodup (x : string) l l' :
  list_remove x l = Some l' -> NoDup l -> NoDup l' /\ x ∉ l'.
Proof.
  revert l'. induction l as [|y l IH]; intros l'; cbn; [discriminate|].
  destruct (String.eqb_spec x y) as [->|Hne].
  - intros [= <-] Hnd. apply NoDup_cons in Hnd as [Hy Hnd]. split; assumption.
  - destruct (list_remove x l) as [r|] eqn:Hr; cbn; [|discriminate].
    intros [= <-] Hnd. apply NoDup_cons in Hnd as [Hy Hnd].
    destruct (IH r eq_refl Hnd) as [Hr1 Hr2].
    assert (Hsub : forall z, z ∈ r -> z ∈ l).
    { clear -Hr. revert r Hr. induction l as [|a l IHl]; intros r; cbn; [discriminate|].
      destruct (String.eqb x a).
      - intros [= <-] z Hz. now right.
      - destruct (list_remove x l) as [r'|]; cbn; [|discriminate].
        intros [= <-] z Hz. apply elem_of_cons in Hz as [->|Hz]; [left|right].
        now apply (IHl r'). }
    split.
    + apply NoDup_cons. split; [|exact Hr1]. intros Hyr. apply Hy. now apply Hsub.
    + rewrite not_elem_of_cons. split; assumption.
Qed.

Section Buttons.
Variable can_open : string -> bool.
Context {D : Disk}.
Variable can_remove : string -> bool.
Context {L : Libm}.

(** A write fails at [open], or fails leaving an unfinished file, or goes
    through. *)
Lemma write_file_outcome filename d fs :
  (exists e, write_file can_open filename d fs = (Raise e, fs)) \/
  (exists e, write_file can_open filename d fs = (Raise e, <[filename := Partial]> fs)) \/
  write_file can_open filename d fs = (Ok tt, <[filename := File d]> fs).
Proof.
  unfold write_file.
  destruct (fs !! filename) as [[d'| |]|]; [| left; eexists; reflexivity | |];
    (destruct (can_open filename); [right; right; reflexivity|];
     destruct (fails_after_open filename);
     [right; left; eexists; reflexivity | left; eexists; reflexivity]).
Qed.

Lemma generate_kml_outcome lon1 lat1 lon2 lat2 length filename color width fs :
  (exists e, generate_kml can_open lon1 lat1 lon2 lat2 length filename color width fs
             = (Raise e, fs)) \/
  (exists e, generate_kml can_open lon1 lat1 lon2 lat2 length filename color width fs
             = (Raise e, <[filename := Partial]> fs)) \/
  (exists last,
     extend_line lon1 lat1 lon2 lat2 length = Ok last /\
     generate_kml can_open lon1 lat1 lon2 lat2 length filename color width fs
     = (Ok tt, <[filename := File {| doc_color := color; doc_width := width;
                                      doc_coordinates :=
                                        [(lon1, lat1); (lon2, lat2); last] |}]> fs)).
Proof.
  unfold generate_kml.
  destruct (extend_line lon1 lat1 lon2 lat2 length) as [[elon elat]|e];
    [|left; eexists; reflexivity].
  match goal with |- context [write_file _ _ ?d _] =>
    destruct (write_file_outcome filename d fs) as [[e He]|[[e He]|He]]; rewrite He end.
  - left. eexists. reflexivity.
  - right. left. eexists. reflexivity.
  - right. right. eexists. split; reflexivity.
Qed.

Lemma generate_circle_kml_outcome lon lat radius filename color width fs :
  (exists e, generate_circle_kml can_open lon lat radius filename color width fs
             = (Raise e, fs)) \/
  (exists e, generate_circle_kml can_open lon lat radius filename color width fs
             = (Raise e, <[filename := Partial]> fs)) \/
  (exists pts,
     circle_points lon lat radius = Ok pts /\
     generate_circle_kml can_open lon lat radius filename color width fs
     = (Ok tt, <[filename := File {| doc_color := color; doc_width := width;
                                      doc_coordinates := pts |}]> fs)).
Proof.
  unfold generate_circle_kml.
  destruct (circle_points lon lat radius) as [pts|e]; [|left; eexists; reflexivity].
  match goal with |- context [write_file _ _ ?d _] =>
    destruct (write_file_outcome filename d fs) as [[e He]|[[e He]|He]]; rewrite He end.
  - left. eexists. reflexivity.
  - right. left. eexists. reflexivity.
  - right. right. eexists. split; reflexivity.
Qed.

Lemma set_files_same (s : dashboard) : with_rest (set_files (files (rest s))) s = s.
Proof. destruct s as [? ? ? ? ? ? ? ? ? ? [? ? ? ? ? ? ?]]. reflexivity. Qed.

Lemma report_shows invalid prefix e (s : dashboard) :
  exists message, report invalid prefix e s = show_error _ message s.
Proof. unfold report. destruct (is_ValueError e); eexists; reflexivity. Qed.

(** X6: what [generate_kml_file] leaves behind. Whatever the fields and
    settings hold, relative to the disk it finds it ends in one of three
    ways. It only shows an error message, leaving the files, the recent
    list and every control as they were. Or the write fails after [open]
    created the file: it shows an error message and leaves an unfinished
    file at [direccional n.kml] in the selected folder, a path where
    nothing existed, and announces nothing. Or it creates one file at such
    a path, whose line starts at the two points read from the fields, and
    announces it (recent list, notification, browser). In no case is a
    path written to that existed when the name was chosen. *)
Theorem generate_kml_file_outcomes (s : dashboard) :
  error_only s (generate_kml_file can_open s) \/
  (exists n, (1 <= n)%N /\
     unfinished_file s (generate_kml_file can_open s)
       (candidate (selected_folder (rest s)) "direccional" "kml" n)) \/
  exists n lon1 lat1 lon2 lat2 last width,
    (1 <= n)%N /\
    field_float (longitude1 s) = Ok lon1 /\ field_float (latitude1 s) = Ok lat1 /\
    field_float (longitude2 s) = Ok lon2 /\ field_float (latitude2 s) = Ok lat2 /\
    one_new_file "KML file generated: " s (generate_kml_file can_open s)
      (candidate (selected_folder (rest s)) "direccional" "kml" n)
      {| doc_color := line_color_dropdown (inputs (rest s)); doc_width := width;
         doc_coordinates := [(lon1, lat1); (lon2, lat2); last] |}.
Proof.
  unfold generate_kml_file, error_only. cbn zeta.
  destruct (_ || _); [left; eexists; reflexivity|].
  destruct (String.eqb _ _); [left; eexists; reflexivity|].
  destruct (field_float (longitude1 s)) as [lon1|e]; cbn [bind];
    [|left; apply report_shows].
  destruct (field_float (latitude1 s)) as [lat1|e]; cbn [bind];
    [|left; apply report_shows].
  destruct (field_float (longitude2 s)) as [lon2|e]; cbn [bind];
    [|left; apply report_shows].
  destruct (field_float (latitude2 s)) as [lat2|e]; cbn [bind];
    [|left; apply report_shows].
  destruct (field_float (line_length _)) as [length|e]; cbn [bind];
    [|left; apply report_shows].
  destruct (int_of_float _) as [width|e]; cbn [bind];
    [|left; apply report_shows].
  destruct (get_next_filename_returns (files (rest s)) (selected_folder (rest s))
              "direccional" "kml") as (n & Hn & -> & Hfree & _).
  match goal with |- context [generate_kml _ ?a ?b ?c ?d ?l ?f ?col ?w ?fs] =>
    destruct (generate_kml_outcome a b c d l f col w fs)
      as [[e He]|[[e He]|(last & _ & He)]]; rewrite He end.
  - left. rewrite set_files_same. apply report_shows.
  - right. left. exists n. split; [exact Hn|]. split; [exact Hfree|]. apply report_shows.
  - right. right. exists n, lon1, lat1, lon2, lat2, last, width.
    split; [exact Hn|]. do 4 (split; [reflexivity|]). split; [exact Hfree|reflexivity].
Qed.

(** X7: what [generate_circle_file] leaves behind. It only shows an error
    message; or, the write failing after [open] created the file, it shows
    an error message and leaves an unfinished file at [circle n.kml] in the
    selected folder, a path where nothing existed; or it creates one file
    at such a path, holding a polygon of 101 vertices, and announces it. In
    no case is a path written to that existed when the name was chosen. *)
Theorem generate_circle_file_outcomes (s : dashboard) :
  error_only s (generate_circle_file can_open s) \/
  (exists n, (1 <= n)%N /\
     unfinished_file s (generate_circle_file can_open s)
       (candidate (selected_folder (rest s)) "circle" "kml" n)) \/
  exists n lon lat radius pts width,
    (1 <= n)%N /\
    field_float (longitude1 s) = Ok lon /\ field_float (latitude1 s) = Ok lat /\
    circle_points lon lat radius = Ok pts /\ length pts = 101%nat /\
    one_new_file "Circle KML file generated: " s (generate_circle_file can_open s)
      (candidate (selected_folder (rest s)) "circle" "kml" n)
      {| doc_color := line_color_dropdown (inputs (rest s)); doc_width := width;
         doc_coordinates := pts |}.
Proof.
  unfold generate_circle_file, error_only. cbn zeta.
  destruct (_ || _); [left; eexists; reflexivity|].
  destruct (String.eqb _ _); [left; eexists; reflexivity|].
  destruct (field_float (longitude1 s)) as [lon|e]; cbn [bind];
    [|left; apply report_shows].
  destruct (field_float (latitude1 s)) as [lat|e]; cbn [bind];
    [|left; apply report_shows].
  destruct (float_of_string _) as [radius|e]; cbn [bind];
    [|left; apply report_shows].
  destruct (int_of_float _) as [width|e]; cbn [bind];
    [|left; apply report_shows].
  destruct (get_next_filename_returns (files (rest s)) (selected_folder (rest s))
              "circle" "kml") as (n & Hn & -> & Hfree & _).
  match goal with |- context [generate_circle_kml _ ?a ?b ?r ?f ?col ?w ?fs] =>
    destruct (generate_circle_kml_outcome a b r f col w fs)
      as [[e He]|[[e He]|(pts & Hpts & He)]]; rewrite He end.
  - left. rewrite set_files_same. apply report_shows.
  - right. left. exists n. split; [exact Hn|]. split; [exact Hfree|]. apply report_shows.
  - right. right. exists n, lon, lat, radius, pts, width.
    split; [exact Hn|]. do 2 (split; [reflexivity|]). split; [exact Hpts|].
    split; [apply map_result_length in Hpts; exact Hpts|].
    split; [exact Hfree|reflexivity].
Qed.

(** X8: coincident points are reported as invalid numbers. When the four
    fields read as the same finite point twice and a folder is selected,
    [generate_kml_file] writes nothing and shows the message for
    non-numeric input: the [ValueError] of [generate_kml] is caught by the
    handler meant for [float], and its own message is never displayed. *)
Theorem generate_kml_file_same_point (s : dashboard) (lon lat length : float) (width : Z) :
  field_float (longitude1 s) = Ok lon -> field_float (latitude1 s) = Ok lat ->
  field_float (longitude2 s) = Ok lon -> field_float (latitude2 s) = Ok lat ->
  field_float (line_length (inputs (rest s))) = Ok length ->
  int_of_float (line_width_slider (inputs (rest s))) = Ok width ->
  is_finite lon = true -> is_finite lat = true ->
  String.eqb (selected_folder (rest s)) "No folder selected" = false ->
  generate_kml_file can_open s
  = show_error _ "Please enter valid numeric values for coordinates and length." s.
Proof.
  intros H1 H2 H3 H4 H5 H6 Hlon Hlat Hfolder. unfold generate_kml_file. cbn zeta.
  rewrite (field_float_truthy _ _ H1), (field_float_truthy _ _ H2),
    (field_float_truthy _ _ H3), (field_float_truthy _ _ H4),
    (field_float_truthy _ _ H5). cbn [negb orb].
  rewrite Hfolder, H1, H2, H3, H4, H5, H6. cbn [bind].
  destruct (get_next_filename_returns (files (rest s)) (selected_folder (rest s))
              "direccional" "kml") as (n & _ & -> & _ & _).
  unfold generate_kml. rewrite (extend_line_same_point lon lat length Hlon Hlat).
  rewrite set_files_same. reflexivity.
Qed.

(** X9: when [generate_kml_file] succeeds. With fields that read as
    numbers, a selected folder, a geometry that computes and an operating
    system that lets new files be created, the file is written at
    [direccional n.kml] for the smallest [n >= 1] not in use, with the
    three vertices of the line, and is announced. *)
Theorem generate_kml_file_succeeds (s : dashboard) (lon1 lat1 lon2 lat2 length : float)
    (width : Z) (last : float * float) :
  field_float (longitude1 s) = Ok lon1 -> field_float (latitude1 s) = Ok lat1 ->
  field_float (longitude2 s) = Ok lon2 -> field_float (latitude2 s) = Ok lat2 ->
  field_float (line_length (inputs (rest s))) = Ok length ->
  int_of_float (line_width_slider (inputs (rest s))) = Ok width ->
  String.eqb (selected_folder (rest s)) "No folder selected" = false ->
  extend_line lon1 lat1 lon2 lat2 length = Ok last ->
  (forall path, files (rest s) !! path = None -> can_open path = true) ->
  exists n, (1 <= n)%N /\
    (forall m, (1 <= m < n)%N ->
       is_Some (files (rest s)
                !! candidate (selected_folder (rest s)) "direccional" "kml" m)) /\
    one_new_file "KML file generated: " s (generate_kml_file can_open s)
      (candidate (selected_folder (rest s)) "direccional" "kml" n)
      {| doc_color := line_color_dropdown (inputs (rest s)); doc_width := width;
         doc_coordinates := [(lon1, lat1); (lon2, lat2); last] |}.
Proof.
  intros H1 H2 H3 H4 H5 H6 Hfolder Hline Hopen.
  unfold generate_kml_file. cbn zeta.
  rewrite (field_float_truthy _ _ H1), (field_float_truthy _ _ H2),
    (field_float_truthy _ _ H3), (field_float_truthy _ _ H4),
    (field_float_truthy _ _ H5). cbn [negb orb].
  rewrite Hfolder, H1, H2, H3, H4, H5, H6. cbn [bind].
  destruct (get_next_filename_returns (files (rest s)) (selected_folder (rest s))
              "direccional" "kml") as (n & Hn & -> & Hfree & Hbelow).
  exists n. split; [exact Hn|]. split; [exact Hbelow|].
  unfold generate_kml, write_file. rewrite Hline. destruct last as [elon elat].
  rewrite Hfree, (Hopen _ Hfree).
  split; [exact Hfree|reflexivity].
Qed.

Lemma error_shape message fs (s : dashboard) :
  exists message' fs',
    show_error _ message (with_rest (set_files fs) s)
    = show_error _ message' (with_rest (set_files fs') s).
Proof. eexists _, _. reflexivity. Qed.

Lemma error_shape_same message (s : dashboard) :
  exists message' fs,
    show_error _ message s = show_error _ message' (with_rest (set_files fs) s).
Proof. exists message, (files (rest s)). now rewrite set_files_same. Qed.

Lemma report_shape_same invalid prefix e (s : dashboard) :
  exists message fs,
    report invalid prefix e s = show_error _ message (with_rest (set_files fs) s).
Proof. unfold report. destruct (is_ValueError e); apply error_shape_same. Qed.

Lemma report_shape invalid prefix e fs (s : dashboard) :
  exists message fs',
    report invalid prefix e (with_rest (set_files fs) s)
    = show_error _ message (with_rest (set_files fs') s).
Proof. unfold report. destruct (is_ValueError e); apply error_shape. Qed.

Lemma generate_kml_file_shape (s : dashboard) :
  (exists message fs,
     generate_kml_file can_open s = show_error _ message (with_rest (set_files fs) s)) \/
  (exists filename fs,
     generate_kml_file can_open s
     = announce "KML file generated: " filename (with_rest (set_files fs) s)).
Proof.
  unfold generate_kml_file. cbn zeta.
  destruct (_ || _); [left; apply error_shape_same|].
  destruct (String.eqb _ _); [left; apply error_shape_same|].
  match goal with |- context [bind (field_float (longitude1 s)) ?k] =>
    destruct (bind (field_float (longitude1 s)) k) as [[[[[[lon1 lat1] lon2] lat2] len] w]|e]
  end; [|left; apply report_shape_same].
  destruct (get_next_filename_returns (files (rest s)) (selected_folder (rest s))
              "direccional" "kml") as (n & _ & -> & _ & _).
  match goal with |- context [generate_kml _ ?a ?b ?c ?d ?l ?f ?col ?w ?fs] =>
    destruct (generate_kml_outcome a b c d l f col w fs)
      as [[e He]|[[e He]|(last & _ & He)]]; rewrite He end.
  - left. apply report_shape.
  - left. apply report_shape.
  - right. eexists _, _. reflexivity.
Qed.

Lemma generate_circle_file_shape (s : dashboard) :
  (exists message fs,
     generate_circle_file can_open s = show_error _ message (with_rest (set_files fs) s)) \/
  (exists filename fs,
     generate_circle_file can_open s
     = announce "Circle KML file generated: " filename (with_rest (set_files fs) s)).
Proof.
  unfold generate_circle_file. cbn zeta.
  destruct (_ || _); [left; apply error_shape_same|].
  destruct (String.eqb _ _); [left; apply error_shape_same|].
  match goal with |- context [bind (field_float (longitude1 s)) ?k] =>
    destruct (bind (field_float (longitude1 s)) k) as [[[[lon lat] radius] w]|e]
  end; [|left; apply report_shape_same].
  destruct (get_next_filename_returns (files (rest s)) (selected_folder (rest s))
              "circle" "kml") as (n & _ & -> & _ & _).
  match goal with |- context [generate_circle_kml _ ?a ?b ?r ?f ?col ?w ?fs] =>
    destruct (generate_circle_kml_outcome a b r f col w fs)
      as [[e He]|[[e He]|(pts & _ & He)]]; rewrite He end.
  - left. apply report_shape.
  - left. apply report_shape.
  - right. eexists _, _. reflexivity.
Qed.

Lemma add_to_recent_files_nodup file (s : dashboard) :
  NoDup (recent_files (rest s)) -> NoDup (recent_files (rest (add_to_recent_files file s))).
Proof.
  intros H. unfold add_to_recent_files.
  destruct (bool_decide (file ∈ recent_files (rest s))) eqn:Hin; [exact H|].
  apply bool_decide_eq_false in Hin. cbn.
  apply NoDup_app. split; [exact H|]. split; [|apply NoDup_singleton].
  intros x Hx Hx'. apply list_elem_of_singleton in Hx' as ->. contradiction.
Qed.

(** X10: the recent list never holds a path twice. If its entries are
    distinct, they still are after [add_to_recent_files], [delete_file],
    [generate_kml_file] and [generate_circle_file]. *)
Theorem recent_files_stay_distinct (file : string) (s : dashboard) :
  NoDup (recent_files (rest s)) ->
  NoDup (recent_files (rest (add_to_recent_files file s))) /\
  NoDup (recent_files (rest (delete_file can_remove file s))) /\
  NoDup (recent_files (rest (generate_kml_file can_open s))) /\
  NoDup (recent_files (rest (generate_circle_file can_open s))).
Proof.
  intros H. split; [now apply add_to_recent_files_nodup|]. split; [|split].
  - unfold delete_file, os_remove.
    destruct (files (rest s) !! file) as [[d| |]|]; try exact H.
    all: destruct (can_remove file); [|exact H].
    all: cbn [with_rest rest recent_files set_files].
    all: destruct (list_remove file (recent_files (rest s))) as [l|] eqn:Hl; [|exact H].
    all: cbn; now apply (list_remove_nodup _ _ _ Hl).
  - destruct (generate_kml_file_shape s) as [(m & fs & ->)|(f & fs & ->)]; [exact H|].
    apply (add_to_recent_files_nodup f (with_rest (set_files fs) s)). exact H.
  - destruct (generate_circle_file_shape s) as [(m & fs & ->)|(f & fs & ->)]; [exact H|].
    apply (add_to_recent_files_nodup f (with_rest (set_files fs) s)). exact H.
Qed.

(** X11: a file that is gone cannot be taken off the list. When nothing
    exists at the path, [delete_file] only shows an error: [os.remove]
    raises before the entry is removed, so the path stays in the recent
    list. *)
Theorem delete_file_missing (file : string) (s : dashboard) :
  files (rest s) !! file = None ->
  error_only s (delete_file can_remove file s) /\
  recent_files (rest (delete_file can_remove file s)) = recent_files (rest s).
Proof.
  intros H. unfold delete_file, os_remove, error_only. rewrite H.
  split; [eexists|]; reflexivity.
Qed.

(** X12: deleting undoes generating. After a generation that created a
    file not yet in the recent list, the file is on disk and in the list;
    [delete_file] on it, when the operating system lets it be removed,
    gives back the disk and the recent list of before the generation. *)
Theorem delete_undoes_generation (text : string) (s s' : dashboard) (filename : string)
    (d : document) :
  one_new_file text s s' filename d ->
  filename ∉ recent_files (rest s) ->
  can_remove filename = true ->
  files (rest s') !! filename = Some (File d) /\
  filename ∈ recent_files (rest s') /\
  files (rest (delete_file can_remove filename s')) = files (rest s) /\
  recent_files (rest (delete_file can_remove filename s')) = recent_files (rest s).
Proof.
  intros [Hfree ->] Hnot Hrm.
  unfold delete_file, os_remove, announce, webbrowser_open, show_snackbar,
    add_to_recent_files.
  cbn [with_rest rest recent_files set_files files set_recent_files set_snackbar set_opened].
  rewrite bool_decide_eq_false_2 by exact Hnot.
  cbn [with_rest rest recent_files set_files files set_recent_files set_snackbar set_opened].
  rewrite lookup_insert_eq, Hrm.
  cbn [with_rest rest recent_files set_files files set_recent_files set_snackbar set_opened].
  rewrite (list_remove_app_last _ _ Hnot).
  cbn [with_rest rest recent_files set_files files set_recent_files set_snackbar set_opened].
  split; [reflexivity|]. split; [apply elem_of_app; right; left|].
  split; [now apply delete_insert_id|reflexivity].
Qed.

(** X13: cancelling the folder dialog discards the selection. When the
    dialog returns no path, the folder shown becomes the placeholder even
    if a folder was selected before, and both generation buttons then only
    show an error. *)
Theorem folder_dialog_cancel_blocks (path : option string) (s : dashboard) :
  value_truthy path = false ->
  selected_folder (rest (select_folder_result path s)) = "No folder selected" /\
  error_only (select_folder_result path s)
    (generate_kml_file can_open (select_folder_result path s)) /\
  error_only (select_folder_result path s)
    (generate_circle_file can_open (select_folder_result path s)).
Proof.
  intros Hpath.
  assert (Hsel : select_folder_result path s
                 = with_rest (set_selected_folder "No folder selected") s).
  { unfold select_folder_result. destruct path as [p|]; [|reflexivity].
    cbn in Hpath. now rewrite Hpath. }
  rewrite Hsel. split; [reflexivity|].
  unfold error_only, generate_kml_file, generate_circle_file.
  cbn [with_rest rest selected_folder set_selected_folder].
  split; destruct (_ || _); eexists; reflexivity.
Qed.

(** X14: [load_both_gps_and_generate] itself generates nothing. It always
    returns; it leaves the text fields, the settings, the compass, the
    recent list and the files as they were and the dictionary [gps_data]
    empty; the thread of a point is started exactly when its port and baud
    rate are set and the baud rate reads as an integer; and for a point
    whose port or baud rate is not set the status label keeps its text. *)
Theorem load_both_gps_and_generate_starts (s : dashboard) :
  let c := inputs (rest s) in
  exists s',
    load_both_gps_and_generate can_open s
    = Ok (s', connectable (port_combo1 c) (baudrate_combo1 c),
              connectable (port_combo2 c) (baudrate_combo2 c)) /\
    same_inputs s s' /\
    gps_data_point1 s' = None /\ gps_data_point2 s' = None /\
    (value_truthy (port_combo1 c) && value_truthy (baudrate_combo1 c) = false ->
     gps_status1 s' = gps_status1 s) /\
    (value_truthy (port_combo2 c) && value_truthy (baudrate_combo2 c) = false ->
     gps_status2 s' = gps_status2 s).
Proof.
  assert (Hload : forall point key (s : dashboard),
    let port := if (point =? 1)%Z then port_combo1 (inputs (rest s))
                else port_combo2 (inputs (rest s)) in
    let baudrate := if (point =? 1)%Z then baudrate_combo1 (inputs (rest s))
                    else baudrate_combo2 (inputs (rest s)) in
    exists s',
      load_gps can_open point (point_callback key) s = Ok (s', connectable port baudrate) /\
      same_inputs s s' /\
      gps_data_point1 s' = gps_data_point1 s /\ gps_data_point2 s' = gps_data_point2 s /\
      (if (point =? 1)%Z then gps_status2 s' = gps_status2 s
       else gps_status1 s' = gps_status1 s) /\
      (value_truthy port && value_truthy baudrate = false ->
       gps_status1 s' = gps_status1 s /\ gps_status2 s' = gps_status2 s)).
  { clear s. intros point key s. cbn zeta.
    unfold load_gps, connectable, run_callback, call, same_inputs.
    destruct (point =? 1)%Z eqn:Hp.
    - destruct (value_truthy (port_combo1 _)), (value_truthy (baudrate_combo1 _));
        cbn [negb orb andb bind];
        try destruct (int _);
        (eexists; split; [reflexivity|]); cbn; rewrite ?Hp; repeat split; congruence.
    - destruct (value_truthy (port_combo2 _)), (value_truthy (baudrate_combo2 _));
        cbn [negb orb andb bind];
        try destruct (int _);
        (eexists; split; [reflexivity|]); cbn; rewrite ?Hp; repeat split; congruence. }
  cbn zeta. unfold load_both_gps_and_generate.
  destruct (Hload 1 1 (clear_gps_data s))
    as (s1 & -> & (Hr1 & Ha1 & Hb1 & Hc1 & Hd1) & Hg1 & Hg1' & Hst1 & Hno1).
  cbn [bind fst snd].
  destruct (Hload 2 2 s1)
    as (s2 & -> & (Hr2 & Ha2 & Hb2 & Hc2 & Hd2) & Hg2 & Hg2' & Hst2 & Hno2).
  cbn [bind fst snd Z.eqb Pos.eqb] in *.
  unfold clear_gps_data in *.
  cbn [rest longitude1 latitude1 longitude2 latitude2 gps_data_point1 gps_data_point2
       gps_status1 gps_status2] in *.
  exists s2. rewrite Hr1. split; [reflexivity|].
  split; [unfold same_inputs; repeat split; congruence|].
  split; [congruence|]. split; [congruence|].
  rewrite Hr1 in Hno2.
  split.
  - intros H. destruct (Hno1 H) as [H1 _]. rewrite Hst2, H1. reflexivity.
  - intros H. destruct (Hno2 H) as [_ H2]. rewrite H2, Hst1. reflexivity.
Qed.

(** ** The compass *)

Lemma math_1_finite f x : is_finite (f x) = true -> math_1 f x = Ok (f x).
Proof.
  unfold math_1, is_finite. intros H. apply andb_true_iff in H as [Hn Hi].
  apply negb_true_iff in Hn, Hi. now rewrite Hn, Hi.
Qed.

(** X15: the compass is consistent. When [update_compass_display]
    returns, it has changed the compass only; the point is visible exactly
    when an angle is displayed; a hidden point keeps its position; and
    "N/A" is displayed exactly when one of the four fields is empty. It
    lets no [ValueError] out. *)
Theorem update_compass_display_consistent (s : dashboard) :
  match update_compass_display s with
  | Ok s' =>
      exists g, s' = with_rest (set_compass g) s /\
        compass_point_visible g = is_degrees (compass_angle_display g) /\
        (compass_point_visible g = false ->
         compass_point_left g = compass_point_left (compass_graphic (rest s)) /\
         compass_point_top g = compass_point_top (compass_graphic (rest s))) /\
        (compass_angle_display g = NotAvailable <->
         field_truthy (longitude1 s) && field_truthy (latitude1 s)
         && field_truthy (longitude2 s) && field_truthy (latitude2 s) = false)
  | Raise e => is_ValueError e = false
  end.
Proof.
  unfold update_compass_display. cbn zeta.
  destruct (_ && _) eqn:Hall.
  - match goal with |- context [bind (field_float (longitude1 s)) ?k] =>
      destruct (bind (field_float (longitude1 s)) k) as [g'|e] eqn:Hr end.
    + exists g'. split; [reflexivity|].
      destruct (field_float (longitude1 s)) as [lon1|?]; cbn [bind] in Hr; [|discriminate].
      destruct (field_float (latitude1 s)) as [lat1|?]; cbn [bind] in Hr; [|discriminate].
      destruct (field_float (longitude2 s)) as [lon2|?]; cbn [bind] in Hr; [|discriminate].
      destruct (field_float (latitude2 s)) as [lat2|?]; cbn [bind] in Hr; [|discriminate].
      destruct (calculate_angle lon1 lat1 lon2 lat2) as [angle|?]; cbn [bind] in Hr;
        [|discriminate].
      destruct (math_sin _) as [sn|?]; cbn [bind] in Hr; [|discriminate].
      destruct (math_cos _) as [cs|?]; cbn [bind] in Hr; [|discriminate].
      injection Hr as <-. cbn. split; [reflexivity|]. split; [discriminate|].
      split; discriminate.
    + destruct (is_ValueError e) eqn:He; [|exact He].
      eexists. split; [reflexivity|]. cbn. split; [reflexivity|].
      split; [intros _; split; reflexivity|]. split; discriminate.
  - eexists. split; [reflexivity|]. cbn. split; [reflexivity|].
    split; [intros _; split; reflexivity|]. split; reflexivity.
Qed.

(** For finite points and a C library whose [atan2] lies within
    [-pi, pi], [calculate_angle] returns a float in [0, 360). *)
Lemma calculate_angle_returns lon1 lat1 lon2 lat2 :
  is_finite lon1 = true -> is_finite lat1 = true ->
  is_finite lon2 = true -> is_finite lat2 = true ->
  (- pi <=? c_atan2 (lon2 - lon1) (lat2 - lat1))%float
  && (c_atan2 (lon2 - lon1) (lat2 - lat1) <=? pi)%float = true ->
  exists angle, calculate_angle lon1 lat1 lon2 lat2 = Ok angle /\
    (0 <=? angle)%float = true /\ (angle <? 360)%float = true.
Proof.
  intros Hlon1 Hlat1 Hlon2 Hlat2 Hc.
  pose proof (sub_finite_not_nan lon2 lon1 Hlon2 Hlon1) as Hy.
  pose proof (sub_finite_not_nan lat2 lat1 Hlat2 Hlat1) as Hx.
  destruct (m_atan2_within_pi _ _ Hy Hx Hc) as [Hlo Hhi].
  destruct (within_pi_is_number _ Hlo Hhi) as [Hnan Hinf].
  destruct (mod_360_range _ (add_360_nonneg _ (degrees_le_pow2 _ Hlo Hhi)))
    as (angle & Hmod & H0 & H360).
  exists angle. split; [|split; assumption].
  unfold calculate_angle, math_atan2. rewrite Hnan, Hinf. cbn [andb bind]. exact Hmod.
Qed.

(** X16: the compass shows the bearing. When the four fields read as
    finite numbers, and the C library returns an [atan2] within [-pi, pi]
    and a finite sine and cosine, [update_compass_display] displays the
    angle of [calculate_angle], a float in [0, 360), and shows the point at
    110 from the centre (150, 150) in that direction, less half its
    size. *)
Theorem compass_shows_bearing (s : dashboard) (lon1 lat1 lon2 lat2 : float) :
  field_float (longitude1 s) = Ok lon1 -> field_float (latitude1 s) = Ok lat1 ->
  field_float (longitude2 s) = Ok lon2 -> field_float (latitude2 s) = Ok lat2 ->
  is_finite lon1 = true -> is_finite lat1 = true ->
  is_finite lon2 = true -> is_finite lat2 = true ->
  (- pi <=? c_atan2 (lon2 - lon1) (lat2 - lat1))%float
  && (c_atan2 (lon2 - lon1) (lat2 - lat1) <=? pi)%float = true ->
  (forall angle, calculate_angle lon1 lat1 lon2 lat2 = Ok angle ->
     is_finite (c_sin (math_radians angle)) = true /\
     is_finite (c_cos (math_radians angle)) = true) ->
  exists angle,
    calculate_angle lon1 lat1 lon2 lat2 = Ok angle /\
    (0 <=? angle)%float = true /\ (angle <? 360)%float = true /\
    update_compass_display s
    = Ok (with_rest (set_compass
            {| compass_angle_display := Degrees angle;
               compass_point_left :=
                 Some (150 + 110 * c_sin (math_radians angle) - 7.5)%float;
               compass_point_top :=
                 Some (150 - 110 * c_cos (math_radians angle) - 7.5)%float;
               compass_point_visible := true |}) s).
Proof.
  intros H1 H2 H3 H4 Hf1 Hf2 Hf3 Hf4 Hc Htrig.
  destruct (calculate_angle_returns lon1 lat1 lon2 lat2 Hf1 Hf2 Hf3 Hf4 Hc)
    as (angle & Hangle & H0 & H360).
  destruct (Htrig angle Hangle) as [Hs Hcs].
  exists angle. split; [exact Hangle|]. split; [exact H0|]. split; [exact H360|].
  unfold update_compass_display. cbn zeta.
  rewrite (field_float_truthy _ _ H1), (field_float_truthy _ _ H2),
    (field_float_truthy _ _ H3), (field_float_truthy _ _ H4). cbn [andb].
  rewrite H1, H2, H3, H4. cbn [bind]. rewrite Hangle. cbn [bind].
  unfold math_sin, math_cos. rewrite (math_1_finite _ _ Hs), (math_1_finite _ _ Hcs).
  reflexivity.
Qed.
End Buttons.

(** Point 2 typed on point 1. *)
Lemma generate_kml_file_same_point_witness :
  generate_kml_file (L := ref_libm) (D := full_disk) (fun _ => true) one_point
  = show_error _ "Please enter valid numeric values for coordinates and length." one_point.
Proof.
  apply (generate_kml_file_same_point (L := ref_libm) (D := full_disk) (fun _ => true) one_point
           11.5 48 50000 2); vm_compute; reflexivity.
Defined.

(** From (11.5, 48) through (12.5, 49) on an empty disk. *)
Lemma generate_kml_file_succeeds_witness :
  exists n d,
    one_new_file "KML file generated: " two_points
      (generate_kml_file (L := ref_libm) (D := full_disk) (fun _ => true) two_points)
      (candidate "/out" "direccional" "kml" n) d.
Proof.
  destruct (extend_line (L := ref_libm) 11.5 48 12.5 49 50000) as [last|e] eqn:Hline.
  - destruct (generate_kml_file_succeeds (L := ref_libm) (D := full_disk) (fun _ => true) two_points
                11.5 48 12.5 49 50000 2 last) as (n & _ & _ & Hnew);
      try (vm_compute; reflexivity).
    + exact Hline.
    + exists n. eexists. exact Hnew.
  - exfalso. revert Hline. vm_compute. discriminate.
Defined.

(** On a full disk the write fails after [open] created the file: an
    unfinished file is left at the path chosen, an error is shown and
    nothing is announced. Where [open] itself fails, only the error is
    shown. *)
Example full_disk_leaves_unfinished_file :
  unfinished_file two_points
    (generate_kml_file (L := ref_libm) (D := full_disk) (fun _ => false) two_points)
    "/out/direccional 1.kml" /\
  unfinished_file two_points
    (generate_circle_file (L := ref_libm) (D := full_disk) (fun _ => false) two_points)
    "/out/circle 1.kml" /\
  error_only two_points
    (generate_kml_file (L := ref_libm) (D := closed_disk) (fun _ => false) two_points).
Proof.
  split; [|split].
  - split; [reflexivity|].
    exists "Error generating KML file: No space left on device". vm_compute. reflexivity.
  - split; [reflexivity|].
    exists "Error generating circle KML file: No space left on device". vm_compute. reflexivity.
  - exists "Error generating KML file: cannot open file". vm_compute. reflexivity.
Qed.

(** On a dashboard whose recent list names two files: adding a path it
    holds changes nothing, deleting a file takes its path off, generating
    at a path the list still names adds nothing, and generating at a new
    path appends it. *)
Lemma recent_files_stay_distinct_witness :
  recent_files (rest two_listed) = ["/out/direccional 1.kml"; "/out/circle 1.kml"] /\
  recent_files (rest (add_to_recent_files "/out/circle 1.kml" two_listed))
  = ["/out/direccional 1.kml"; "/out/circle 1.kml"] /\
  recent_files (rest (delete_file (fun _ => true) "/out/circle 1.kml" two_listed))
  = ["/out/direccional 1.kml"] /\
  recent_files (rest (generate_kml_file (L := ref_libm) (D := full_disk) (fun _ => true)
                        two_listed))
  = ["/out/direccional 1.kml"; "/out/circle 1.kml"] /\
  recent_files (rest (generate_circle_file (L := ref_libm) (D := full_disk) (fun _ => true)
                        two_listed))
  = ["/out/direccional 1.kml"; "/out/circle 1.kml"; "/out/circle 2.kml"] /\
  NoDup (recent_files (rest (add_to_recent_files "/out/circle 1.kml" two_listed))) /\
  NoDup (recent_files (rest (delete_file (fun _ => true) "/out/circle 1.kml" two_listed))) /\
  NoDup (recent_files (rest (generate_kml_file (L := ref_libm) (D := full_disk) (fun _ => true)
                               two_listed))) /\
  NoDup (recent_files (rest (generate_circle_file (L := ref_libm) (D := full_disk)
                               (fun _ => true) two_listed))).
Proof.
  do 5 (split; [vm_compute; reflexivity|]).
  apply (recent_files_stay_distinct (L := ref_libm) (D := full_disk) (fun _ => true)
           (fun _ => true) "/out/circle 1.kml" two_listed).
  apply NoDup_cons. split; [|apply NoDup_singleton].
  intros H. apply list_elem_of_singleton in H. discriminate H.
Defined.

Lemma delete_file_missing_witness :
  error_only two_points (delete_file (fun _ => true) "/out/direccional 1.kml" two_points) /\
  recent_files (rest (delete_file (fun _ => true) "/out/direccional 1.kml" two_points))
  = recent_files (rest two_points).
Proof.
  apply (delete_file_missing (fun _ => true) "/out/direccional 1.kml" two_points).
  reflexivity.
Defined.

Lemma delete_undoes_generation_witness :
  let d := {| doc_color := "ff0000ff"; doc_width := 2;
              doc_coordinates := [(11.5, 48); (12.5, 49); (13, 49.5)]%float |} in
  let s' :=
    announce "KML file generated: " "/out/direccional 1.kml"
      (with_rest (set_files (<["/out/direccional 1.kml" := File d]> ∅)) two_points) in
  files (rest s') !! "/out/direccional 1.kml" = Some (File d) /\
  "/out/direccional 1.kml" ∈ recent_files (rest s') /\
  files (rest (delete_file (fun _ => true) "/out/direccional 1.kml" s'))
  = files (rest two_points) /\
  recent_files (rest (delete_file (fun _ => true) "/out/direccional 1.kml" s'))
  = recent_files (rest two_points).
Proof.
  intros d s'.
  apply (delete_undoes_generation (fun _ => true) "KML file generated: " two_points s'
           "/out/direccional 1.kml" d).
  - split; reflexivity.
  - apply not_elem_of_nil.
  - reflexivity.
Defined.

(** The dialog is cancelled after [/out] was selected. *)
Lemma folder_dialog_cancel_blocks_witness :
  selected_folder (rest (select_folder_result None two_points)) = "No folder selected" /\
  error_only (select_folder_result None two_points)
    (generate_kml_file (L := ref_libm) (D := full_disk) (fun _ => true)
       (select_folder_result None two_points)) /\
  error_only (select_folder_result None two_points)
    (generate_circle_file (L := ref_libm) (D := full_disk) (fun _ => true)
       (select_folder_result None two_points)).
Proof.
  apply (folder_dialog_cancel_blocks (L := ref_libm) (D := full_disk) (fun _ => true) None two_points).
  reflexivity.
Defined.

(** The bearing from (11.5, 48) to (12.5, 49) is displayed. *)
Lemma compass_shows_bearing_witness :
  exists angle,
    calculate_angle (L := ref_libm) 11.5 48 12.5 49 = Ok angle /\
    (0 <=? angle)%float = true /\ (angle <? 360)%float = true /\
    update_compass_display (L := ref_libm) two_points
    = Ok (with_rest (set_compass
            {| compass_angle_display := Degrees angle;
               compass_point_left :=
                 Some (150 + 110 * RefLibm.sin (math_radians angle) - 7.5)%float;
               compass_point_top :=
                 Some (150 - 110 * RefLibm.cos (math_radians angle) - 7.5)%float;
               compass_point_visible := true |}) two_points).
Proof.
  apply (compass_shows_bearing (L := ref_libm) two_points 11.5 48 12.5 49).
  1-9: vm_compute; reflexivity.
  intros angle Hangle.
  assert (angle = 45%float) as ->
    by (vm_compute in Hangle; injection Hangle as <-; reflexivity).
  split; vm_compute; reflexivity.
Defined.

(** ** The automatic workflow *)

Section DualWorkflow.
Variable Rest : Type.
Variables update_compass_display generate_kml_file : app Rest -> result (app Rest).
Variables update_compass_display' generate_kml_file' : app Rest -> result (app Rest).

Let first := deliver update_compass_display generate_kml_file 1 (point_callback 1).
Let second := deliver update_compass_display generate_kml_file 2 (point_callback 2).
Let first' := deliver update_compass_display' generate_kml_file' 1 (point_callback 1).
Let second' := deliver update_compass_display' generate_kml_file' 2 (point_callback 2).

(** X17: the automatic workflow generates once, from both fixes. Starting
    from an empty [gps_data], when both acquisitions deliver a fix with
    non-zero coordinates, the first delivery only stores its point; the
    second one, in whichever order the two threads finish, runs
    [update_compass_display] and then [generate_kml_file] on the state in
    which both points are stored in the fields, and leaves what these two
    return. *)
Theorem dual_workflow_generates_once (s : app Rest) (o1 o2 : outcome)
    (p1 p2 : float * float) (shown generated : app Rest) :
  gps_data_point1 s = None -> gps_data_point2 s = None ->
  usable o1 = Some p1 -> usable o2 = Some p2 ->
  update_compass_display
    (set_gps_data _ 2 p2 (store_point2 _ (fst p2) (snd p2)
       (set_gps_data _ 1 p1 (store_point1 _ (fst p1) (snd p1) s)))) = Ok shown ->
  generate_kml_file shown = Ok generated ->
  first o1 s = Ok (set_gps_data _ 1 p1 (store_point1 _ (fst p1) (snd p1) s)) /\
  second o2 s = Ok (set_gps_data _ 2 p2 (store_point2 _ (fst p2) (snd p2) s)) /\
  (let* s1 := first o1 s in second o2 s1) = Ok generated /\
  (let* s2 := second o2 s in first o1 s2) = Ok generated.
Proof.
  intros H1 H2 Ho1 Ho2.
  destruct o1 as [|x1 y1|e1]; try discriminate.
  destruct o2 as [|x2 y2|e2]; try discriminate.
  cbn [usable] in Ho1, Ho2.
  destruct (float_truthy x1 && float_truthy y1) eqn:Ht1; [|discriminate].
  destruct (float_truthy x2 && float_truthy y2) eqn:Ht2; [|discriminate].
  injection Ho1 as <-. injection Ho2 as <-.
  destruct s as [a b c d st1 st2 e1 e2 g1 g2 r]. cbn in H1, H2. subst g1 g2.
  unfold first, second, deliver, gps_callback, call, on_both_loaded.
  cbn [callback_args fst snd]. rewrite Ht1, Ht2.
  cbn. rewrite ?Ht1, ?Ht2. unfold set_gps_data, store_point1, store_point2. cbn.
  intros Hshown Hgen.
  rewrite Hshown. cbn [bind]. rewrite Hgen. repeat split; reflexivity.
Qed.

(** X18: the automatic workflow needs both fixes. Starting from an empty
    [gps_data], when one of the two acquisitions does not deliver a fix
    with non-zero coordinates (it failed, is still listening, or its fix
    has a zero coordinate), what the two deliveries leave behind, in either
    order, does not depend on [update_compass_display] and
    [generate_kml_file]: neither is run, and nothing is generated. *)
Theorem dual_workflow_needs_both (s : app Rest) (o1 o2 : outcome) :
  gps_data_point1 s = None -> gps_data_point2 s = None ->
  usable o1 = None \/ usable o2 = None ->
  (let* s1 := first o1 s in second o2 s1) = (let* s1 := first' o1 s in second' o2 s1) /\
  (let* s2 := second o2 s in first o1 s2) = (let* s2 := second' o2 s in first' o1 s2).
Proof.
  intros H1 H2 Hno.
  destruct s as [a b c d st1 st2 e1 e2 g1 g2 r]. cbn in H1, H2. subst g1 g2.
  unfold first, second, first', second', deliver, gps_callback, call, on_both_loaded.
  destruct o1 as [|x1 y1|e1'], o2 as [|x2 y2|e2']; cbn [callback_args usable] in *;
    try (split; reflexivity);
    try destruct (float_truthy x1 && float_truthy y1) eqn:Ht1;
    try destruct (float_truthy x2 && float_truthy y2) eqn:Ht2;
    cbn; rewrite ?Ht1, ?Ht2; cbn; try (split; reflexivity);
    destruct Hno; discriminate.
Qed.
End DualWorkflow.

(** Two fixes near Munich. *)
Lemma dual_workflow_generates_once_witness :
  let o1 := FixAcquired 11.5 48 in
  let o2 := FixAcquired 12.5 49 in
  let first := deliver Ok Ok 1 (point_callback 1) in
  let second := deliver Ok Ok 2 (point_callback 2) in
  let both :=
    set_gps_data _ 2 (12.5, 49)%float (store_point2 _ 12.5 49
      (set_gps_data _ 1 (11.5, 48)%float (store_point1 _ 11.5 48 initial_app))) in
  first o1 initial_app
  = Ok (set_gps_data _ 1 (11.5, 48)%float (store_point1 _ 11.5 48 initial_app)) /\
  second o2 initial_app
  = Ok (set_gps_data _ 2 (12.5, 49)%float (store_point2 _ 12.5 49 initial_app)) /\
  (let* s1 := first o1 initial_app in second o2 s1) = Ok both /\
  (let* s2 := second o2 initial_app in first o1 s2) = Ok both.
Proof.
  intros o1 o2 first second both.
  apply (dual_workflow_generates_once unit Ok Ok initial_app o1 o2
           (11.5, 48)%float (12.5, 49)%float both both); reflexivity.
Defined.

(** A fix for point 1 and a failed acquisition for point 2. *)
Lemma dual_workflow_needs_both_witness :
  let o1 := FixAcquired 11.5 48 in
  let o2 := Failed (SerialException "could not open port") in
  (let* s1 := deliver Ok Ok 1 (point_callback 1) o1 initial_app
   in deliver Ok Ok 2 (point_callback 2) o2 s1)
  = (let* s1 := deliver (fun _ => Raise same_points) (fun _ => Raise same_points)
                  1 (point_callback 1) o1 initial_app
     in deliver (fun _ => Raise same_points) (fun _ => Raise same_points)
          2 (point_callback 2) o2 s1) /\
  (let* s2 := deliver Ok Ok 2 (point_callback 2) o2 initial_app
   in deliver Ok Ok 1 (point_callback 1) o1 s2)
  = (let* s2 := deliver (fun _ => Raise same_points) (fun _ => Raise same_points)
                  2 (point_callback 2) o2 initial_app
     in deliver (fun _ => Raise same_points) (fun _ => Raise same_points)
          1 (point_callback 1) o1 s2).
Proof.
  apply (dual_workflow_needs_both unit Ok Ok
           (fun _ => Raise same_points) (fun _ => Raise same_points) initial_app
           (FixAcquired 11.5 48) (Failed (SerialException "could not open port")));
    [reflexivity | reflexivity | right; reflexivity].
Defined.

(** ** A circle of radius zero *)

Lemma is_zero_spec_eqb x : (x =? 0)%float = is_zero_sf (Prim2SF x).
Proof.
  rewrite FloatAxioms.eqb_spec, Prim2SF_zero. unfold SFeqb, is_zero_sf.
  destruct (Prim2SF x) as [s|s| |s m e]; try (destruct s; reflexivity). reflexivity.
Qed.

Lemma mul_6371_not_nan c :
  PrimFloat.is_nan c = false -> PrimFloat.is_nan (6371 * c) = false.
Proof.
  rewrite !is_nan_spec, mul_spec. unfold SF64mul.
  change (Prim2SF 6371) with (S754_finite false 7004988580560896 (-40)).
  destruct (Prim2SF c) as [sb|sb| |sb mb eb]; try discriminate; intros _; try reflexivity.
  cbn [SFmul].
  match goal with |- context [binary_round_aux _ _ ?s ?m ?e ?l] =>
    pose proof (binary_round_aux_not_nan s m e l ltac:(lia)) as H;
    destruct (binary_round_aux prec emax s m e l); congruence end.
Qed.

Lemma div_180_not_nan a :
  PrimFloat.is_nan a = false -> PrimFloat.is_nan (a / 180) = false.
Proof.
  rewrite !is_nan_spec, div_spec. unfold SF64div.
  change (Prim2SF 180) with (S754_finite false 6333186975989760 (-45)).
  destruct (Prim2SF a) as [s|s| |s m e]; try (intros; reflexivity || discriminate).
  intros _. cbn [SFdiv].
  pose proof (SFdiv_core_binary_nonneg (Zpos m) e 6333186975989760 (-45)
                ltac:(lia) ltac:(lia)) as Hq.
  destruct (SFdiv_core_binary _ _ _ _ _ _) as [[mz ez] lz]. cbn [fst] in Hq.
  pose proof (binary_round_aux_not_nan (xorb s false) mz ez lz Hq) as Hn.
  destruct (binary_round_aux _ _ _ _ _ _); congruence.
Qed.

Lemma mul_pi_not_nan a : is_finite a = true -> PrimFloat.is_nan (pi * a) = false.
Proof.
  rewrite is_finite_spec, is_nan_spec, mul_spec, Prim2SF_pi. unfold SF64mul.
  destruct (Prim2SF a) as [sb|sb| |sb mb eb]; try discriminate; intros _; [reflexivity|].
  cbn [SFmul].
  match goal with |- context [binary_round_aux _ _ ?s ?m ?e ?l] =>
    pose proof (binary_round_aux_not_nan s m e l ltac:(lia)) as H;
    destruct (binary_round_aux prec emax s m e l); congruence end.
Qed.

(** A zero times a finite float is a zero. *)
Lemma mul_zero_finite z b :
  is_zero_sf (Prim2SF z) = true -> is_finite b = true ->
  is_zero_sf (Prim2SF (z * b)) = true.
Proof.
  rewrite is_finite_spec, mul_spec. unfold SF64mul.
  destruct (Prim2SF z); try discriminate.
  destruct (Prim2SF b); try discriminate; reflexivity.
Qed.

(** Adding a zero to a finite float gives a float equal to it. *)
Lemma add_zero_finite x z :
  is_finite x = true -> is_zero_sf (Prim2SF z) = true -> (x + z =? x)%float = true.
Proof.
  rewrite is_finite_spec, FloatAxioms.eqb_spec, add_spec. unfold SF64add, SFeqb.
  destruct (Prim2SF z) as [sz| | |]; try discriminate.
  destruct (Prim2SF x) as [sx|sx| |sx mx ex]; try discriminate; intros _ _.
  - cbn. destruct sx, sz; reflexivity.
  - cbn [SFadd]. now rewrite SFcompare_refl_finite.
Qed.

(** Zero divided by a float that is neither zero nor NaN is a zero. *)
Lemma div_zero_number y :
  (y =? 0)%float = false -> PrimFloat.is_nan y = false ->
  is_zero_sf (Prim2SF (0 / y)) = true.
Proof.
  rewrite is_zero_spec_eqb, is_nan_spec, div_spec, Prim2SF_zero. unfold SF64div.
  destruct (Prim2SF y); try discriminate; reflexivity.
Qed.

(** What [math_1] returns is a number when its argument is, and finite
    when its argument is. *)
Lemma math_1_number f x v :
  math_1 f x = Ok v ->
  (PrimFloat.is_nan x = false -> PrimFloat.is_nan v = false) /\
  (is_finite x = true -> is_finite v = true).
Proof.
  unfold math_1.
  destruct (PrimFloat.is_nan (f x)) eqn:Hn, (PrimFloat.is_nan x) eqn:Hx; cbn [negb andb];
    try discriminate;
    destruct (PrimFloat.is_infinity (f x)) eqn:Hi, (is_finite x) eqn:Hf; cbn [andb];
    try discriminate; intros [= <-]; unfold is_finite in *; rewrite ?Hn, ?Hi, ?Hx in *;
    cbn in *; split; congruence.
Qed.

Lemma circle_angles_finite :
  forallb (fun i => match circle_angle i with Ok a => is_finite a | Raise _ => false end)
    (seq 0 (num_points + 1)) = true.
Proof. vm_compute. reflexivity. Qed.

Lemma circle_angle_finite i angle :
  (i <= 100)%nat -> circle_angle i = Ok angle -> is_finite angle = true.
Proof.
  intros Hi Ha. pose proof circle_angles_finite as H.
  rewrite forallb_forall in H. specialize (H i).
  rewrite Ha in H. apply H. apply in_seq. cbn. lia.
Qed.

Lemma map_result_Forall {A B : Type} (f : A -> result B) (P : B -> Prop) l l' :
  (forall a b, In a l -> f a = Ok b -> P b) ->
  map_result f l = Ok l' -> Forall P l'.
Proof.
  revert l'. induction l as [|a l IH]; intros l' HP H; cbn in H.
  - injection H as <-. constructor.
  - destruct (f a) as [b|e] eqn:Ha; cbn in H; [|discriminate].
    destruct (map_result f l) as [bs|e]; cbn in H; [|discriminate].
    injection H as <-. constructor.
    + apply (HP a b); [now left|exact Ha].
    + apply IH; [|reflexivity]. intros a' b' Hin. apply HP. now right.
Qed.

Section ZeroRadius.
Context {L : Libm}.

Lemma circle_point_zero_radius lon lat i p :
  is_finite lon = true -> is_finite lat = true -> (i <= 100)%nat ->
  circle_point lon lat 0 i = Ok p ->
  (fst p =? lon)%float = true /\ (snd p =? lat)%float = true.
Proof.
  intros Hlon Hlat Hi. unfold circle_point.
  destruct (circle_angle i) as [angle|e] eqn:Hangle; cbn [bind]; [|discriminate].
  pose proof (circle_angle_finite i angle Hi Hangle) as Hfin.
  destruct (math_cos (pi * lat / 180)) as [c|e] eqn:Hc; cbn [bind]; [|discriminate].
  destruct (math_1_number _ _ _ Hc) as [Hcn _].
  specialize (Hcn (div_180_not_nan _ (mul_pi_not_nan lat Hlat))).
  unfold truediv.
  destruct (6371 * c =? 0)%float eqn:Hz; cbn [bind]; [discriminate|].
  destruct (math_sin angle) as [s|e] eqn:Hs; cbn [bind]; [|discriminate].
  destruct (math_1_number _ _ _ Hs) as [_ Hsf]. specialize (Hsf Hfin).
  destruct (math_cos angle) as [c'|e] eqn:Hc'; cbn [bind]; [|discriminate].
  destruct (math_1_number _ _ _ Hc') as [_ Hcf]. specialize (Hcf Hfin).
  intros [= <-]. cbn [fst snd]. split.
  - apply add_zero_finite; [exact Hlon|].
    apply mul_zero_finite; [|exact Hcf].
    apply mul_zero_finite; [|reflexivity].
    apply div_zero_number; [exact Hz|].
    now apply mul_6371_not_nan.
  - apply add_zero_finite; [exact Hlat|].
    apply mul_zero_finite; [reflexivity|exact Hsf].
Qed.

(** X19: a circle of radius zero collapses onto its centre. For a finite
    centre, when the polygon of radius 0 is computed, each of its 101
    vertices is equal, as a number, to the centre. *)
Theorem zero_radius_collapses (lon lat : float) (pts : list (float * float)) :
  is_finite lon = true -> is_finite lat = true ->
  circle_points lon lat 0 = Ok pts ->
  length pts = 101%nat /\
  Forall (fun p => (fst p =? lon)%float = true /\ (snd p =? lat)%float = true) pts.
Proof.
  intros Hlon Hlat Hpts. split; [apply map_result_length in Hpts; exact Hpts|].
  apply (map_result_Forall (circle_point lon lat 0) _ (seq 0 (num_points + 1)) pts);
    [|exact Hpts].
  intros i p Hi Hp. apply in_seq in Hi.
  apply (circle_point_zero_radius lon lat i p Hlon Hlat); [cbn in Hi; lia|exact Hp].
Qed.
End ZeroRadius.

(** Around a centre in Munich. *)
Lemma zero_radius_collapses_witness :
  exists pts, circle_points (L := ref_libm) 0x1.7p+3 0x1.81p+5 0 = Ok pts /\
    length pts = 101%nat /\
    Forall (fun p => (fst p =? 0x1.7p+3)%float = true /\ (snd p =? 0x1.81p+5)%float = true)
      pts.
Proof.
  destruct (circle_points (L := ref_libm) 0x1.7p+3 0x1.81p+5 0) as [pts|e] eqn:Hpts.
  - exists pts. split; [reflexivity|].
    apply (zero_radius_collapses (L := ref_libm) 0x1.7p+3 0x1.81p+5 pts);
      [reflexivity | reflexivity | exact Hpts].
  - exfalso. revert Hpts. vm_compute. discriminate.
Defined.

Section Automatic.
Variable can_open : string -> bool.
Context {D : Disk}.
Context {L : Libm}.

(** ** The automatic workflow on the dashboard *)

(** [calculate_angle] raises nothing but [ValueError] when the C library
    returns no infinity. *)
Lemma calculate_angle_no_overflow lon1 lat1 lon2 lat2 :
  PrimFloat.is_infinity (c_atan2 (lon2 - lon1) (lat2 - lat1)) = false ->
  match calculate_angle lon1 lat1 lon2 lat2 with
  | Ok _ => True
  | Raise e => is_ValueError e = true
  end.
Proof.
  intros Hc. unfold calculate_angle, math_atan2.
  set (y := (lon2 - lon1)%float) in *. set (x := (lat2 - lat1)%float) in *.
  destruct (_ && _ && _); [reflexivity|].
  destruct (PrimFloat.is_infinity (m_atan2 y x) && is_finite y && is_finite x) eqn:Hinf.
  - exfalso. apply andb_true_iff in Hinf as [Hinf Hx].
    apply andb_true_iff in Hinf as [Hinf Hy].
    unfold is_finite in Hx, Hy.
    apply andb_true_iff in Hx as [Hxn Hxi]. apply andb_true_iff in Hy as [Hyn Hyi].
    apply negb_true_iff in Hxn, Hxi, Hyn, Hyi.
    unfold m_atan2 in Hinf. rewrite Hxn, Hyn, Hyi, Hxi in Hinf. cbn [orb] in Hinf.
    destruct (y =? 0)%float.
    + match type of Hinf with context [PrimFloat.eqb ?a ?b] =>
        destruct (PrimFloat.eqb a b) end;
        unfold copysign in Hinf; destruct (get_sign y); discriminate.
    + congruence.
  - cbn [bind]. unfold mod_.
    change (360 =? 0)%float with false. cbv iota.
    destruct (negb _); [destruct (xorb _ _)|]; exact I.
Qed.

Lemma update_compass_display_stored (s : dashboard) (x1 y1 x2 y2 : float) :
  longitude1 s = Repr x1 -> latitude1 s = Repr y1 ->
  longitude2 s = Repr x2 -> latitude2 s = Repr y2 ->
  PrimFloat.is_infinity (c_atan2 (x2 - x1) (y2 - y1)) = false ->
  exists g, update_compass_display s = Ok (with_rest (set_compass g) s).
Proof.
  intros H1 H2 H3 H4 Hc. unfold update_compass_display. cbn zeta.
  rewrite H1, H2, H3, H4. cbn [field_truthy andb field_float bind].
  pose proof (calculate_angle_no_overflow x1 y1 x2 y2 Hc) as Hangle.
  destruct (calculate_angle x1 y1 x2 y2) as [angle|e]; cbn [bind].
  - unfold math_sin, math_cos, math_1.
    destruct (_ && _); cbn [bind is_ValueError]; [eexists; reflexivity|].
    destruct (_ && _); cbn [bind is_ValueError]; [eexists; reflexivity|].
    destruct (_ && _); cbn [bind is_ValueError]; [eexists; reflexivity|].
    destruct (_ && _); cbn [bind is_ValueError]; eexists; reflexivity.
  - rewrite Hangle. eexists. reflexivity.
Qed.

(** X20: the automatic workflow draws the line through the two fixes.
    Starting from an empty [gps_data], with a selected folder, a line
    length that reads as a number, a geometry that computes and an
    operating system that lets new files be created, when both
    acquisitions deliver a fix with non-zero coordinates the two threads,
    in whichever order they finish, leave the same state: one new file
    [direccional n.kml] whose line starts at the fix of point 1, passes
    through the fix of point 2 and ends at the extended end point. The
    values written are the floats acquired, unchanged by their passage
    through the text fields. *)
Theorem automatic_workflow_line (s : dashboard) (o1 o2 : outcome) (p1 p2 : float * float)
    (length : float) (width : Z) (last : float * float) :
  gps_data_point1 s = None -> gps_data_point2 s = None ->
  usable o1 = Some p1 -> usable o2 = Some p2 ->
  field_float (line_length (inputs (rest s))) = Ok length ->
  int_of_float (line_width_slider (inputs (rest s))) = Ok width ->
  String.eqb (selected_folder (rest s)) "No folder selected" = false ->
  extend_line (fst p1) (snd p1) (fst p2) (snd p2) length = Ok last ->
  (forall path, files (rest s) !! path = None -> can_open path = true) ->
  PrimFloat.is_infinity (c_atan2 (fst p2 - fst p1) (snd p2 - snd p1)) = false ->
  let first := thread_result can_open 1 (point_callback 1) o1 in
  let second := thread_result can_open 2 (point_callback 2) o2 in
  exists n s',
    (let* s1 := first s in second s1) = Ok s' /\
    (let* s2 := second s in first s2) = Ok s' /\
    files (rest s) !! candidate (selected_folder (rest s)) "direccional" "kml" n = None /\
    files (rest s')
    = <[candidate (selected_folder (rest s)) "direccional" "kml" n :=
          File {| doc_color := line_color_dropdown (inputs (rest s)); doc_width := width;
                  doc_coordinates := [p1; p2; last] |}]> (files (rest s)).
Proof.
  intros Hg1 Hg2 Ho1 Ho2 Hlen Hwidth Hfolder Hline Hopen Hc.
  destruct o1 as [|x1 y1|e1]; try discriminate.
  destruct o2 as [|x2 y2|e2]; try discriminate.
  cbn [usable] in Ho1, Ho2.
  destruct (float_truthy x1 && float_truthy y1) eqn:Ht1; [|discriminate].
  destruct (float_truthy x2 && float_truthy y2) eqn:Ht2; [|discriminate].
  injection Ho1 as <-. injection Ho2 as <-. cbn [fst snd] in *.
  destruct s as [a b c d st1 st2 e1 e2 g1 g2 r]. cbn in Hg1, Hg2. subst g1 g2.
  cbn [rest] in *.
  set (both := {| longitude1 := Repr x1; latitude1 := Repr y1;
                  longitude2 := Repr x2; latitude2 := Repr y2;
                  gps_status1 := "GPS Status Point 1: Connected";
                  gps_status2 := "GPS Status Point 2: Connected";
                  error_display_1 := e1; error_display_2 := e2;
                  gps_data_point1 := Some (x1, y1); gps_data_point2 := Some (x2, y2);
                  rest := r |} : dashboard).
  destruct (update_compass_display_stored both x1 y1 x2 y2 eq_refl eq_refl eq_refl eq_refl Hc)
    as [g Hg].
  destruct (get_next_filename_returns (files r) (selected_folder r) "direccional" "kml")
    as (n & Hn & Hnext & Hfree & Hbelow).
  assert (Hgen : files (rest (generate_kml_file can_open (with_rest (set_compass g) both)))
                 = <[candidate (selected_folder r) "direccional" "kml" n :=
                       File {| doc_color := line_color_dropdown (inputs r);
                               doc_width := width;
                               doc_coordinates := [(x1, y1); (x2, y2); last] |}]> (files r)).
  { unfold generate_kml_file. cbn zeta.
    cbn [with_rest rest both longitude1 latitude1 longitude2 latitude2 field_truthy
         set_compass inputs selected_folder files negb orb].
    rewrite (field_float_truthy _ _ Hlen). cbn [negb orb field_float].
    rewrite Hfolder, Hlen, Hwidth. cbn [bind]. rewrite Hnext.
    unfold generate_kml, write_file. rewrite Hline. destruct last as [elon elat].
    rewrite Hfree, (Hopen _ Hfree).
    unfold announce, webbrowser_open, show_snackbar, add_to_recent_files.
    destruct (bool_decide _); reflexivity. }
  exists n, (generate_kml_file can_open (with_rest (set_compass g) both)).
  split; [|split; [|split; [exact Hfree|exact Hgen]]].
  - unfold thread_result, deliver, gps_callback, call, on_both_loaded.
    cbn [callback_args]. rewrite Ht1, Ht2.
    cbn -[update_compass_display generate_kml_file].
    rewrite ?Ht1, ?Ht2. cbn -[update_compass_display generate_kml_file].
    match goal with |- context [update_compass_display ?st] => change st with both end.
    rewrite Hg. reflexivity.
  - unfold thread_result, deliver, gps_callback, call, on_both_loaded.
    cbn [callback_args]. rewrite Ht1, Ht2.
    cbn -[update_compass_display generate_kml_file].
    rewrite ?Ht1, ?Ht2. cbn -[update_compass_display generate_kml_file].
    match goal with |- context [update_compass_display ?st] => change st with both end.
    rewrite Hg. reflexivity.
Qed.
End Automatic.

(** Two fixes near Munich, delivered to the dashboard. *)
Lemma automatic_workflow_line_witness :
  let first :=
    thread_result (L := ref_libm) (D := full_disk) (fun _ => true) 1 (point_callback 1)
      (FixAcquired 11.5 48) in
  let second :=
    thread_result (L := ref_libm) (D := full_disk) (fun _ => true) 2 (point_callback 2)
      (FixAcquired 12.5 49) in
  exists last n s',
    (let* s1 := first folder_selected in second s1) = Ok s' /\
    (let* s2 := second folder_selected in first s2) = Ok s' /\
    files (rest folder_selected) !! candidate "/out" "direccional" "kml" n = None /\
    files (rest s')
    = <[candidate "/out" "direccional" "kml" n :=
          File {| doc_color := "ff0000ff"; doc_width := 2;
                  doc_coordinates := [(11.5, 48); (12.5, 49); last]%float |}]> ∅.
Proof.
  intros first second.
  destruct (extend_line (L := ref_libm) 11.5 48 12.5 49 50000) as [last|e] eqn:Hline.
  - exists last.
    apply (automatic_workflow_line (L := ref_libm) (D := full_disk) (fun _ => true) folder_selected
             (FixAcquired 11.5 48) (FixAcquired 12.5 49) (11.5, 48)%float (12.5, 49)%float
             50000 2 last).
    1-7: vm_compute; reflexivity.
    + exact Hline.
    + intros path _. reflexivity.
    + vm_compute. reflexivity.
  - exfalso. revert Hline. vm_compute. discriminate.
Defined.

(** ** What the program does not check *)

Lemma split_chars_app sep cur h t :
  split_chars sep cur (h ++ sep :: t) = split_chars sep cur h ++ split_chars sep [] t.
Proof.
  revert cur. induction h as [|c h IH]; intros cur; cbn.
  - now rewrite Ascii.eqb_refl.
  - destruct (Ascii.eqb c sep); [cbn; f_equal; apply IH | apply IH].
Qed.

Lemma split_app sep head tail :
  split sep (head +:+ String sep tail) = split sep head ++ split sep tail.
Proof.
  unfold split. rewrite list_ascii_of_string_app. cbn [list_ascii_of_string].
  apply split_chars_app.
Qed.

Lemma prefix_app p h t :
  (String.length p <= String.length h)%nat -> String.prefix p (h +:+ t) = String.prefix p h.
Proof.
  revert h. induction p as [|c p IH]; intros h Hlen.
  - destruct h as [|d h]; [change ("" +:+ t) with t; destruct t|rewrite string_app_cons];
      reflexivity.
  - destruct h as [|d h]; [cbn in Hlen; lia|].
    rewrite string_app_cons. cbn [String.prefix].
    destruct (Ascii.ascii_dec c d); [|reflexivity].
    apply IH. cbn in Hlen. lia.
Qed.

(** X21: the checksum is never verified. In a line whose first seven
    fields are given, what follows them, the checksum included, has no
    influence: two lines that differ only there are recognized, skipped or
    decoded alike, to the same fix. *)
Theorem trailing_fields_ignored (head tail tail' : string) :
  (6 <= String.length head)%nat ->
  (7 <= length (split "," head))%nat ->
  process_line (head +:+ String "," tail) = process_line (head +:+ String "," tail').
Proof.
  intros Hhead Hfields.
  assert (Hpart : forall t i, (i < 7)%nat ->
            part (split "," (head +:+ String "," t)) i = part (split "," head) i).
  { intros t i Hi. unfold part. rewrite split_app. apply app_nth1. lia. }
  assert (Hlen : forall t k, (k <= 6)%nat ->
            (k <? length (split "," (head +:+ String "," t)))%nat = true).
  { intros t k Hk. apply Nat.ltb_lt. rewrite split_app, length_app.
    assert (1 <= length (split "," t))%nat; [|lia].
    unfold split. generalize (@nil ascii). induction (list_ascii_of_string t) as [|c l IH];
      intros cur; cbn; [lia|]. destruct (Ascii.eqb c ","); [cbn; lia|apply IH]. }
  unfold process_line, try_fix, decode_fix, startswith.
  rewrite !(prefix_app _ head) by (cbn; lia).
  rewrite !Hlen by lia.
  rewrite !(Hpart tail) by lia. rewrite !(Hpart tail') by lia.
  reflexivity.
Qed.

Section Unchecked.
Variable can_open : string -> bool.
Context {D : Disk}.
Context {L : Libm}.

(** X22: the line length is not validated. Whether [generate_kml]
    succeeds or raises, and what it raises, does not depend on the length:
    a length that is zero, negative or not a number is accepted as any
    other. *)
Theorem line_length_unchecked (lon1 lat1 lon2 lat2 length length' : float)
    (filename line_color : string) (line_width : Z) (fs : filesystem) :
  raised (fst (generate_kml can_open lon1 lat1 lon2 lat2 length
                 filename line_color line_width fs))
  = raised (fst (generate_kml can_open lon1 lat1 lon2 lat2 length'
                   filename line_color line_width fs)).
Proof.
  assert (H : raised (extend_line lon1 lat1 lon2 lat2 length)
              = raised (extend_line lon1 lat1 lon2 lat2 length')).
  { unfold extend_line.
    destruct (pow2 (lon2 - lon1)) as [sq_lon|e]; cbn [bind]; [|reflexivity].
    destruct (pow2 (lat2 - lat1)) as [sq_lat|e]; cbn [bind]; [|reflexivity].
    destruct (math_sqrt _) as [magnitude|e]; cbn [bind]; [|reflexivity].
    unfold truediv.
    destruct (magnitude =? 0)%float; [reflexivity|]. cbn [bind].
    destruct (math_cos _) as [c|e]; cbn [bind]; [|reflexivity].
    match goal with |- context [PrimFloat.eqb ?a ?b] => destruct (PrimFloat.eqb a b) end;
      reflexivity. }
  unfold generate_kml.
  destruct (extend_line lon1 lat1 lon2 lat2 length) as [[elon elat]|e],
           (extend_line lon1 lat1 lon2 lat2 length') as [[elon' elat']|e'];
    cbn in H; try congruence.
  unfold write_file. destruct (fs !! filename) as [[?| |]|]; try reflexivity;
    destruct (can_open filename); try reflexivity;
    destruct (fails_after_open filename); reflexivity.
Qed.
End Unchecked.

(** The GGA sentence of the specification, cut short and with another
    checksum. *)
Lemma trailing_fields_ignored_witness :
  process_line ("$GPGGA,123519,4807.038,N,01131.000,E,1" +:+ String "," "08,0.9,545.4,M,,*47")
  = process_line ("$GPGGA,123519,4807.038,N,01131.000,E,1" +:+ String "," "*00").
Proof.
  apply (trailing_fields_ignored "$GPGGA,123519,4807.038,N,01131.000,E,1"
           "08,0.9,545.4,M,,*47" "*00"); vm_compute; lia.
Defined.

(** ** Lines and bearings along a meridian or a parallel *)

Lemma positive_sign x :
  (0 <? x)%float = true -> get_sign x = false /\ PrimFloat.is_nan x = false.
Proof.
  rewrite ltb_spec, Prim2SF_zero, is_nan_spec. unfold get_sign, is_zero.
  rewrite FloatAxioms.eqb_spec. change (Prim2SF zero) with (S754_zero false).
  unfold SFltb, SFeqb.
  destruct (Prim2SF x) as [s|s| |s m e] eqn:Hx; cbn; try discriminate.
  - destruct s; [discriminate|]. intros _. rewrite ltb_spec, Hx. now split.
  - destruct s; [discriminate|]. intros _. rewrite ltb_spec, Hx. now split.
Qed.

Lemma negative_sign x :
  (x <? 0)%float = true -> get_sign x = true /\ PrimFloat.is_nan x = false.
Proof.
  rewrite ltb_spec, Prim2SF_zero, is_nan_spec. unfold get_sign, is_zero.
  rewrite FloatAxioms.eqb_spec. change (Prim2SF zero) with (S754_zero false).
  unfold SFltb, SFeqb.
  destruct (Prim2SF x) as [s|s| |s m e] eqn:Hx; cbn; try discriminate.
  - destruct s; [|discriminate]. intros _. rewrite ltb_spec, Hx. now split.
  - destruct s; [|discriminate]. intros _. rewrite ltb_spec, Hx. now split.
Qed.

Section Meridian.
Context {L : Libm}.

(** X23: a bearing along a meridian is exact and needs no C library.
    Between two points of the same finite longitude, [calculate_angle]
    returns exactly 0 when the latitude difference is positive (due north)
    and exactly 180 when it is negative (due south), whatever [atan2] the
    C library has: [math.atan2] decides the case of a zero first argument
    itself. *)
Theorem bearing_along_meridian (lon lat1 lat2 : float) :
  is_finite lon = true ->
  ((0 <? lat2 - lat1)%float = true -> calculate_angle lon lat1 lon lat2 = Ok 0%float) /\
  ((lat2 - lat1 <? 0)%float = true -> calculate_angle lon lat1 lon lat2 = Ok 180%float).
Proof.
  intros Hlon. unfold calculate_angle. rewrite (sub_diag_finite lon Hlon).
  set (x := (lat2 - lat1)%float).
  split; intros Hx.
  - destruct (positive_sign x Hx) as [Hs Hn].
    assert (Hm : m_atan2 0 x = 0%float).
    { unfold m_atan2. rewrite Hn.
      change (PrimFloat.is_nan 0) with false. change (PrimFloat.is_infinity 0) with false.
      change (0 =? 0)%float with true. rewrite orb_true_r. cbn [orb].
      unfold copysign at 1. rewrite Hs. reflexivity. }
    unfold math_atan2. rewrite Hm, Hn. reflexivity.
  - destruct (negative_sign x Hx) as [Hs Hn].
    assert (Hm : m_atan2 0 x = pi).
    { unfold m_atan2. rewrite Hn.
      change (PrimFloat.is_nan 0) with false. change (PrimFloat.is_infinity 0) with false.
      change (0 =? 0)%float with true. rewrite orb_true_r. cbn [orb].
      unfold copysign at 1. rewrite Hs. reflexivity. }
    unfold math_atan2. rewrite Hm, Hn. reflexivity.
Qed.
End Meridian.

(** Due north and due south of (11.5, 48.5). *)
Lemma bearing_along_meridian_witness :
  calculate_angle (L := ref_libm) 11.5 48.5 11.5 49 = Ok 0%float /\
  calculate_angle (L := ref_libm) 11.5 48.5 11.5 48 = Ok 180%float.
Proof.
  split.
  - apply (proj1 (bearing_along_meridian (L := ref_libm) 11.5 48.5 49 eq_refl)).
    reflexivity.
  - apply (proj2 (bearing_along_meridian (L := ref_libm) 11.5 48.5 48 eq_refl)).
    reflexivity.
Defined.

Lemma mul_self_not_nan d : PrimFloat.is_nan d = false -> PrimFloat.is_nan (d * d) = false.
Proof.
  rewrite !is_nan_spec, mul_spec. unfold SF64mul.
  destruct (Prim2SF d) as [s|s| |s m e]; try discriminate; intros _; try reflexivity.
  cbn [SFmul].
  match goal with |- context [binary_round_aux _ _ ?s ?m ?e ?l] =>
    pose proof (binary_round_aux_not_nan s m e l ltac:(lia)) as H;
    destruct (binary_round_aux prec emax s m e l); congruence end.
Qed.

Lemma add_zero_not_nan r :
  PrimFloat.is_nan r = false ->
  PrimFloat.is_nan (0 + r) = false /\ PrimFloat.is_nan (r + 0) = false.
Proof.
  rewrite !is_nan_spec, !add_spec, Prim2SF_zero. unfold SF64add.
  destruct (Prim2SF r) as [s|s| |s m e]; try discriminate; intros _; split;
    try reflexivity; destruct s; reflexivity.
Qed.

(** Adding the product of a zero to a finite float gives a float equal
    to it, or NaN. *)
Lemma add_zero_product x z w :
  is_finite x = true -> is_zero_sf (Prim2SF z) = true ->
  PrimFloat.is_nan (x + z * w) = false -> (x + z * w =? x)%float = true.
Proof.
  intros Hx Hz Hn.
  destruct (is_finite w) eqn:Hw.
  - apply add_zero_finite; [exact Hx|]. now apply mul_zero_finite.
  - exfalso. revert Hn. rewrite is_finite_spec in Hw.
    rewrite is_nan_spec, add_spec, mul_spec. unfold SF64add, SF64mul.
    destruct (Prim2SF z); try discriminate.
    destruct (Prim2SF w); try discriminate; cbn [SFmul];
      destruct (Prim2SF x); discriminate.
Qed.

Lemma pow2_number d r :
  pow2 d = Ok r -> PrimFloat.is_nan d = false -> PrimFloat.is_nan r = false.
Proof.
  unfold pow2. destruct (_ && _); [discriminate|]. intros [= <-]. apply mul_self_not_nan.
Qed.

Section Shared.
Context {L : Libm}.

(** X24: a line along a meridian or a parallel stays on it. For finite
    points, when the two points have the same longitude the end point of
    the extended line has a longitude equal to it, unless it is NaN; and
    likewise for the latitude when the two points have the same
    latitude. *)
Theorem line_keeps_shared_coordinate (lon1 lat1 lon2 lat2 length : float)
    (last : float * float) :
  is_finite lon1 = true -> is_finite lat1 = true ->
  is_finite lon2 = true -> is_finite lat2 = true ->
  extend_line lon1 lat1 lon2 lat2 length = Ok last ->
  (lon1 = lon2 -> PrimFloat.is_nan (fst last) = false -> (fst last =? lon2)%float = true) /\
  (lat1 = lat2 -> PrimFloat.is_nan (snd last) = false -> (snd last =? lat2)%float = true).
Proof.
  intros Hlon1 Hlat1 Hlon2 Hlat2. unfold extend_line.
  pose proof (sub_finite_not_nan lon2 lon1 Hlon2 Hlon1) as Hdlon.
  pose proof (sub_finite_not_nan lat2 lat1 Hlat2 Hlat1) as Hdlat.
  destruct (pow2 (lon2 - lon1)) as [sq_lon|e] eqn:Hsqlon; cbn [bind]; [|discriminate].
  destruct (pow2 (lat2 - lat1)) as [sq_lat|e] eqn:Hsqlat; cbn [bind]; [|discriminate].
  pose proof (pow2_number _ _ Hsqlon Hdlon) as Hnlon.
  pose proof (pow2_number _ _ Hsqlat Hdlat) as Hnlat.
  destruct (math_sqrt (sq_lon + sq_lat)) as [magnitude|e] eqn:Hmag; cbn [bind];
    [|discriminate].
  unfold truediv.
  destruct (magnitude =? 0)%float eqn:Hz; [discriminate|]. cbn [bind].
  destruct (math_cos _) as [c|e]; cbn [bind]; [|discriminate].
  match goal with |- context [PrimFloat.eqb ?a ?b] => destruct (PrimFloat.eqb a b) end;
    cbn [bind]; [discriminate|].
  intros [= <-]. cbn [fst snd]. split.
  - intros ->. rewrite (sub_diag_finite lon2 Hlon2) in *.
    apply add_zero_product; [exact Hlon2|].
    apply div_zero_number; [exact Hz|].
    apply (proj1 (math_1_number _ _ _ Hmag)).
    revert Hsqlon. change (pow2 0) with (Ok 0%float). intros [= <-].
    now apply add_zero_not_nan.
  - intros ->. rewrite (sub_diag_finite lat2 Hlat2) in *.
    apply add_zero_product; [exact Hlat2|].
    apply div_zero_number; [exact Hz|].
    apply (proj1 (math_1_number _ _ _ Hmag)).
    revert Hsqlat. change (pow2 0) with (Ok 0%float). intros [= <-].
    now apply add_zero_not_nan.
Qed.
End Shared.

(** Due north from (11.5, 48) through (11.5, 49): the end point is on the
    meridian 11.5. *)
Lemma line_keeps_shared_coordinate_witness :
  exists last,
    extend_line (L := ref_libm) 11.5 48 11.5 49 50000 = Ok last /\
    (fst last =? 11.5)%float = true.
Proof.
  destruct (extend_line (L := ref_libm) 11.5 48 11.5 49 50000) as [last|e] eqn:Hline.
  - exists last. split; [reflexivity|].
    apply (proj1 (line_keeps_shared_coordinate (L := ref_libm) 11.5 48 11.5 49 50000 last
                    eq_refl eq_refl eq_refl eq_refl Hline)); [reflexivity|].
    revert Hline. vm_compute. intros [= <-]. reflexivity.
  - exfalso. revert Hline. vm_compute. discriminate.
Defined.
